(** * rocky_vsg Application: window / view / render-graph lifecycle and frame loop

    A shallow embedding of [src/rocky_vsg/Application.cpp].  The application
    object becomes a record, every member function a state transformer, and
    the objects the code reaches through [vsg::ref_ptr] live in identity-keyed
    stores, so that aliasing (a view shared by two tables, a future shared by
    a caller and a queued lambda) is kept.  Calls into VSG and into the scene
    layer that the application only triggers are recorded in an event trace. *)

From Stdlib Require Import ZArith Lia.
From stdpp Require Import gmap list.

(** ** Object identities

    A non-null [ref_ptr] is the identity of the object it points to; a
    nullable pointer is an [option]. *)

Abbreviation Window := positive (only parsing).
Abbreviation CommandGraph := positive (only parsing).
Abbreviation RenderGraph := positive (only parsing).
Abbreviation View := positive (only parsing).
Abbreviation Camera := positive (only parsing).
Abbreviation Node := positive (only parsing).
Abbreviation Device := positive (only parsing).
Abbreviation Future := positive (only parsing).
Abbreviation Callback := positive (only parsing).

(** [vsg::WindowTraits], reduced to the members [addWindow] reads or writes. *)
Record WindowTraits := {
  width : Z;
  height : Z;
  debugLayer : bool;
  apiDumpLayer : bool;
  presentModeImmediate : bool;
  barycentric : bool;
  device : option Device
}.

(** A [vsg::View]: its camera, its children and the object stored under
    [MapManipulator::tag]. *)
Record ViewObj := {
  camera : option Camera;
  children : list Node;
  manipulator : option positive
}.

(** A [vsg::RenderGraph]: the window it renders to and its children; a render
    graph made by [RenderGraph::create(window, view)] has the view as its
    only child. *)
Record RenderGraphObj := {
  rg_window : Window;
  rg_children : list Node
}.

(** [Application::ViewData]. *)
Record ViewData := {
  parentRenderGraph : option RenderGraph
}.

(** Entries of [vsg::EventHandlers]; an entry is a [ref_ptr] and may be null. *)
Inductive Handler :=
| CloseHandler (id : positive)
| MapManipulator (id : positive)
| OtherHandler (id : positive).

Global Instance Handler_eq_dec : EqDecision Handler.
Proof. solve_decision. Defined.

(** The lambdas handed to [runDuringUpdate], one constructor per lambda with
    its captured values. *)
Inductive Operation :=
| OpAddWindow (traits : WindowTraits) (future_window : Future)
| OpAddView (window : Window) (view : View) (on_create : option Callback)
            (result : Future)
| OpRemoveView (view : View)
| OpRefreshView (view : option View)
| OpAddPreRenderGraph (window : Window) (renderGraph : RenderGraph).

(** Calls that leave the application object. *)
Inductive Event :=
| EvSoftAssert
| EvDeviceWaitIdle
| EvCreateWindow (w : Window)
| EvActivateRenderGraph (rg : RenderGraph) (w : Window) (v : View)
| EvOnCreate (cb : Callback) (cg : option CommandGraph)
| EvUpdateGraphicsPipelines (rg : RenderGraph)
| EvInstallDebugMessenger (w : Window)
| EvEcsInitialize
| EvAssignRecordAndSubmit (cgs : list CommandGraph)
| EvCompile
| EvRecreateViewer
| EvAdvanceToNextFrame (ok : bool)
| EvMapNodeUpdate
| EvEcsUpdate
| EvUserUpdate (cb : Callback)
| EvHandleEvents
| EvRuntimeUpdate
| EvRecordAndSubmit
| EvPresent.

Global Instance Event_eq_dec : EqDecision Event.
Proof. solve_decision. Defined.

(** [Application::Stats], in microseconds. *)
Record Stats := {
  stats_frame : Z;
  stats_events : Z;
  stats_update : Z;
  stats_record : Z;
  stats_present : Z
}.

(** ** The application state *)

Record Application := {
  _debuglayer : bool;
  _apilayer : bool;
  _vsync : bool;
  _viewerRealized : bool;
  _viewerDirty : bool;
  _commandGraphByWindow : gmap Window CommandGraph;
  _viewData : gmap View ViewData;
  displayConfiguration : gmap Window (list View);
  viewer_windows : list Window;
  eventHandlers : list (option Handler);
  updateOperations : list Operation;
  updateFunction : option Callback;
  supportMultiThreadedRecord : bool;
  stats : Stats;
  windowObjs : gmap Window WindowTraits;
  commandGraphChildren : gmap CommandGraph (list RenderGraph);
  renderGraphs : gmap RenderGraph RenderGraphObj;
  views : gmap View ViewObj;
  futures : gmap Future (option positive);
  trace : list Event;
  next_id : positive
}.

(** The two scene nodes the constructor creates before anything else. *)
Definition root : Node := 1%positive.
Definition mainScene : Node := 2%positive.

(** ** Field updates *)

Definition set_viewerRealized (x : bool)
    (app : Application) : Application :=
  {| _debuglayer := _debuglayer app; _apilayer := _apilayer app;
     _vsync := _vsync app; _viewerRealized := x;
     _viewerDirty := _viewerDirty app;
     _commandGraphByWindow := _commandGraphByWindow app;
     _viewData := _viewData app;
     displayConfiguration := displayConfiguration app;
     viewer_windows := viewer_windows app;
     eventHandlers := eventHandlers app;
     updateOperations := updateOperations app;
     updateFunction := updateFunction app;
     supportMultiThreadedRecord := supportMultiThreadedRecord app;
     stats := stats app; windowObjs := windowObjs app;
     commandGraphChildren := commandGraphChildren app;
     renderGraphs := renderGraphs app; views := views app;
     futures := futures app; trace := trace app; next_id := next_id app |}.

Definition set_viewerDirty (x : bool)
    (app : Application) : Application :=
  {| _debuglayer := _debuglayer app; _apilayer := _apilayer app;
     _vsync := _vsync app; _viewerRealized := _viewerRealized app;
     _viewerDirty := x; _commandGraphByWindow := _commandGraphByWindow app;
     _viewData := _viewData app;
     displayConfiguration := displayConfiguration app;
     viewer_windows := viewer_windows app;
     eventHandlers := eventHandlers app;
     updateOperations := updateOperations app;
     updateFunction := updateFunction app;
     supportMultiThreadedRecord := supportMultiThreadedRecord app;
     stats := stats app; windowObjs := windowObjs app;
     commandGraphChildren := commandGraphChildren app;
     renderGraphs := renderGraphs app; views := views app;
     futures := futures app; trace := trace app; next_id := next_id app |}.

Definition set_commandGraphByWindow (x : gmap Window CommandGraph)
    (app : Application) : Application :=
  {| _debuglayer := _debuglayer app; _apilayer := _apilayer app;
     _vsync := _vsync app; _viewerRealized := _viewerRealized app;
     _viewerDirty := _viewerDirty app; _commandGraphByWindow := x;
     _viewData := _viewData app;
     displayConfiguration := displayConfiguration app;
     viewer_windows := viewer_windows app;
     eventHandlers := eventHandlers app;
     updateOperations := updateOperations app;
     updateFunction := updateFunction app;
     supportMultiThreadedRecord := supportMultiThreadedRecord app;
     stats := stats app; windowObjs := windowObjs app;
     commandGraphChildren := commandGraphChildren app;
     renderGraphs := renderGraphs app; views := views app;
     futures := futures app; trace := trace app; next_id := next_id app |}.

Definition set_viewData (x : gmap View ViewData)
    (app : Application) : Application :=
  {| _debuglayer := _debuglayer app; _apilayer := _apilayer app;
     _vsync := _vsync app; _viewerRealized := _viewerRealized app;
     _viewerDirty := _viewerDirty app;
     _commandGraphByWindow := _commandGraphByWindow app; _viewData := x;
     displayConfiguration := displayConfiguration app;
     viewer_windows := viewer_windows app;
     eventHandlers := eventHandlers app;
     updateOperations := updateOperations app;
     updateFunction := updateFunction app;
     supportMultiThreadedRecord := supportMultiThreadedRecord app;
     stats := stats app; windowObjs := windowObjs app;
     commandGraphChildren := commandGraphChildren app;
     renderGraphs := renderGraphs app; views := views app;
     futures := futures app; trace := trace app; next_id := next_id app |}.

Definition set_displayConfiguration (x : gmap Window (list View))
    (app : Application) : Application :=
  {| _debuglayer := _debuglayer app; _apilayer := _apilayer app;
     _vsync := _vsync app; _viewerRealized := _viewerRealized app;
     _viewerDirty := _viewerDirty app;
     _commandGraphByWindow := _commandGraphByWindow app;
     _viewData := _viewData app; displayConfiguration := x;
     viewer_windows := viewer_windows app;
     eventHandlers := eventHandlers app;
     updateOperations := updateOperations app;
     updateFunction := updateFunction app;
     supportMultiThreadedRecord := supportMultiThreadedRecord app;
     stats := stats app; windowObjs := windowObjs app;
     commandGraphChildren := commandGraphChildren app;
     renderGraphs := renderGraphs app; views := views app;
     futures := futures app; trace := trace app; next_id := next_id app |}.

Definition set_viewer_windows (x : list Window)
    (app : Application) : Application :=
  {| _debuglayer := _debuglayer app; _apilayer := _apilayer app;
     _vsync := _vsync app; _viewerRealized := _viewerRealized app;
     _viewerDirty := _viewerDirty app;
     _commandGraphByWindow := _commandGraphByWindow app;
     _viewData := _viewData app;
     displayConfiguration := displayConfiguration app; viewer_windows := x;
     eventHandlers := eventHandlers app;
     updateOperations := updateOperations app;
     updateFunction := updateFunction app;
     supportMultiThreadedRecord := supportMultiThreadedRecord app;
     stats := stats app; windowObjs := windowObjs app;
     commandGraphChildren := commandGraphChildren app;
     renderGraphs := renderGraphs app; views := views app;
     futures := futures app; trace := trace app; next_id := next_id app |}.

Definition set_eventHandlers (x : list (option Handler))
    (app : Application) : Application :=
  {| _debuglayer := _debuglayer app; _apilayer := _apilayer app;
     _vsync := _vsync app; _viewerRealized := _viewerRealized app;
     _viewerDirty := _viewerDirty app;
     _commandGraphByWindow := _commandGraphByWindow app;
     _viewData := _viewData app;
     displayConfiguration := displayConfiguration app;
     viewer_windows := viewer_windows app; eventHandlers := x;
     updateOperations := updateOperations app;
     updateFunction := updateFunction app;
     supportMultiThreadedRecord := supportMultiThreadedRecord app;
     stats := stats app; windowObjs := windowObjs app;
     commandGraphChildren := commandGraphChildren app;
     renderGraphs := renderGraphs app; views := views app;
     futures := futures app; trace := trace app; next_id := next_id app |}.

Definition set_updateOperations (x : list Operation)
    (app : Application) : Application :=
  {| _debuglayer := _debuglayer app; _apilayer := _apilayer app;
     _vsync := _vsync app; _viewerRealized := _viewerRealized app;
     _viewerDirty := _viewerDirty app;
     _commandGraphByWindow := _commandGraphByWindow app;
     _viewData := _viewData app;
     displayConfiguration := displayConfiguration app;
     viewer_windows := viewer_windows app;
     eventHandlers := eventHandlers app; updateOperations := x;
     updateFunction := updateFunction app;
     supportMultiThreadedRecord := supportMultiThreadedRecord app;
     stats := stats app; windowObjs := windowObjs app;
     commandGraphChildren := commandGraphChildren app;
     renderGraphs := renderGraphs app; views := views app;
     futures := futures app; trace := trace app; next_id := next_id app |}.

Definition set_supportMultiThreadedRecord (x : bool)
    (app : Application) : Application :=
  {| _debuglayer := _debuglayer app; _apilayer := _apilayer app;
     _vsync := _vsync app; _viewerRealized := _viewerRealized app;
     _viewerDirty := _viewerDirty app;
     _commandGraphByWindow := _commandGraphByWindow app;
     _viewData := _viewData app;
     displayConfiguration := displayConfiguration app;
     viewer_windows := viewer_windows app;
     eventHandlers := eventHandlers app;
     updateOperations := updateOperations app;
     updateFunction := updateFunction app; supportMultiThreadedRecord := x;
     stats := stats app; windowObjs := windowObjs app;
     commandGraphChildren := commandGraphChildren app;
     renderGraphs := renderGraphs app; views := views app;
     futures := futures app; trace := trace app; next_id := next_id app |}.

Definition set_stats (x : Stats)
    (app : Application) : Application :=
  {| _debuglayer := _debuglayer app; _apilayer := _apilayer app;
     _vsync := _vsync app; _viewerRealized := _viewerRealized app;
     _viewerDirty := _viewerDirty app;
     _commandGraphByWindow := _commandGraphByWindow app;
     _viewData := _viewData app;
     displayConfiguration := displayConfiguration app;
     viewer_windows := viewer_windows app;
     eventHandlers := eventHandlers app;
     updateOperations := updateOperations app;
     updateFunction := updateFunction app;
     supportMultiThreadedRecord := supportMultiThreadedRecord app;
     stats := x; windowObjs := windowObjs app;
     commandGraphChildren := commandGraphChildren app;
     renderGraphs := renderGraphs app; views := views app;
     futures := futures app; trace := trace app; next_id := next_id app |}.

Definition set_windowObjs (x : gmap Window WindowTraits)
    (app : Application) : Application :=
  {| _debuglayer := _debuglayer app; _apilayer := _apilayer app;
     _vsync := _vsync app; _viewerRealized := _viewerRealized app;
     _viewerDirty := _viewerDirty app;
     _commandGraphByWindow := _commandGraphByWindow app;
     _viewData := _viewData app;
     displayConfiguration := displayConfiguration app;
     viewer_windows := viewer_windows app;
     eventHandlers := eventHandlers app;
     updateOperations := updateOperations app;
     updateFunction := updateFunction app;
     supportMultiThreadedRecord := supportMultiThreadedRecord app;
     stats := stats app; windowObjs := x;
     commandGraphChildren := commandGraphChildren app;
     renderGraphs := renderGraphs app; views := views app;
     futures := futures app; trace := trace app; next_id := next_id app |}.

Definition set_commandGraphChildren (x : gmap CommandGraph (list RenderGraph))
    (app : Application) : Application :=
  {| _debuglayer := _debuglayer app; _apilayer := _apilayer app;
     _vsync := _vsync app; _viewerRealized := _viewerRealized app;
     _viewerDirty := _viewerDirty app;
     _commandGraphByWindow := _commandGraphByWindow app;
     _viewData := _viewData app;
     displayConfiguration := displayConfiguration app;
     viewer_windows := viewer_windows app;
     eventHandlers := eventHandlers app;
     updateOperations := updateOperations app;
     updateFunction := updateFunction app;
     supportMultiThreadedRecord := supportMultiThreadedRecord app;
     stats := stats app; windowObjs := windowObjs app;
     commandGraphChildren := x; renderGraphs := renderGraphs app;
     views := views app; futures := futures app; trace := trace app;
     next_id := next_id app |}.

Definition set_renderGraphs (x : gmap RenderGraph RenderGraphObj)
    (app : Application) : Application :=
  {| _debuglayer := _debuglayer app; _apilayer := _apilayer app;
     _vsync := _vsync app; _viewerRealized := _viewerRealized app;
     _viewerDirty := _viewerDirty app;
     _commandGraphByWindow := _commandGraphByWindow app;
     _viewData := _viewData app;
     displayConfiguration := displayConfiguration app;
     viewer_windows := viewer_windows app;
     eventHandlers := eventHandlers app;
     updateOperations := updateOperations app;
     updateFunction := updateFunction app;
     supportMultiThreadedRecord := supportMultiThreadedRecord app;
     stats := stats app; windowObjs := windowObjs app;
     commandGraphChildren := commandGraphChildren app; renderGraphs := x;
     views := views app; futures := futures app; trace := trace app;
     next_id := next_id app |}.

Definition set_views (x : gmap View ViewObj)
    (app : Application) : Application :=
  {| _debuglayer := _debuglayer app; _apilayer := _apilayer app;
     _vsync := _vsync app; _viewerRealized := _viewerRealized app;
     _viewerDirty := _viewerDirty app;
     _commandGraphByWindow := _commandGraphByWindow app;
     _viewData := _viewData app;
     displayConfiguration := displayConfiguration app;
     viewer_windows := viewer_windows app;
     eventHandlers := eventHandlers app;
     updateOperations := updateOperations app;
     updateFunction := updateFunction app;
     supportMultiThreadedRecord := supportMultiThreadedRecord app;
     stats := stats app; windowObjs := windowObjs app;
     commandGraphChildren := commandGraphChildren app;
     renderGraphs := renderGraphs app; views := x; futures := futures app;
     trace := trace app; next_id := next_id app |}.

Definition set_futures (x : gmap Future (option positive))
    (app : Application) : Application :=
  {| _debuglayer := _debuglayer app; _apilayer := _apilayer app;
     _vsync := _vsync app; _viewerRealized := _viewerRealized app;
     _viewerDirty := _viewerDirty app;
     _commandGraphByWindow := _commandGraphByWindow app;
     _viewData := _viewData app;
     displayConfiguration := displayConfiguration app;
     viewer_windows := viewer_windows app;
     eventHandlers := eventHandlers app;
     updateOperations := updateOperations app;
     updateFunction := updateFunction app;
     supportMultiThreadedRecord := supportMultiThreadedRecord app;
     stats := stats app; windowObjs := windowObjs app;
     commandGraphChildren := commandGraphChildren app;
     renderGraphs := renderGraphs app; views := views app; futures := x;
     trace := trace app; next_id := next_id app |}.

Definition set_trace (x : list Event)
    (app : Application) : Application :=
  {| _debuglayer := _debuglayer app; _apilayer := _apilayer app;
     _vsync := _vsync app; _viewerRealized := _viewerRealized app;
     _viewerDirty := _viewerDirty app;
     _commandGraphByWindow := _commandGraphByWindow app;
     _viewData := _viewData app;
     displayConfiguration := displayConfiguration app;
     viewer_windows := viewer_windows app;
     eventHandlers := eventHandlers app;
     updateOperations := updateOperations app;
     updateFunction := updateFunction app;
     supportMultiThreadedRecord := supportMultiThreadedRecord app;
     stats := stats app; windowObjs := windowObjs app;
     commandGraphChildren := commandGraphChildren app;
     renderGraphs := renderGraphs app; views := views app;
     futures := futures app; trace := x; next_id := next_id app |}.

Definition set_next_id (x : positive)
    (app : Application) : Application :=
  {| _debuglayer := _debuglayer app; _apilayer := _apilayer app;
     _vsync := _vsync app; _viewerRealized := _viewerRealized app;
     _viewerDirty := _viewerDirty app;
     _commandGraphByWindow := _commandGraphByWindow app;
     _viewData := _viewData app;
     displayConfiguration := displayConfiguration app;
     viewer_windows := viewer_windows app;
     eventHandlers := eventHandlers app;
     updateOperations := updateOperations app;
     updateFunction := updateFunction app;
     supportMultiThreadedRecord := supportMultiThreadedRecord app;
     stats := stats app; windowObjs := windowObjs app;
     commandGraphChildren := commandGraphChildren app;
     renderGraphs := renderGraphs app; views := views app;
     futures := futures app; trace := trace app; next_id := x |}.

(** ** Primitives

    A function that creates an object returns the new identity together with
    the new state; callers read the two components with [.1] and [.2]. *)

Definition emit (e : Event) (app : Application) : Application :=
  set_trace (e :: trace app) app.

(** Every [T::create] yields an object no pointer referred to before. *)
Definition fresh (app : Application) : positive * Application :=
  (next_id app, set_next_id (Pos.succ (next_id app)) app).

(** [ROCKY_SOFT_ASSERT_AND_RETURN]: the failed check is logged and the
    enclosing function returns. *)
Definition soft_assert_failed (app : Application) : Application :=
  emit EvSoftAssert app.

Definition deviceWaitIdle (app : Application) : Application :=
  emit EvDeviceWaitIdle app.

(** Modelled from the spec: [util::Future] (its header is not part of the
    sources).  A future is created unresolved; [resolve] stores the value in
    the state shared by all copies of the future. *)
Definition new_future (app : Application) : Future * Application :=
  let f := (fresh app).1 in
  let app := (fresh app).2 in
  (f, set_futures (<[f := None]> (futures app)) app).

Definition resolve (f : Future) (value : positive) (app : Application)
  : Application :=
  set_futures (<[f := Some value]> (futures app)) app.

Definition future_value (app : Application) (f : Future) : option positive :=
  futures app !! f ≫= id.

(** Modelled from the spec: [RuntimeContext::runDuringUpdate] (not part of the
    sources) appends the operation to the queue that the frame loop drains at
    its safe point, in enqueue order. *)
Definition runDuringUpdate (op : Operation) (app : Application) : Application :=
  set_updateOperations (updateOperations app ++ [op]) app.

Definition view_camera (app : Application) (view : View) : option Camera :=
  views app !! view ≫= camera.

Definition view_manipulator (app : Application) (view : View)
  : option Handler :=
  MapManipulator <$> (views app !! view ≫= manipulator).

Definition is_MapManipulator (h : option Handler) : bool :=
  match h with
  | Some (MapManipulator _) => true
  | _ => false
  end.

(** [vsg::View::create(camera, children...)]. *)
Definition create_View (cam : option Camera) (kids : list Node)
    (app : Application) : View * Application :=
  let v := (fresh app).1 in
  let app := (fresh app).2 in
  (v, set_views (<[v := {| camera := cam; children := kids;
                           manipulator := None |}]> (views app)) app).

(** [vsg::RenderGraph::create(window, view)]. *)
Definition create_RenderGraph (window : Window) (view : View)
    (app : Application) : RenderGraph * Application :=
  let rg := (fresh app).1 in
  let app := (fresh app).2 in
  (rg, set_renderGraphs (<[rg := {| rg_window := window;
                                    rg_children := [view] |}]>
                           (renderGraphs app)) app).

(** [if (view->children.empty()) view->addChild(root)]. *)
Definition attach_scene (view : View) (app : Application) : Application :=
  match views app !! view with
  | Some o =>
      match children o with
      | [] => set_views (<[view := {| camera := camera o; children := [root];
                                      manipulator := manipulator o |}]>
                           (views app)) app
      | _ :: _ => app
      end
  | None => app
  end.

(** [commandgraph->addChild(rendergraph)]. *)
Definition commandGraph_addChild (cg : CommandGraph) (rg : RenderGraph)
    (app : Application) : Application :=
  set_commandGraphChildren
    (<[cg := default [] (commandGraphChildren app !! cg) ++ [rg]]>
       (commandGraphChildren app)) app.

(** [_viewData[view].parentRenderGraph = rendergraph;
     displayConfiguration.windows[window].emplace_back(view)]. *)
Definition remember_view (window : Window) (view : View) (rg : RenderGraph)
    (app : Application) : Application :=
  let app := set_viewData
               (<[view := {| parentRenderGraph := Some rg |}]> (_viewData app))
               app in
  set_displayConfiguration
    (<[window := default [] (displayConfiguration app !! window) ++ [view]]>
       (displayConfiguration app)) app.

(** ** Application.cpp *)

(** The view a render graph carries: its first child, when that is a view. *)
Definition renderGraph_view (app : Application) (rg : RenderGraph)
  : option View :=
  match renderGraphs app !! rg with
  | Some o =>
      match rg_children o with
      | c :: _ => match views app !! c with Some _ => Some c | None => None end
      | [] => None
      end
  | None => None
  end.

Definition activateRenderGraph (renderGraph : RenderGraph) (window : Window)
    (app : Application) : Application :=
  match renderGraph_view app renderGraph with
  | Some view => emit (EvActivateRenderGraph renderGraph window view) app
  | None => app
  end.

Definition getCommandGraph (window : Window) (app : Application)
  : option CommandGraph :=
  _commandGraphByWindow app !! window.

Definition getWindow (view : View) (app : Application) : option Window :=
  fst <$> find (fun p : Window * list View => bool_decide (view ∈ p.2))
               (map_to_list (displayConfiguration app)).

(** The manipulators of all views of the display configuration: windows in
    map order, the views of a window from the last to the first.  The map of
    the source is ordered by the addresses of the windows, which the code
    does not determine; the map here is ordered by identity, and no property
    below depends on the order in which the windows come. *)
Definition manipulators_in_order (app : Application) : list (option Handler) :=
  flat_map (fun p : Window * list View =>
              map (view_manipulator app) (rev p.2))
           (map_to_list (displayConfiguration app)).

Definition addManipulator (window : Window) (view : View)
    (app : Application) : Application :=
  let manip := (fresh app).1 in
  let app := (fresh app).2 in
  let app := set_views
               (alter (fun o => {| camera := camera o; children := children o;
                                   manipulator := Some manip |})
                      view (views app)) app in
  let ehs := filter (fun h => is_MapManipulator h = false)
                    (eventHandlers app) in
  set_eventHandlers (ehs ++ manipulators_in_order app) app.

(** [if (on_create) on_create(commandgraph.get())]. *)
Definition call_on_create (on_create : option Callback)
    (commandgraph : option CommandGraph) (app : Application) : Application :=
  match on_create with
  | Some cb => emit (EvOnCreate cb commandgraph) app
  | None => app
  end.

Definition addViewAfterViewerIsRealized (window : Window) (view : View)
    (on_create : option Callback) (result : Future)
    (app : Application) : Application :=
  let app := deviceWaitIdle app in
  let app := attach_scene view app in
  let commandgraph := getCommandGraph window app in
  let app :=
    match commandgraph with
    | Some cg =>
        let rendergraph := (create_RenderGraph window view app).1 in
        let app := (create_RenderGraph window view app).2 in
        let app := commandGraph_addChild cg rendergraph app in
        let app := activateRenderGraph rendergraph window app in
        let app := remember_view window view rendergraph app in
        addManipulator window view app
    | None => app
    end in
  let app := call_on_create on_create commandgraph app in
  resolve result view app.

(** The branch of [addView] taken before realization. *)
Definition add_view_now (window : Window) (view : View)
    (on_create : option Callback) (app : Application) : Future * Application :=
  let commandgraph := _commandGraphByWindow app !! window in
  let app :=
    match commandgraph with
    | Some cg =>
        let app := attach_scene view app in
        let rendergraph := (create_RenderGraph window view app).1 in
        let app := (create_RenderGraph window view app).2 in
        let app := commandGraph_addChild cg rendergraph app in
        remember_view window view rendergraph app
    | None => app
    end in
  let result := (new_future app).1 in
  let app := (new_future app).2 in
  let app := resolve result view app in
  let app := call_on_create on_create commandgraph app in
  (result, app).

Definition addView (window : option Window) (view : option View)
    (on_create : option Callback) (app : Application) : Future * Application :=
  match window with
  | None => new_future (soft_assert_failed app)
  | Some window =>
  match view with
  | None => new_future (soft_assert_failed app)
  | Some view =>
  match view_camera app view with
  | None => new_future (soft_assert_failed app)
  | Some _ =>
      if _viewerRealized app then
        let result := (new_future app).1 in
        let app := (new_future app).2 in
        (result, runDuringUpdate (OpAddView window view on_create result) app)
      else
        add_view_now window view on_create app
  end end end.

(** [vsg::Window::create(traits)]: the window shares the device named by the
    traits, or brings its own. *)
Definition create_Window (traits : WindowTraits) (app : Application)
  : Window * Application :=
  let window := (fresh app).1 in
  let app := (fresh app).2 in
  let dev := match device traits with
             | Some d => d
             | None => (fresh app).1
             end in
  let app := match device traits with
             | Some d => app
             | None => (fresh app).2
             end in
  let obj := {| width := width traits; height := height traits;
                debugLayer := debugLayer traits;
                apiDumpLayer := apiDumpLayer traits;
                presentModeImmediate := presentModeImmediate traits;
                barycentric := barycentric traits;
                device := Some dev |} in
  (window, emit (EvCreateWindow window)
             (set_windowObjs (<[window := obj]> (windowObjs app)) app)).

(** The traits as [add_window] hands them to the window. *)
Definition window_traits (traits : WindowTraits) (app : Application)
  : WindowTraits :=
  {| width := width traits; height := height traits;
     debugLayer := _debuglayer app;
     apiDumpLayer := _apilayer app;
     presentModeImmediate :=
       if _vsync app then presentModeImmediate traits else true;
     barycentric := true;
     device :=
       match viewer_windows app with
       | front :: _ => windowObjs app !! front ≫= device
       | [] => device traits
       end |}.

(** The first view of a new window: either path of attaching it. *)
Definition add_first_view (window : Window) (view : View)
    (app : Application) : Application :=
  if _viewerRealized app then
    addViewAfterViewerIsRealized window view None (new_future app).1
      (new_future app).2
  else
    (addView (Some window) (Some view) None app).2.

(** The body of the [add_window] lambda of [Application::addWindow]. *)
Definition add_window (traits : WindowTraits) (future_window : Future)
    (app : Application) : Application :=
  let app := deviceWaitIdle app in
  let result := future_window in
  let traits := window_traits traits app in
  let window := (create_Window traits app).1 in
  let app := (create_Window traits app).2 in
  let commandgraph := (fresh app).1 in
  let app := (fresh app).2 in
  let app := set_commandGraphChildren
               (<[commandgraph := []]> (commandGraphChildren app)) app in
  let app := set_commandGraphByWindow
               (<[window := commandgraph]> (_commandGraphByWindow app)) app in
  let cam := (fresh app).1 in
  let app := (fresh app).2 in
  let view := (create_View (Some cam) [mainScene] app).1 in
  let app := (create_View (Some cam) [mainScene] app).2 in
  let app := add_first_view window view app in
  let app := set_supportMultiThreadedRecord true app in
  let app := set_viewer_windows (viewer_windows app ++ [window]) app in
  let app := addManipulator window view app in
  let app := resolve result window app in
  let app := if _viewerRealized app then set_viewerDirty true app else app in
  if _debuglayer app then emit (EvInstallDebugMessenger window) app else app.

Definition addWindow (traits : option WindowTraits) (app : Application)
  : Future * Application :=
  match traits with
  | None => new_future (soft_assert_failed app)
  | Some traits =>
      let future_window := (new_future app).1 in
      let app := (new_future app).2 in
      if _viewerRealized app then
        (future_window, runDuringUpdate (OpAddWindow traits future_window) app)
      else
        (future_window, add_window traits future_window app)
  end.

(** The body of the [remove] lambda of [Application::removeView]. *)
Definition remove (view : View) (app : Application) : Application :=
  let app := deviceWaitIdle app in
  match getWindow view app with
  | None => soft_assert_failed app
  | Some window =>
  match getCommandGraph window app with
  | None => soft_assert_failed app
  | Some commandgraph =>
  match _viewData app !! view with
  | None => soft_assert_failed app
  | Some vd =>
      let rendergraph := parentRenderGraph vd in
      let app := set_commandGraphChildren
                   (alter (filter (fun c => Some c ≠ rendergraph))
                          commandgraph (commandGraphChildren app)) app in
      let app := set_viewData (delete view (_viewData app)) app in
      set_displayConfiguration
        (<[window := filter (fun v => v ≠ view)
                       (default [] (displayConfiguration app !! window))]>
           (displayConfiguration app)) app
  end end end.

Definition removeView (view : option View) (app : Application) : Application :=
  match view with
  | None => soft_assert_failed app
  | Some view =>
      if _viewerRealized app then runDuringUpdate (OpRemoveView view) app
      else remove view app
  end.

(** The body of the [refresh] lambda of [Application::refreshView].  The
    render-area geometry copied from the viewport is floating point cast to
    32 bits and is left out; the table access and the pipeline rebuild are
    kept. *)
Definition refresh (view : option View) (app : Application) : Application :=
  match view with
  | None => soft_assert_failed app
  | Some view =>
      let viewdata := default {| parentRenderGraph := None |}
                              (_viewData app !! view) in
      let app := set_viewData (<[view := viewdata]> (_viewData app)) app in
      match parentRenderGraph viewdata with
      | None => soft_assert_failed app
      | Some rg => emit (EvUpdateGraphicsPipelines rg) (deviceWaitIdle app)
      end
  end.

Definition refreshView (view : option View) (app : Application) : Application :=
  if _viewerRealized app then runDuringUpdate (OpRefreshView view) app
  else refresh view app.

(** The body of the lambda of [Application::addPreRenderGraph]. *)
Definition add_pre_render_graph (window : Window) (renderGraph : RenderGraph)
    (app : Application) : Application :=
  match getCommandGraph window app with
  | None => soft_assert_failed app
  | Some commandGraph =>
      match default [] (commandGraphChildren app !! commandGraph) with
      | [] => soft_assert_failed app
      | kids =>
          let app := set_commandGraphChildren
                       (<[commandGraph := renderGraph :: kids]>
                          (commandGraphChildren app)) app in
          activateRenderGraph renderGraph window app
      end
  end.

Definition addPreRenderGraph (window : Window) (renderGraph : RenderGraph)
    (app : Application) : Application :=
  if _viewerRealized app then
    runDuringUpdate (OpAddPreRenderGraph window renderGraph) app
  else add_pre_render_graph window renderGraph app.

Definition setupViewer (app : Application) : Application :=
  let app := emit EvEcsInitialize app in
  let close := (fresh app).1 in
  let app := (fresh app).2 in
  let app := set_eventHandlers
               (eventHandlers app ++ [Some (CloseHandler close)]) app in
  let commandGraphs := (map_to_list (_commandGraphByWindow app)).*2 in
  let app := emit (EvAssignRecordAndSubmit commandGraphs) app in
  emit EvCompile app.

Definition recreateViewer (app : Application) : Application :=
  let app := emit EvRecreateViewer app in
  let handlers := eventHandlers app in
  let app := deviceWaitIdle app in
  let app := set_eventHandlers [] (set_viewer_windows [] app) in
  let app := set_viewer_windows
               (viewer_windows app
                  ++ (map_to_list (displayConfiguration app)).*1) app in
  let app := set_eventHandlers (eventHandlers app ++ handlers) app in
  setupViewer app.

(** [vsg::WindowTraits::create(1920, 1080, "Main Window")]. *)
Definition main_window_traits : WindowTraits :=
  {| width := 1920; height := 1080; debugLayer := false;
     apiDumpLayer := false; presentModeImmediate := false;
     barycentric := false; device := None |}.

Definition realize (app : Application) : Application :=
  if _viewerRealized app then app
  else
    let app :=
      match viewer_windows app with
      | [] => (addWindow (Some main_window_traits) app).2
      | _ :: _ => app
      end in
    let app := setupViewer app in
    set_viewerRealized true app.

(** What a queued lambda does when the queue runs it. *)
Definition run_operation (op : Operation) (app : Application) : Application :=
  match op with
  | OpAddWindow traits future_window => add_window traits future_window app
  | OpAddView window view on_create result =>
      addViewAfterViewerIsRealized window view on_create result app
  | OpRemoveView view => remove view app
  | OpRefreshView view => refresh view app
  | OpAddPreRenderGraph window rg => add_pre_render_graph window rg app
  end.

(** Modelled from the spec: [viewer->update()] is the safe point; it runs
    every queued operation once, in enqueue order, and leaves the queue
    empty. *)
Definition viewer_update (app : Application) : Application :=
  foldl (fun a op => run_operation op a)
        (set_updateOperations [] app) (updateOperations app).

(** ** The frame loop *)

(** What the outside world answers during one [frame()] call: the verdicts of
    [advanceToNextFrame()] and [active()], and the five readings of
    [std::chrono::steady_clock::now()], in clock ticks. *)
Record FrameInput := {
  advance : bool;
  active : bool;
  t_start : Z;
  t_update : Z;
  t_record : Z;
  t_present : Z;
  t_end : Z
}.

(** Signed 64-bit wrap-around, the representation of clock durations. *)
Definition wrap64 (z : Z) : Z :=
  ((z + 2 ^ 63) mod 2 ^ 64 - 2 ^ 63)%Z.

(** [std::chrono::duration_cast<microseconds>(b - a)], for a clock of
    [ticks_per_us] ticks per microsecond: the quotient truncated towards
    zero. *)
Definition duration_cast_us (ticks_per_us : Z) (b a : Z) : Z :=
  Z.quot (wrap64 (b - a)) ticks_per_us.

(** [frame()] up to and including [instance.runtime().update()], once
    [advanceToNextFrame()] has succeeded. *)
Definition frame_update (app : Application) : Application :=
  let app := emit EvMapNodeUpdate app in
  let app := emit EvEcsUpdate app in
  let app :=
    match updateFunction app with
    | Some cb => emit (EvUserUpdate cb) app
    | None => app
    end in
  let app := emit EvHandleEvents app in
  let app := viewer_update app in
  emit EvRuntimeUpdate app.

Definition frame_stats (ticks_per_us : Z) (inp : FrameInput) : Stats :=
  {| stats_frame := duration_cast_us ticks_per_us (t_end inp) (t_start inp);
     stats_events := duration_cast_us ticks_per_us (t_update inp) (t_start inp);
     stats_update := duration_cast_us ticks_per_us (t_record inp) (t_update inp);
     stats_record := duration_cast_us ticks_per_us (t_present inp) (t_record inp);
     stats_present := duration_cast_us ticks_per_us (t_end inp) (t_present inp)
  |}.

(** The start of [frame()]: realize if need be, then ask the viewer for the
    next frame. *)
Definition frame_begin (inp : FrameInput) (app : Application) : Application :=
  let app := if _viewerRealized app then app else realize app in
  emit (EvAdvanceToNextFrame (advance inp)) app.

Definition frame (ticks_per_us : Z) (inp : FrameInput) (app : Application)
  : bool * Application :=
  let app := frame_begin inp app in
  if advance inp then
    let app := frame_update app in
    if _viewerDirty app then
      (true, recreateViewer (set_viewerDirty false app))
    else
      let app := emit EvRecordAndSubmit app in
      let app := emit EvPresent app in
      let app := set_stats (frame_stats ticks_per_us inp) app in
      (active inp, app)
  else (false, app).

(** [run()]: [while (frame() == true);] then [return 0].  The loop is bounded
    by [fuel]; [env n] is what the outside world answers during the [n]-th
    frame. *)
Fixpoint run_from (ticks_per_us : Z) (fuel : nat) (n : nat)
    (env : nat -> FrameInput) (app : Application)
  : option (Z * Application) :=
  match fuel with
  | O => None
  | S fuel =>
      let again := (frame ticks_per_us (env n) app).1 in
      let app := (frame ticks_per_us (env n) app).2 in
      if again then run_from ticks_per_us fuel (S n) env app
      else Some (0%Z, app)
  end.

Definition run (ticks_per_us : Z) (fuel : nat) (env : nat -> FrameInput)
    (app : Application) : option (Z * Application) :=
  run_from ticks_per_us fuel 0 env app.

(** The application after the first [k] frames of a run that starts with
    frame number [n]. *)
Fixpoint after_frames (ticks_per_us : Z) (env : nat -> FrameInput)
    (n k : nat) (app : Application) : Application :=
  match k with
  | O => app
  | S k =>
      after_frames ticks_per_us env (S n) k (frame ticks_per_us (env n) app).2
  end.

(** [frame()] gets past the dirty check and stores its statistics. *)
Definition reaches_statistics (inp : FrameInput) (app : Application) : bool :=
  advance inp && negb (_viewerDirty (frame_update (frame_begin inp app))).

(** ** Clients *)

(** What a client can do with the application object: the public member
    functions, and making a view of its own to hand in. *)
Inductive Call :=
| CreateView (cam : option Camera) (kids : list Node)
| AddWindow (traits : option WindowTraits)
| AddView (window : option Window) (view : option View)
          (on_create : option Callback)
| RemoveView (view : option View)
| RefreshView (view : option View)
| AddPreRenderGraph (window : Window) (renderGraph : RenderGraph)
| Realize
| Frame (inp : FrameInput).

Definition step (ticks_per_us : Z) (c : Call) (app : Application)
  : Application :=
  match c with
  | CreateView cam kids => (create_View cam kids app).2
  | AddWindow traits => (addWindow traits app).2
  | AddView window view on_create => (addView window view on_create app).2
  | RemoveView view => removeView view app
  | RefreshView view => refreshView view app
  | AddPreRenderGraph window rg => addPreRenderGraph window rg app
  | Realize => realize app
  | Frame inp => (frame ticks_per_us inp app).2
  end.

Definition steps (ticks_per_us : Z) (cs : list Call) (app : Application)
  : Application :=
  foldl (fun a c => step ticks_per_us c a) app cs.

(** The application as its constructor leaves it: nothing realized, no
    window, an empty viewer.  The scene nodes and the viewer the constructor
    makes take the first identities. *)
Definition Application_new (debug api vsync : bool) : Application :=
  {| _debuglayer := debug;
     _apilayer := api;
     _vsync := vsync;
     _viewerRealized := false;
     _viewerDirty := false;
     _commandGraphByWindow := ∅;
     _viewData := ∅;
     displayConfiguration := ∅;
     viewer_windows := [];
     eventHandlers := [];
     updateOperations := [];
     updateFunction := None;
     supportMultiThreadedRecord := false;
     stats := {| stats_frame := 0; stats_events := 0; stats_update := 0;
                 stats_record := 0; stats_present := 0 |};
     windowObjs := ∅;
     commandGraphChildren := ∅;
     renderGraphs := ∅;
     views := ∅;
     futures := ∅;
     trace := [];
     next_id := 8 |}.

(** The calls that run [realize()]. *)
Definition realizes (c : Call) : bool :=
  match c with
  | Realize | Frame _ => true
  | _ => false
  end.

(** ** Notions used by the properties *)

(** The view is listed under some window of the display configuration. *)
Definition attached (app : Application) (view : View) : Prop :=
  exists w vs, displayConfiguration app !! w = Some vs /\ view ∈ vs.

(** The call breaks a precondition of a public structural operation. *)
Definition precondition_violated (app : Application) (c : Call) : Prop :=
  match c with
  | AddWindow None => True
  | AddView None _ _ => True
  | AddView (Some _) None _ => True
  | AddView (Some _) (Some v) _ => view_camera app v = None
  | RemoveView None => True
  | RemoveView (Some v) => ~ attached app v
  | _ => False
  end.

(** The display configuration, the command-graph registry, the view
    bookkeeping and the objects they refer to are the same in both states. *)
Definition tables_unchanged (a b : Application) : Prop :=
  displayConfiguration b = displayConfiguration a /\
  _commandGraphByWindow b = _commandGraphByWindow a /\
  _viewData b = _viewData a /\
  commandGraphChildren b = commandGraphChildren a /\
  renderGraphs b = renderGraphs a /\
  views b = views a /\
  viewer_windows b = viewer_windows a /\
  eventHandlers b = eventHandlers a.

(** Identities are handed out in increasing order. *)
Definition next_le (a b : Application) : Prop :=
  (next_id a <= next_id b)%positive.

(** From [a] to [b] the future [f], if it existed in [a], kept its state. *)
Definition future_kept (f : Future) (a b : Application) : Prop :=
  next_le a b /\
  ((f < next_id a)%positive -> futures b !! f = futures a !! f).

(** The future an operation resolves when it runs. *)
Definition operation_future (op : Operation) : option Future :=
  match op with
  | OpAddWindow _ f => Some f
  | OpAddView _ _ _ f => Some f
  | _ => None
  end.

(** A call that does not run the queued operations: every call but a
    [frame()] that gets past [advanceToNextFrame()]. *)
Definition not_draining (c : Call) : bool :=
  match c with
  | Frame inp => negb (advance inp)
  | _ => true
  end.

(** A set dirty flag stays set. *)
Definition dirty_kept (a b : Application) : Prop :=
  _viewerDirty a = true -> _viewerDirty b = true.

(** The events that are neither a viewer rebuild, nor a recording and
    submission, nor a presentation. *)
Definition is_quiet (e : Event) : bool :=
  match e with
  | EvRecreateViewer | EvRecordAndSubmit | EvPresent => false
  | _ => true
  end.

(** From [a] to [b] only quiet events were recorded. *)
Definition quiet_trace (a b : Application) : Prop :=
  exists evs, trace b = evs ++ trace a /\ forallb is_quiet evs = true.

(** Every installed handler that is not a map manipulator is still
    installed. *)
Definition handlers_kept (a b : Application) : Prop :=
  forall h, is_MapManipulator h = false ->
            h ∈ eventHandlers a -> h ∈ eventHandlers b.

(** [count e evs]: how often the event occurs. *)
Definition count (e : Event) (evs : list Event) : nat :=
  count_occ Event_eq_dec evs e.

(** *** Display configuration against command graphs *)

Global Instance ViewData_eq_dec : EqDecision ViewData.
Proof. solve_decision. Defined.

(** All attached views: windows in map order, the views of a window in the
    order they were added. *)
Definition attached_views (app : Application) : list View :=
  flat_map snd (map_to_list (displayConfiguration app)).

(** The entries of the display configuration, one per listed view. *)
Definition entries (app : Application) : list (Window * View) :=
  flat_map (fun p : Window * list View => map (fun v => (p.1, v)) p.2)
           (map_to_list (displayConfiguration app)).

(** The entries whose view has [rg] recorded as its parent render graph. *)
Definition entries_of (app : Application) (rg : RenderGraph)
  : list (Window * View) :=
  filter (fun e : Window * View =>
            _viewData app !! e.2 = Some {| parentRenderGraph := Some rg |})
         (entries app).

Definition commandGraph_children (app : Application) (cg : CommandGraph)
  : list RenderGraph :=
  default [] (commandGraphChildren app !! cg).

Definition window_views (app : Application) (w : Window) : list View :=
  default [] (displayConfiguration app !! w).

(** The display configuration and the command-graph registry agree: every
    listed view has a recorded render graph that is a child of its window's
    command graph, and every view-bearing child of a registered command
    graph belongs to exactly one entry, that of its window and view. *)
Definition consistent (app : Application) : Prop :=
  (forall w vs v,
      displayConfiguration app !! w = Some vs -> v ∈ vs ->
      exists rg cg,
        _viewData app !! v = Some {| parentRenderGraph := Some rg |} /\
        _commandGraphByWindow app !! w = Some cg /\
        rg ∈ commandGraph_children app cg) /\
  (forall w cg rg v,
      _commandGraphByWindow app !! w = Some cg ->
      rg ∈ commandGraph_children app cg ->
      renderGraph_view app rg = Some v ->
      entries_of app rg = [(w, v)]).

(** The view and the render graph belong together: the render graph is
    recorded for the view, renders to the window and carries the view. *)
Definition linked (app : Application) (w : Window) (v : View)
    (rg : RenderGraph) : Prop :=
  _viewData app !! v = Some {| parentRenderGraph := Some rg |} /\
  renderGraphs app !! rg = Some {| rg_window := w; rg_children := [v] |}.

(** The invariant behind [consistent]: the children of a window's command
    graph are, position by position, the render graphs of the window's
    views; no view is listed twice; command graphs are not shared; view data
    is kept for attached views only; and every identity in use was handed
    out before. *)
Record Inv (app : Application) : Prop := {
  inv_dom : forall w vs,
    displayConfiguration app !! w = Some vs ->
    is_Some (_commandGraphByWindow app !! w);
  inv_link : forall w cg,
    _commandGraphByWindow app !! w = Some cg ->
    Forall2 (linked app w) (window_views app w) (commandGraph_children app cg);
  inv_nodup : forall w, NoDup (window_views app w);
  inv_inj : forall w w' cg,
    _commandGraphByWindow app !! w = Some cg ->
    _commandGraphByWindow app !! w' = Some cg -> w = w';
  inv_fresh_cg : forall w cg,
    _commandGraphByWindow app !! w = Some cg ->
    (w < next_id app)%positive /\ (cg < next_id app)%positive;
  inv_fresh_rg : forall rg o,
    renderGraphs app !! rg = Some o -> (rg < next_id app)%positive;
  inv_fresh_view : forall v,
    is_Some (views app !! v) -> (v < next_id app)%positive;
  inv_fresh_attached : forall w v,
    v ∈ window_views app w -> (v < next_id app)%positive;
  inv_vd : forall v,
    is_Some (_viewData app !! v) -> exists w, v ∈ window_views app w
}.

(** The five tables are the same in both states. *)
Definition same_tables (a b : Application) : Prop :=
  _commandGraphByWindow b = _commandGraphByWindow a /\
  _viewData b = _viewData a /\
  displayConfiguration b = displayConfiguration a /\
  commandGraphChildren b = commandGraphChildren a /\
  renderGraphs b = renderGraphs a.

(** Identities only grow, and a view that exists in [b] existed in [a] or
    was made in between. *)
Definition alloc (a b : Application) : Prop :=
  next_le a b /\
  forall u, is_Some (views b !! u) ->
            is_Some (views a !! u) \/
            ((next_id a <= u)%positive /\ (u < next_id b)%positive).

(** A step that leaves the tables alone. *)
Definition kept (a b : Application) : Prop := same_tables a b /\ alloc a b.

(** A step that leaves the tables and the queue alone. *)
Definition calm (a b : Application) : Prop :=
  kept a b /\ updateOperations b = updateOperations a.

(** The tables after view [v] was attached to window [w] through render
    graph [rg] under command graph [cg]. *)
Definition attach_tables (w : Window) (cg : CommandGraph) (v : View)
    (rg : RenderGraph) (a b : Application) : Prop :=
  _commandGraphByWindow b = _commandGraphByWindow a /\
  _viewData b = <[v := {| parentRenderGraph := Some rg |}]> (_viewData a) /\
  displayConfiguration b
  = <[w := window_views a w ++ [v]]> (displayConfiguration a) /\
  commandGraphChildren b
  = <[cg := commandGraph_children a cg ++ [rg]]> (commandGraphChildren a) /\
  renderGraphs b
  = <[rg := {| rg_window := w; rg_children := [v] |}]> (renderGraphs a).

(** The tables after view [v] was detached from window [w]. *)
Definition detach_tables (w : Window) (cg : CommandGraph) (v : View)
    (rg : option RenderGraph) (a b : Application) : Prop :=
  _commandGraphByWindow b = _commandGraphByWindow a /\
  _viewData b = delete v (_viewData a) /\
  displayConfiguration b
  = <[w := filter (fun u => u <> v) (window_views a w)]>
      (displayConfiguration a) /\
  commandGraphChildren b
  = alter (filter (fun c => Some c <> rg)) cg (commandGraphChildren a) /\
  renderGraphs b = renderGraphs a.

(** The tables after window [w] was registered with command graph [cg]. *)
Definition window_tables (w : Window) (cg : CommandGraph)
    (a b : Application) : Prop :=
  _commandGraphByWindow b = <[w := cg]> (_commandGraphByWindow a) /\
  _viewData b = _viewData a /\
  displayConfiguration b = displayConfiguration a /\
  commandGraphChildren b = <[cg := []]> (commandGraphChildren a) /\
  renderGraphs b = renderGraphs a.

(** The views that queued [addView] calls are going to attach. *)
Definition pending_views (ops : list Operation) : list View :=
  flat_map (fun op => match op with
                      | OpAddView _ v _ _ => [v]
                      | _ => []
                      end) ops.

(** What is waiting in the queue can run: only windows and views to add and
    views to remove, no view waiting twice, and every waiting view exists
    and is not attached. *)
Definition pending_ok (app : Application) (ops : list Operation) : Prop :=
  Forall (fun op => match op with
                    | OpRefreshView _ | OpAddPreRenderGraph _ _ => False
                    | _ => True
                    end) ops /\
  NoDup (pending_views ops) /\
  forall v, v ∈ pending_views ops ->
            (v ∉ attached_views app) /\ (v < next_id app)%positive.

(** The state a client can reach: the invariant holds and the queue can
    run. *)
Definition Good (app : Application) : Prop :=
  Inv app /\ pending_ok app (updateOperations app).

(** The calls of a client that adds windows, makes views, adds and removes
    them and runs frames, and that hands [addView] only views that are
    neither attached nor waiting in the queue to be attached. *)
Definition call_ok (app : Application) (c : Call) : bool :=
  match c with
  | CreateView _ _ | AddWindow _ | RemoveView _ | Frame _ => true
  | AddView _ (Some v) _ =>
      bool_decide (v ∉ attached_views app)
      && bool_decide (v ∉ pending_views (updateOperations app))
  | AddView _ None _ => true
  | Realize => true
  | RefreshView _ | AddPreRenderGraph _ _ => false
  end.

Fixpoint run_ok (ticks_per_us : Z) (app : Application) (cs : list Call)
  : bool :=
  match cs with
  | [] => true
  | c :: cs => call_ok app c && run_ok ticks_per_us (step ticks_per_us c app) cs
  end.

(** The map manipulators among the installed handlers, in list order. *)
Definition manipulator_entries (app : Application) : list (option Handler) :=
  filter (fun h => is_MapManipulator h = true) (eventHandlers app).

(** ** Sample inputs *)

(** A concrete frame: a nanosecond clock, readings 1999 ticks apart, the
    viewer advancing and staying active. *)
Definition sample_input : FrameInput :=
  {| advance := true; active := true;
     t_start := 0; t_update := 1999; t_record := 3998;
     t_present := 5997; t_end := 7996 |}.

(** A frame during which the viewer stops being active. *)
Definition closing_input : FrameInput :=
  {| advance := true; active := false;
     t_start := 0; t_update := 10; t_record := 20;
     t_present := 30; t_end := 40 |}.


(** ** Frame conditions

    The fields of the application object, and what it means for a state
    transformer to leave all fields outside a given list alone. *)

Inductive Field :=
| FDebugLayer | FApiLayer | FVsync | FUpdateFunction | FRealized | FDirty | FCommandGraphByWindow | FViewData
| FDisplayConfiguration | FViewerWindows | FEventHandlers | FUpdateOperations
| FMultiThreaded | FStats | FWindowObjs | FCommandGraphChildren
| FRenderGraphs | FViews | FFutures | FTrace | FNextId.

Global Instance Field_eq_dec : EqDecision Field.
Proof. solve_decision. Defined.

Definition same_field (f : Field) (a b : Application) : Prop :=
  match f with
  | FDebugLayer => _debuglayer b = _debuglayer a
  | FApiLayer => _apilayer b = _apilayer a
  | FVsync => _vsync b = _vsync a
  | FUpdateFunction => updateFunction b = updateFunction a
  | FRealized => _viewerRealized b = _viewerRealized a
  | FDirty => _viewerDirty b = _viewerDirty a
  | FCommandGraphByWindow => _commandGraphByWindow b = _commandGraphByWindow a
  | FViewData => _viewData b = _viewData a
  | FDisplayConfiguration => displayConfiguration b = displayConfiguration a
  | FViewerWindows => viewer_windows b = viewer_windows a
  | FEventHandlers => eventHandlers b = eventHandlers a
  | FUpdateOperations => updateOperations b = updateOperations a
  | FMultiThreaded => supportMultiThreadedRecord b = supportMultiThreadedRecord a
  | FStats => stats b = stats a
  | FWindowObjs => windowObjs b = windowObjs a
  | FCommandGraphChildren => commandGraphChildren b = commandGraphChildren a
  | FRenderGraphs => renderGraphs b = renderGraphs a
  | FViews => views b = views a
  | FFutures => futures b = futures a
  | FTrace => trace b = trace a
  | FNextId => next_id b = next_id a
  end.

Definition touched (changed : list Field) (f : Field) : bool :=
  bool_decide (f ∈ changed).

(** [b] differs from [a] at most in the fields listed in [changed]. *)
Definition preserves (changed : list Field) (a b : Application) : Prop :=
  forall f, touched changed f = false -> same_field f a b.

(** Every field of [l1] is listed in [l2]. *)
Definition fields_within (l1 l2 : list Field) : bool :=
  forallb (touched l2) l1.

(** [P] holds of the state [a]; the wrapper keeps the [let]s of an unfolded
    state transformer in place while a proof walks through them. *)
Definition holds (P : Application -> Prop) (a : Application) : Prop := P a.

(** A frame for which the viewer has no next frame. *)
Definition stalled_input : FrameInput :=
  {| advance := false; active := true;
     t_start := 0; t_update := 0; t_record := 0;
     t_present := 0; t_end := 0 |}.

(** A realized application on which a client has called [addWindow]: the
    window is waiting in the queue. *)
Definition window_requested : Application :=
  steps 1000 [Frame sample_input; AddWindow (Some main_window_traits)]
    (Application_new false false true).

(** A realized application to which a client added a second view and then
    removed it again, each change applied by the next frame. *)
Definition cycled_application : Application :=
  steps 1000
    [Frame sample_input; CreateView (Some 100%positive) [];
     AddView (Some 9%positive) (Some 18%positive) None; Frame sample_input;
     RemoveView (Some 18%positive); Frame sample_input]
    (Application_new false false true).

(** A realized application and a view of a client, not yet added. *)
Definition realized_with_view : Application :=
  steps 1000 [Frame sample_input; CreateView (Some 100%positive) []]
    (Application_new false false true).

(** A new application and a view of a client, not yet added. *)
Definition unrealized_with_view : Application :=
  (create_View (Some 100%positive) [] (Application_new false false true)).2.

(** An application with one window and a view of a client that has no
    camera. *)
Definition with_cameraless_view : Application :=
  steps 1000 [AddWindow (Some main_window_traits); CreateView None []]
    (Application_new false false true).

(** A client that opens a window, adds a second view before the first frame
    and a third one after it, and removes the two older views again. *)
Definition sample_run : list Call :=
  [AddWindow (Some main_window_traits); CreateView (Some 100%positive) [];
   AddView (Some 9%positive) (Some 17%positive) None; Frame sample_input;
   CreateView (Some 101%positive) [];
   AddView (Some 9%positive) (Some 21%positive) None;
   RemoveView (Some 17%positive); Frame sample_input;
   RemoveView (Some 13%positive); Frame sample_input].

(** A client that adds the first view of its window once more. *)
Definition added_twice : Application :=
  steps 1000
    [AddWindow (Some main_window_traits);
     AddView (Some 9%positive) (Some 13%positive) None]
    (Application_new false false true).

(** ** Notions used by the further properties *)

(** From [a] to [b] the realization flag is the same and, while the viewer
    is not realized, so are the dirty flag and the queue. *)
Definition unrealized_kept (a b : Application) : Prop :=
  _viewerRealized b = _viewerRealized a /\
  (_viewerRealized a = false ->
   _viewerDirty b = _viewerDirty a /\
   updateOperations b = updateOperations a).

(** The viewer against the registry: the viewer holds every window once;
    its windows are the windows with a command graph, which are the windows
    of the display configuration; they were all created before; and they
    share one device. *)
Record WindowsInv (app : Application) : Prop := {
  win_nodup : NoDup (viewer_windows app);
  win_registered : forall w,
    w ∈ viewer_windows app <-> is_Some (_commandGraphByWindow app !! w);
  win_configured : forall w,
    is_Some (displayConfiguration app !! w)
    <-> is_Some (_commandGraphByWindow app !! w);
  win_fresh : forall w,
    w ∈ viewer_windows app -> (w < next_id app)%positive;
  win_device : forall w w',
    w ∈ viewer_windows app -> w' ∈ viewer_windows app ->
    exists d, windowObjs app !! w ≫= device = Some d /\
              windowObjs app !! w' ≫= device = Some d;
  win_realized :
    _viewerRealized app = true -> viewer_windows app <> []
}.

(** A step that neither registers nor creates a window, nor changes the
    viewer's windows, and that adds to the display configuration only
    windows that have a command graph. *)
Definition windows_kept (a b : Application) : Prop :=
  _commandGraphByWindow b = _commandGraphByWindow a /\
  viewer_windows b = viewer_windows a /\
  windowObjs b = windowObjs a /\
  _viewerRealized b = _viewerRealized a /\
  next_le a b /\
  (forall w, is_Some (displayConfiguration a !! w) ->
             is_Some (displayConfiguration b !! w)) /\
  (forall w, is_Some (displayConfiguration b !! w) ->
             is_Some (displayConfiguration a !! w) \/
             is_Some (_commandGraphByWindow a !! w)).

(** The events that a structural operation records when it runs. *)
Definition from_operation (e : Event) : bool :=
  match e with
  | EvSoftAssert | EvDeviceWaitIdle | EvCreateWindow _
  | EvActivateRenderGraph _ _ _ | EvOnCreate _ _
  | EvUpdateGraphicsPipelines _ | EvInstallDebugMessenger _ => true
  | _ => false
  end.

(** From [a] to [b] only events of structural operations were recorded. *)
Definition operation_trace (a b : Application) : Prop :=
  exists evs, trace b = evs ++ trace a /\ forallb from_operation evs = true.

(** What the user's update callback records, if there is one. *)
Definition user_update_events (app : Application) : list Event :=
  match updateFunction app with
  | Some cb => [EvUserUpdate cb]
  | None => []
  end.

Definition is_CloseHandler (h : option Handler) : bool :=
  match h with
  | Some (CloseHandler _) => true
  | _ => false
  end.

(** The close handlers among the installed handlers, in list order. *)
Definition close_handlers (app : Application) : list (option Handler) :=
  filter (fun h => is_CloseHandler h = true) (eventHandlers app).

(** From [a] to [b] the close handlers stayed the same. *)
Definition close_kept (a b : Application) : Prop :=
  close_handlers b = close_handlers a.

(** One close handler for the realization and one for each rebuild. *)
Definition close_handlers_counted (a : Application) : Prop :=
  length (close_handlers a)
  = ((if _viewerRealized a then 1 else 0)
     + count EvRecreateViewer (trace a))%nat.

(** What [call_on_create] records. *)
Definition on_create_events (on_create : option Callback)
    (commandgraph : option CommandGraph) : list Event :=
  match on_create with
  | Some cb => [EvOnCreate cb commandgraph]
  | None => []
  end.
(** * Properties *)

(** ** Frame conditions *)

Lemma same_field_refl (f : Field) (a : Application) : same_field f a a.
Proof. destruct f; reflexivity. Qed.

Lemma same_field_trans (f : Field) (a b c : Application) :
  same_field f a b -> same_field f b c -> same_field f a c.
Proof. destruct f; simpl; congruence. Qed.

Lemma preserves_refl (l : list Field) (a : Application) : preserves l a a.
Proof. intros f _. apply same_field_refl. Qed.

Lemma fields_within_touched (l1 l2 : list Field) (f : Field) :
  fields_within l1 l2 = true -> touched l2 f = false -> touched l1 f = false.
Proof.
  unfold fields_within, touched. intros Hin Hf.
  apply bool_decide_eq_false. intros Hel.
  rewrite forallb_forall in Hin.
  apply list_elem_of_In, Hin in Hel. unfold touched in Hel. congruence.
Qed.

(** One more step of a computation that stays within the fields of [l]. *)
Lemma preserves_step (l1 l : list Field) (a b c : Application) :
  preserves l1 b c -> fields_within l1 l = true -> preserves l a b ->
  preserves l a c.
Proof.
  intros Hbc Hin Hab f Hf.
  eapply same_field_trans; [apply Hab, Hf|].
  apply Hbc. eapply fields_within_touched; eauto.
Qed.

Create HintDb pres discriminated.

Ltac setter_preserves :=
  let f := fresh "f" in
  let Hf := fresh "Hf" in
  intros f Hf; destruct f; first [reflexivity | discriminate Hf].

Lemma set_viewerRealized_preserves x a : preserves [FRealized] a (set_viewerRealized x a).
Proof. setter_preserves. Qed.
#[export] Hint Extern 1 (preserves _ _ (set_viewerRealized _ _)) =>
  simple eapply set_viewerRealized_preserves : pres.

Lemma set_viewerDirty_preserves x a : preserves [FDirty] a (set_viewerDirty x a).
Proof. setter_preserves. Qed.
#[export] Hint Extern 1 (preserves _ _ (set_viewerDirty _ _)) =>
  simple eapply set_viewerDirty_preserves : pres.

Lemma set_commandGraphByWindow_preserves x a : preserves [FCommandGraphByWindow] a (set_commandGraphByWindow x a).
Proof. setter_preserves. Qed.
#[export] Hint Extern 1 (preserves _ _ (set_commandGraphByWindow _ _)) =>
  simple eapply set_commandGraphByWindow_preserves : pres.

Lemma set_viewData_preserves x a : preserves [FViewData] a (set_viewData x a).
Proof. setter_preserves. Qed.
#[export] Hint Extern 1 (preserves _ _ (set_viewData _ _)) =>
  simple eapply set_viewData_preserves : pres.

Lemma set_displayConfiguration_preserves x a : preserves [FDisplayConfiguration] a (set_displayConfiguration x a).
Proof. setter_preserves. Qed.
#[export] Hint Extern 1 (preserves _ _ (set_displayConfiguration _ _)) =>
  simple eapply set_displayConfiguration_preserves : pres.

Lemma set_viewer_windows_preserves x a : preserves [FViewerWindows] a (set_viewer_windows x a).
Proof. setter_preserves. Qed.
#[export] Hint Extern 1 (preserves _ _ (set_viewer_windows _ _)) =>
  simple eapply set_viewer_windows_preserves : pres.

Lemma set_eventHandlers_preserves x a : preserves [FEventHandlers] a (set_eventHandlers x a).
Proof. setter_preserves. Qed.
#[export] Hint Extern 1 (preserves _ _ (set_eventHandlers _ _)) =>
  simple eapply set_eventHandlers_preserves : pres.

Lemma set_updateOperations_preserves x a : preserves [FUpdateOperations] a (set_updateOperations x a).
Proof. setter_preserves. Qed.
#[export] Hint Extern 1 (preserves _ _ (set_updateOperations _ _)) =>
  simple eapply set_updateOperations_preserves : pres.

Lemma set_supportMultiThreadedRecord_preserves x a : preserves [FMultiThreaded] a (set_supportMultiThreadedRecord x a).
Proof. setter_preserves. Qed.
#[export] Hint Extern 1 (preserves _ _ (set_supportMultiThreadedRecord _ _)) =>
  simple eapply set_supportMultiThreadedRecord_preserves : pres.

Lemma set_stats_preserves x a : preserves [FStats] a (set_stats x a).
Proof. setter_preserves. Qed.
#[export] Hint Extern 1 (preserves _ _ (set_stats _ _)) =>
  simple eapply set_stats_preserves : pres.

Lemma set_windowObjs_preserves x a : preserves [FWindowObjs] a (set_windowObjs x a).
Proof. setter_preserves. Qed.
#[export] Hint Extern 1 (preserves _ _ (set_windowObjs _ _)) =>
  simple eapply set_windowObjs_preserves : pres.

Lemma set_commandGraphChildren_preserves x a : preserves [FCommandGraphChildren] a (set_commandGraphChildren x a).
Proof. setter_preserves. Qed.
#[export] Hint Extern 1 (preserves _ _ (set_commandGraphChildren _ _)) =>
  simple eapply set_commandGraphChildren_preserves : pres.

Lemma set_renderGraphs_preserves x a : preserves [FRenderGraphs] a (set_renderGraphs x a).
Proof. setter_preserves. Qed.
#[export] Hint Extern 1 (preserves _ _ (set_renderGraphs _ _)) =>
  simple eapply set_renderGraphs_preserves : pres.

Lemma set_views_preserves x a : preserves [FViews] a (set_views x a).
Proof. setter_preserves. Qed.
#[export] Hint Extern 1 (preserves _ _ (set_views _ _)) =>
  simple eapply set_views_preserves : pres.

Lemma set_futures_preserves x a : preserves [FFutures] a (set_futures x a).
Proof. setter_preserves. Qed.
#[export] Hint Extern 1 (preserves _ _ (set_futures _ _)) =>
  simple eapply set_futures_preserves : pres.

Lemma set_trace_preserves x a : preserves [FTrace] a (set_trace x a).
Proof. setter_preserves. Qed.
#[export] Hint Extern 1 (preserves _ _ (set_trace _ _)) =>
  simple eapply set_trace_preserves : pres.

Lemma set_next_id_preserves x a : preserves [FNextId] a (set_next_id x a).
Proof. setter_preserves. Qed.
#[export] Hint Extern 1 (preserves _ _ (set_next_id _ _)) =>
  simple eapply set_next_id_preserves : pres.

(** Proves [preserves l a t] by walking through [t]: each [let] introduces
    a state known only by its frame condition, each [match] is split, each
    call contributes the frame condition registered for it. *)
Ltac pres :=
  lazymatch goal with
  | H : preserves ?l ?a ?x |- preserves ?l ?a ?x => exact H
  | |- preserves _ ?a ?a => apply preserves_refl
  | |- preserves ?l ?a (let x := ?e in @?B x) =>
      let T := type of e in
      lazymatch T with
      | Application =>
          let Hc := fresh "Hc" in
          let He := fresh "He" in
          assert (He : preserves l a e) by pres;
          cut (forall x, preserves l a x -> preserves l a (B x));
          [ intros Hc; exact (Hc e He)
          | clear He; intros ? ?; cbv beta; pres ]
      | _ =>
          let Hc := fresh "Hc" in
          cut (forall x : T, preserves l a (B x));
          [ intros Hc; exact (Hc e) | intros ?; cbv beta; pres ]
      end
  | |- preserves _ _ (match ?d with _ => _ end) => destruct d; pres
  | |- preserves ?l ?a (snd (let x := ?e in @?B x)) =>
      change (preserves l a (let x := e in snd (B x))); cbv beta; pres
  | |- preserves _ _ (snd (match ?d with _ => _ end)) => destruct d; pres
  | |- preserves _ _ (snd (_, _)) => cbn [snd]; pres
  | |- preserves _ _ _ =>
      eapply preserves_step;
      [ solve [eauto 2 with pres] | reflexivity | pres ]
  end.

Lemma emit_preserves e a : preserves [FTrace] a (emit e a).
Proof. cbv beta delta [emit]. pres. Qed.
#[export] Hint Extern 1 (preserves _ _ (emit _ _)) =>
  simple eapply emit_preserves : pres.

Lemma fresh_preserves a : preserves [FNextId] a (fresh a).2.
Proof. cbv beta delta [fresh]. cbn [snd]. pres. Qed.
#[export] Hint Extern 1 (preserves _ _ (snd (fresh _))) =>
  simple eapply fresh_preserves : pres.

Lemma soft_assert_failed_preserves a :
  preserves [FTrace] a (soft_assert_failed a).
Proof. cbv beta delta [soft_assert_failed]. pres. Qed.
#[export] Hint Extern 1 (preserves _ _ (soft_assert_failed _)) =>
  simple eapply soft_assert_failed_preserves : pres.

Lemma deviceWaitIdle_preserves a : preserves [FTrace] a (deviceWaitIdle a).
Proof. cbv beta delta [deviceWaitIdle]. pres. Qed.
#[export] Hint Extern 1 (preserves _ _ (deviceWaitIdle _)) =>
  simple eapply deviceWaitIdle_preserves : pres.

Lemma new_future_preserves a :
  preserves [FNextId; FFutures] a (new_future a).2.
Proof. cbv beta delta [new_future]. cbn [snd]. pres. Qed.
#[export] Hint Extern 1 (preserves _ _ (snd (new_future _))) =>
  simple eapply new_future_preserves : pres.

Lemma resolve_preserves f v a : preserves [FFutures] a (resolve f v a).
Proof. cbv beta delta [resolve]. pres. Qed.
#[export] Hint Extern 1 (preserves _ _ (resolve _ _ _)) =>
  simple eapply resolve_preserves : pres.

Lemma runDuringUpdate_preserves op a :
  preserves [FUpdateOperations] a (runDuringUpdate op a).
Proof. cbv beta delta [runDuringUpdate]. pres. Qed.
#[export] Hint Extern 1 (preserves _ _ (runDuringUpdate _ _)) =>
  simple eapply runDuringUpdate_preserves : pres.

Lemma create_View_preserves cam kids a :
  preserves [FNextId; FViews] a (create_View cam kids a).2.
Proof. cbv beta delta [create_View]. cbn [snd]. pres. Qed.
#[export] Hint Extern 1 (preserves _ _ (snd (create_View _ _ _))) =>
  simple eapply create_View_preserves : pres.

Lemma create_RenderGraph_preserves w v a :
  preserves [FNextId; FRenderGraphs] a (create_RenderGraph w v a).2.
Proof. cbv beta delta [create_RenderGraph]. cbn [snd]. pres. Qed.
#[export] Hint Extern 1 (preserves _ _ (snd (create_RenderGraph _ _ _))) =>
  simple eapply create_RenderGraph_preserves : pres.

Lemma attach_scene_preserves v a : preserves [FViews] a (attach_scene v a).
Proof. cbv beta delta [attach_scene]. pres. Qed.
#[export] Hint Extern 1 (preserves _ _ (attach_scene _ _)) =>
  simple eapply attach_scene_preserves : pres.

Lemma commandGraph_addChild_preserves cg rg a :
  preserves [FCommandGraphChildren] a (commandGraph_addChild cg rg a).
Proof. cbv beta delta [commandGraph_addChild]. pres. Qed.
#[export] Hint Extern 1 (preserves _ _ (commandGraph_addChild _ _ _)) =>
  simple eapply commandGraph_addChild_preserves : pres.

Lemma remember_view_preserves w v rg a :
  preserves [FViewData; FDisplayConfiguration] a (remember_view w v rg a).
Proof. cbv beta delta [remember_view]. pres. Qed.
#[export] Hint Extern 1 (preserves _ _ (remember_view _ _ _ _)) =>
  simple eapply remember_view_preserves : pres.

Lemma activateRenderGraph_preserves rg w a :
  preserves [FTrace] a (activateRenderGraph rg w a).
Proof. cbv beta delta [activateRenderGraph]. pres. Qed.
#[export] Hint Extern 1 (preserves _ _ (activateRenderGraph _ _ _)) =>
  simple eapply activateRenderGraph_preserves : pres.

Lemma addManipulator_preserves w v a :
  preserves [FNextId; FViews; FEventHandlers] a (addManipulator w v a).
Proof. cbv beta delta [addManipulator]. pres. Qed.
#[export] Hint Extern 1 (preserves _ _ (addManipulator _ _ _)) =>
  simple eapply addManipulator_preserves : pres.

Lemma call_on_create_preserves cb cg a :
  preserves [FTrace] a (call_on_create cb cg a).
Proof. cbv beta delta [call_on_create]. pres. Qed.
#[export] Hint Extern 1 (preserves _ _ (call_on_create _ _ _)) =>
  simple eapply call_on_create_preserves : pres.

Lemma addViewAfterViewerIsRealized_preserves w v cb f a :
  preserves [FTrace; FViews; FNextId; FRenderGraphs; FCommandGraphChildren;
             FViewData; FDisplayConfiguration; FEventHandlers; FFutures]
    a (addViewAfterViewerIsRealized w v cb f a).
Proof. cbv beta delta [addViewAfterViewerIsRealized]. pres. Qed.
#[export] Hint Extern 1 (preserves _ _ (addViewAfterViewerIsRealized _ _ _ _ _)) =>
  simple eapply addViewAfterViewerIsRealized_preserves : pres.

Lemma add_view_now_preserves w v cb a :
  preserves [FTrace; FViews; FNextId; FRenderGraphs; FCommandGraphChildren;
             FViewData; FDisplayConfiguration; FFutures]
    a (add_view_now w v cb a).2.
Proof. cbv beta delta [add_view_now]. pres. Qed.
#[export] Hint Extern 1 (preserves _ _ (snd (add_view_now _ _ _ _))) =>
  simple eapply add_view_now_preserves : pres.

Lemma addView_preserves w v cb a :
  preserves [FTrace; FViews; FNextId; FRenderGraphs; FCommandGraphChildren;
             FViewData; FDisplayConfiguration; FFutures; FUpdateOperations]
    a (addView w v cb a).2.
Proof. cbv beta delta [addView]. pres. Qed.
#[export] Hint Extern 1 (preserves _ _ (snd (addView _ _ _ _))) =>
  simple eapply addView_preserves : pres.

Lemma create_Window_preserves traits a :
  preserves [FNextId; FWindowObjs; FTrace] a (create_Window traits a).2.
Proof. cbv beta delta [create_Window]. pres. Qed.
#[export] Hint Extern 1 (preserves _ _ (snd (create_Window _ _))) =>
  simple eapply create_Window_preserves : pres.

(** The first view of a window is never queued: [addView] is only called
    while the viewer is not realized. *)
Lemma add_first_view_preserves w v a :
  preserves [FTrace; FViews; FNextId; FRenderGraphs; FCommandGraphChildren;
             FViewData; FDisplayConfiguration; FEventHandlers; FFutures]
    a (add_first_view w v a).
Proof.
  cbv beta delta [add_first_view].
  destruct (_viewerRealized a) eqn:E; [pres|].
  unfold addView. destruct (view_camera a v); [rewrite E|]; pres.
Qed.
#[export] Hint Extern 1 (preserves _ _ (add_first_view _ _ _)) =>
  simple eapply add_first_view_preserves : pres.

Lemma add_window_preserves traits f a :
  preserves [FTrace; FViews; FNextId; FRenderGraphs; FCommandGraphChildren;
             FViewData; FDisplayConfiguration; FEventHandlers; FFutures;
             FCommandGraphByWindow; FWindowObjs;
             FMultiThreaded; FViewerWindows; FDirty]
    a (add_window traits f a).
Proof. cbv beta delta [add_window]. pres. Qed.
#[export] Hint Extern 1 (preserves _ _ (add_window _ _ _)) =>
  simple eapply add_window_preserves : pres.

Lemma addWindow_preserves traits a :
  preserves [FTrace; FViews; FNextId; FRenderGraphs; FCommandGraphChildren;
             FViewData; FDisplayConfiguration; FEventHandlers; FFutures;
             FUpdateOperations; FCommandGraphByWindow; FWindowObjs;
             FMultiThreaded; FViewerWindows; FDirty]
    a (addWindow traits a).2.
Proof. cbv beta delta [addWindow]. pres. Qed.
#[export] Hint Extern 1 (preserves _ _ (snd (addWindow _ _))) =>
  simple eapply addWindow_preserves : pres.

Lemma remove_preserves v a :
  preserves [FTrace; FCommandGraphChildren; FViewData; FDisplayConfiguration]
    a (remove v a).
Proof. cbv beta delta [remove]. pres. Qed.
#[export] Hint Extern 1 (preserves _ _ (remove _ _)) =>
  simple eapply remove_preserves : pres.

Lemma removeView_preserves v a :
  preserves [FTrace; FCommandGraphChildren; FViewData; FDisplayConfiguration;
             FUpdateOperations]
    a (removeView v a).
Proof. cbv beta delta [removeView]. pres. Qed.
#[export] Hint Extern 1 (preserves _ _ (removeView _ _)) =>
  simple eapply removeView_preserves : pres.

Lemma refresh_preserves v a : preserves [FTrace; FViewData] a (refresh v a).
Proof. cbv beta delta [refresh]. pres. Qed.
#[export] Hint Extern 1 (preserves _ _ (refresh _ _)) =>
  simple eapply refresh_preserves : pres.

Lemma refreshView_preserves v a :
  preserves [FTrace; FViewData; FUpdateOperations] a (refreshView v a).
Proof. cbv beta delta [refreshView]. pres. Qed.
#[export] Hint Extern 1 (preserves _ _ (refreshView _ _)) =>
  simple eapply refreshView_preserves : pres.

Lemma add_pre_render_graph_preserves w rg a :
  preserves [FTrace; FCommandGraphChildren] a (add_pre_render_graph w rg a).
Proof. cbv beta delta [add_pre_render_graph]. pres. Qed.
#[export] Hint Extern 1 (preserves _ _ (add_pre_render_graph _ _ _)) =>
  simple eapply add_pre_render_graph_preserves : pres.

Lemma addPreRenderGraph_preserves w rg a :
  preserves [FTrace; FCommandGraphChildren; FUpdateOperations]
    a (addPreRenderGraph w rg a).
Proof. cbv beta delta [addPreRenderGraph]. pres. Qed.
#[export] Hint Extern 1 (preserves _ _ (addPreRenderGraph _ _ _)) =>
  simple eapply addPreRenderGraph_preserves : pres.

Lemma setupViewer_preserves a :
  preserves [FTrace; FNextId; FEventHandlers] a (setupViewer a).
Proof. cbv beta delta [setupViewer]. pres. Qed.
#[export] Hint Extern 1 (preserves _ _ (setupViewer _)) =>
  simple eapply setupViewer_preserves : pres.

Lemma recreateViewer_preserves a :
  preserves [FTrace; FNextId; FEventHandlers; FViewerWindows]
    a (recreateViewer a).
Proof. cbv beta delta [recreateViewer]. pres. Qed.
#[export] Hint Extern 1 (preserves _ _ (recreateViewer _)) =>
  simple eapply recreateViewer_preserves : pres.

(** A queued operation touches neither the queue, nor the realization flag,
    nor the statistics. *)
Lemma run_operation_preserves op a :
  preserves [FTrace; FViews; FNextId; FRenderGraphs; FCommandGraphChildren;
             FViewData; FDisplayConfiguration; FEventHandlers; FFutures;
             FCommandGraphByWindow; FWindowObjs; FMultiThreaded;
             FViewerWindows; FDirty]
    a (run_operation op a).
Proof. destruct op; cbn [run_operation]; pres. Qed.
#[export] Hint Extern 1 (preserves _ _ (run_operation _ _)) =>
  simple eapply run_operation_preserves : pres.

(** Before realization [addWindow] runs its lambda at once and queues
    nothing. *)
Lemma addWindow_unrealized_preserves traits a :
  _viewerRealized a = false ->
  preserves [FTrace; FViews; FNextId; FRenderGraphs; FCommandGraphChildren;
             FViewData; FDisplayConfiguration; FEventHandlers; FFutures;
             FCommandGraphByWindow; FWindowObjs;
             FMultiThreaded; FViewerWindows; FDirty]
    a (addWindow traits a).2.
Proof.
  intros E. unfold addWindow. destruct traits; [|pres]. cbv zeta.
  change (_viewerRealized (new_future a).2) with (_viewerRealized a).
  rewrite E. cbn [snd]. pres.
Qed.

Lemma realize_preserves a :
  preserves [FTrace; FViews; FNextId; FRenderGraphs; FCommandGraphChildren;
             FViewData; FDisplayConfiguration; FEventHandlers; FFutures;
             FCommandGraphByWindow; FWindowObjs;
             FMultiThreaded; FViewerWindows; FDirty; FRealized]
    a (realize a).
Proof.
  cbv beta delta [realize].
  destruct (_viewerRealized a) eqn:E; [pres|].
  destruct (viewer_windows a); [|pres].
  pose proof (addWindow_unrealized_preserves (Some main_window_traits) a E)
    as H.
  revert H. generalize (addWindow (Some main_window_traits) a).2.
  intros b H.
  lazymatch goal with
  | |- preserves ?l _ _ =>
      assert (H' : preserves l a b)
        by (eapply preserves_step; [exact H|reflexivity|apply preserves_refl])
  end.
  pres.
Qed.
#[export] Hint Extern 1 (preserves _ _ (realize _)) =>
  simple eapply realize_preserves : pres.

Lemma run_operations_preserves l ops a b :
  fields_within
    [FTrace; FViews; FNextId; FRenderGraphs; FCommandGraphChildren;
     FViewData; FDisplayConfiguration; FEventHandlers; FFutures;
     FCommandGraphByWindow; FWindowObjs; FMultiThreaded;
     FViewerWindows; FDirty] l = true ->
  preserves l a b ->
  preserves l a (foldl (fun a op => run_operation op a) b ops).
Proof.
  intros Hl. revert b. induction ops as [|op ops IH]; intros b Hb; simpl.
  - exact Hb.
  - apply IH. eapply preserves_step; [apply run_operation_preserves|exact Hl|exact Hb].
Qed.

Lemma viewer_update_preserves a :
  preserves [FTrace; FViews; FNextId; FRenderGraphs; FCommandGraphChildren;
             FViewData; FDisplayConfiguration; FEventHandlers; FFutures;
             FCommandGraphByWindow; FWindowObjs; FMultiThreaded;
             FViewerWindows; FDirty; FUpdateOperations]
    a (viewer_update a).
Proof.
  unfold viewer_update. apply run_operations_preserves; [reflexivity|pres].
Qed.
#[export] Hint Extern 1 (preserves _ _ (viewer_update _)) =>
  simple eapply viewer_update_preserves : pres.

Lemma frame_update_preserves a :
  preserves [FTrace; FViews; FNextId; FRenderGraphs; FCommandGraphChildren;
             FViewData; FDisplayConfiguration; FEventHandlers; FFutures;
             FCommandGraphByWindow; FWindowObjs; FMultiThreaded;
             FViewerWindows; FDirty; FUpdateOperations]
    a (frame_update a).
Proof. cbv beta delta [frame_update]. pres. Qed.
#[export] Hint Extern 1 (preserves _ _ (frame_update _)) =>
  simple eapply frame_update_preserves : pres.

Lemma frame_begin_preserves inp a :
  preserves [FTrace; FViews; FNextId; FRenderGraphs; FCommandGraphChildren;
             FViewData; FDisplayConfiguration; FEventHandlers; FFutures;
             FCommandGraphByWindow; FWindowObjs;
             FMultiThreaded; FViewerWindows; FDirty; FRealized]
    a (frame_begin inp a).
Proof. cbv beta delta [frame_begin]. pres. Qed.
#[export] Hint Extern 1 (preserves _ _ (frame_begin _ _)) =>
  simple eapply frame_begin_preserves : pres.

(** What [frame()] does after its first two statements. *)
Lemma frame_preserves k inp a :
  preserves [FTrace; FViews; FNextId; FRenderGraphs; FCommandGraphChildren;
             FViewData; FDisplayConfiguration; FEventHandlers; FFutures;
             FCommandGraphByWindow; FWindowObjs; FMultiThreaded;
             FViewerWindows; FDirty; FUpdateOperations; FStats]
    (frame_begin inp a) (frame k inp a).2.
Proof.
  unfold frame. cbv zeta. generalize (frame_begin inp a). intros b.
  destruct (advance inp); [|cbn [snd]; pres].
  assert (H : preserves
                [FTrace; FViews; FNextId; FRenderGraphs; FCommandGraphChildren;
                 FViewData; FDisplayConfiguration; FEventHandlers; FFutures;
                 FCommandGraphByWindow; FWindowObjs; FMultiThreaded;
                 FViewerWindows; FDirty; FUpdateOperations; FStats]
                b (frame_update b))
    by (eapply preserves_step; [apply frame_update_preserves|reflexivity|pres]).
  revert H. generalize (frame_update b). intros c H.
  destruct (_viewerDirty c); cbn [snd]; pres.
Qed.
#[export] Hint Extern 1 (preserves _ _ (snd (frame _ _ _))) =>
  simple eapply frame_preserves : pres.

(** Reading a field through the field updates. *)
Ltac fields_cbn :=
  cbn [_debuglayer _apilayer _vsync _viewerRealized _viewerDirty
       _commandGraphByWindow _viewData displayConfiguration viewer_windows
       eventHandlers updateOperations updateFunction
       supportMultiThreadedRecord stats windowObjs commandGraphChildren
       renderGraphs views futures trace next_id
       set_viewerRealized set_viewerDirty set_commandGraphByWindow
       set_viewData set_displayConfiguration set_viewer_windows
       set_eventHandlers set_updateOperations set_supportMultiThreadedRecord
       set_stats set_windowObjs set_commandGraphChildren set_renderGraphs
       set_views set_futures set_trace set_next_id].

(** Rewrites [p (op a)] to [p a] wherever the frame condition registered for
    [op] says that it leaves the field read by [p] alone. *)
Ltac skip_field p F :=
  repeat match goal with
    | |- context [p ?x] =>
        assert_fails (is_var x);
        let H := fresh "H" in
        eassert (H : preserves _ _ x) by (solve [eauto 2 with pres]);
        let H' := fresh "H" in
        pose proof (H F eq_refl) as H';
        cbn [same_field] in H'; rewrite H'; clear H H'
    end.

Ltac unchanged :=
  repeat (progress
    (skip_field _debuglayer FDebugLayer;
     skip_field _apilayer FApiLayer;
     skip_field _vsync FVsync;
     skip_field updateFunction FUpdateFunction;
     skip_field _viewerRealized FRealized;
     skip_field _viewerDirty FDirty;
     skip_field _commandGraphByWindow FCommandGraphByWindow;
     skip_field _viewData FViewData;
     skip_field displayConfiguration FDisplayConfiguration;
     skip_field viewer_windows FViewerWindows;
     skip_field eventHandlers FEventHandlers;
     skip_field updateOperations FUpdateOperations;
     skip_field supportMultiThreadedRecord FMultiThreaded;
     skip_field stats FStats;
     skip_field windowObjs FWindowObjs;
     skip_field commandGraphChildren FCommandGraphChildren;
     skip_field renderGraphs FRenderGraphs;
     skip_field views FViews;
     skip_field futures FFutures;
     skip_field trace FTrace;
     skip_field next_id FNextId)).

(** ** The realization flag *)

Lemma realize_realized a : _viewerRealized (realize a) = true.
Proof.
  unfold realize. destruct (_viewerRealized a) eqn:E; [exact E|reflexivity].
Qed.

Lemma frame_begin_realized inp a : _viewerRealized (frame_begin inp a) = true.
Proof.
  unfold frame_begin. unchanged.
  destruct (_viewerRealized a) eqn:E; [exact E|apply realize_realized].
Qed.

Lemma frame_realized k inp a : _viewerRealized (frame k inp a).2 = true.
Proof. unchanged. apply frame_begin_realized. Qed.

Lemma step_realized k c a :
  _viewerRealized (step k c a) = _viewerRealized a || realizes c.
Proof.
  destruct c; cbn [step realizes]; rewrite ?orb_false_r, ?orb_true_r;
    try (unchanged; reflexivity).
  - apply realize_realized.
  - apply frame_realized.
Qed.

Lemma steps_realized k cs a :
  _viewerRealized (steps k cs a) = _viewerRealized a || existsb realizes cs.
Proof.
  unfold steps. revert a. induction cs as [|c cs IH]; intros a; simpl.
  - rewrite orb_false_r. reflexivity.
  - rewrite IH, step_realized, orb_assoc. reflexivity.
Qed.

(** C8. The realization flag starts out false and is only ever raised: a call
    leaves it as it was unless the call runs [realize()] (directly or as the
    first statement of [frame()]), after which it is true; no queued
    operation touches it; a second [realize()] does nothing, and a [frame()]
    that follows another starts directly with [advanceToNextFrame()]. *)
Theorem realization_is_irreversible (k : Z) :
  (forall debug api vsync,
      _viewerRealized (Application_new debug api vsync) = false) /\
  (forall c a,
      _viewerRealized (step k c a) = _viewerRealized a || realizes c) /\
  (forall cs a,
      _viewerRealized (steps k cs a)
      = _viewerRealized a || existsb realizes cs) /\
  (forall op a, _viewerRealized (run_operation op a) = _viewerRealized a) /\
  (forall a, realize (realize a) = realize a) /\
  (forall inp inp' a,
      frame_begin inp' (frame k inp a).2
      = emit (EvAdvanceToNextFrame (advance inp')) (frame k inp a).2).
Proof.
  split; [reflexivity|].
  split; [apply step_realized|].
  split; [apply steps_realized|].
  split; [intros op a; unchanged; reflexivity|].
  split.
  - intros a. unfold realize at 1. rewrite realize_realized. reflexivity.
  - intros inp inp' a. unfold frame_begin at 1.
    rewrite frame_realized. reflexivity.
Qed.

(** ** Frame statistics *)

Lemma wrap64_small (z : Z) : (0 <= z < 2 ^ 63)%Z -> wrap64 z = z.
Proof.
  intros Hz. unfold wrap64.
  rewrite Z.mod_small by lia. lia.
Qed.

Lemma duration_cast_us_div (k a b : Z) :
  (0 < k)%Z -> (a <= b)%Z -> (b - a < 2 ^ 63)%Z ->
  duration_cast_us k b a = ((b - a) / k)%Z.
Proof.
  intros Hk Hab Hr. unfold duration_cast_us.
  rewrite wrap64_small by lia.
  apply Z.quot_div_nonneg; lia.
Qed.

(** Truncating four consecutive intervals loses less than one unit each, and
    at most three units together. *)
Lemma truncated_parts_sum (k a b c d : Z) :
  (0 < k)%Z -> (0 <= a)%Z -> (0 <= b)%Z -> (0 <= c)%Z -> (0 <= d)%Z ->
  (a / k + b / k + c / k + d / k <= (a + b + c + d) / k
   <= a / k + b / k + c / k + d / k + 3)%Z.
Proof.
  intros Hk Ha Hb Hc Hd.
  pose proof (Z.div_mod a k ltac:(lia)) as Ea.
  pose proof (Z.div_mod b k ltac:(lia)) as Eb.
  pose proof (Z.div_mod c k ltac:(lia)) as Ec.
  pose proof (Z.div_mod d k ltac:(lia)) as Ed.
  pose proof (Z.mod_pos_bound a k Hk) as Ra.
  pose proof (Z.mod_pos_bound b k Hk) as Rb.
  pose proof (Z.mod_pos_bound c k Hk) as Rc.
  pose proof (Z.mod_pos_bound d k Hk) as Rd.
  set (q := (a / k + b / k + c / k + d / k)%Z).
  set (r := (a mod k + b mod k + c mod k + d mod k)%Z).
  assert (Es : (a + b + c + d = q * k + r)%Z) by (subst q r; lia).
  rewrite Es, Z.div_add_l by lia.
  assert (0 <= r / k)%Z by (apply Z.div_pos; subst r; lia).
  assert (r / k < 4)%Z by (apply Z.div_lt_upper_bound; subst r; lia).
  lia.
Qed.

Lemma frame_reaching_statistics (k : Z) (inp : FrameInput) (app : Application) :
  reaches_statistics inp app = true ->
  stats (frame k inp app).2 = frame_stats k inp.
Proof.
  unfold reaches_statistics, frame. intros H.
  apply andb_prop in H as [Ha Hd]. rewrite Ha.
  apply negb_true_iff in Hd. rewrite Hd. reflexivity.
Qed.

(** C7. A [frame()] call that reaches the statistics step, timed by a
    monotonic clock of [k] ticks per microsecond, stores non-negative phase
    times whose sum is the stored total up to truncation: it never exceeds
    the total and falls short of it by at most three microseconds. *)
Theorem frame_statistics_add_up (k : Z) (inp : FrameInput) (app : Application) :
  (0 < k)%Z ->
  (t_start inp <= t_update inp)%Z ->
  (t_update inp <= t_record inp)%Z ->
  (t_record inp <= t_present inp)%Z ->
  (t_present inp <= t_end inp)%Z ->
  (t_end inp - t_start inp < 2 ^ 63)%Z ->
  reaches_statistics inp app = true ->
  let s := stats (frame k inp app).2 in
  (0 <= stats_events s /\ 0 <= stats_update s /\ 0 <= stats_record s /\
   0 <= stats_present s /\ 0 <= stats_frame s /\
   stats_events s + stats_update s + stats_record s + stats_present s
     <= stats_frame s
     <= stats_events s + stats_update s + stats_record s + stats_present s + 3)%Z.
Proof.
  intros Hk H1 H2 H3 H4 Hr Hreach s. subst s.
  rewrite frame_reaching_statistics by assumption.
  unfold frame_stats; simpl.
  rewrite !duration_cast_us_div by lia.
  repeat split; try (apply Z.div_pos; lia).
  - pose proof (truncated_parts_sum k (t_update inp - t_start inp)
                  (t_record inp - t_update inp) (t_present inp - t_record inp)
                  (t_end inp - t_present inp) Hk) as T.
    replace (t_end inp - t_start inp)%Z with
      (t_update inp - t_start inp + (t_record inp - t_update inp)
       + (t_present inp - t_record inp) + (t_end inp - t_present inp))%Z by lia.
    apply T; lia.
  - pose proof (truncated_parts_sum k (t_update inp - t_start inp)
                  (t_record inp - t_update inp) (t_present inp - t_record inp)
                  (t_end inp - t_present inp) Hk) as T.
    replace (t_end inp - t_start inp)%Z with
      (t_update inp - t_start inp + (t_record inp - t_update inp)
       + (t_present inp - t_record inp) + (t_end inp - t_present inp))%Z by lia.
    apply T; lia.
Qed.


Lemma frame_statistics_add_up_witness :
  let s := stats (frame 1000 sample_input (Application_new false false true)).2 in
  (0 <= stats_events s /\ 0 <= stats_update s /\ 0 <= stats_record s /\
   0 <= stats_present s /\ 0 <= stats_frame s /\
   stats_events s + stats_update s + stats_record s + stats_present s
     <= stats_frame s
     <= stats_events s + stats_update s + stats_record s + stats_present s + 3)%Z.
Proof.
  apply (frame_statistics_add_up 1000 sample_input
           (Application_new false false true));
    try (cbn; lia).
  vm_compute. reflexivity.
Defined.

(** The bound of three microseconds is reached. *)
Example frame_statistics_lose_three :
  let s := stats (frame 1000 sample_input (Application_new false false true)).2 in
  (stats_frame s = 7 /\
   stats_events s + stats_update s + stats_record s + stats_present s = 4)%Z.
Proof. vm_compute. split; reflexivity. Qed.

(** ** The exit code of [run()] *)

Lemma run_from_zero (k : Z) (fuel n : nat) (env : nat -> FrameInput)
    (app app' : Application) (r : Z) :
  run_from k fuel n env app = Some (r, app') -> r = 0%Z.
Proof.
  revert n app. induction fuel as [|fuel IH]; intros n app; simpl.
  - discriminate.
  - destruct (frame k (env n) app) as [again app1].
    destruct again.
    + apply IH.
    + intros [= <- _]. reflexivity.
Qed.

Lemma run_from_stops (k : Z) (env : nat -> FrameInput) (j n : nat)
    (app : Application) :
  (frame k (env (n + j)%nat) (after_frames k env n j app)).1 = false ->
  exists fuel app', (fuel <= S j)%nat /\
                    run_from k fuel n env app = Some (0%Z, app').
Proof.
  revert n app. induction j as [|j IH]; intros n app Hstop.
  - simpl in Hstop. rewrite Nat.add_0_r in Hstop.
    exists 1%nat. simpl.
    destruct (frame k (env n) app) as [again app1]; simpl in Hstop.
    subst again. eauto.
  - destruct (frame k (env n) app) as [again app1] eqn:E.
    destruct again.
    + simpl in Hstop. rewrite E in Hstop. simpl in Hstop.
      replace (n + S j)%nat with (S n + j)%nat in Hstop by lia.
      destruct (IH (S n) app1 Hstop) as (fuel & app' & Hle & Hrun).
      exists (S fuel), app'. split; [lia|].
      simpl. rewrite E. exact Hrun.
    + exists 1%nat, app1. split; [lia|]. simpl. rewrite E. reflexivity.
Qed.

(** C10. [run()] returns 0 whenever it returns: every run that some frame
    ends (whatever made that frame answer "stop") does return, with exit code
    0, and no run returns anything else. *)
Theorem run_returns_zero (k : Z) (env : nat -> FrameInput) (j : nat)
    (app : Application) :
  (frame k (env j) (after_frames k env 0 j app)).1 = false ->
  (exists fuel app', run k fuel env app = Some (0%Z, app')) /\
  (forall fuel r app', run k fuel env app = Some (r, app') -> r = 0%Z).
Proof.
  intros Hstop. split.
  - destruct (run_from_stops k env j 0 app Hstop) as (fuel & app' & _ & H).
    exists fuel, app'. exact H.
  - intros fuel r app'. apply run_from_zero.
Qed.


Lemma run_returns_zero_witness :
  (exists fuel app',
      run 1000 fuel (fun n => if Nat.ltb n 2 then sample_input else closing_input)
          (Application_new false false true) = Some (0%Z, app')) /\
  (forall fuel r app',
      run 1000 fuel (fun n => if Nat.ltb n 2 then sample_input else closing_input)
          (Application_new false false true) = Some (r, app') -> r = 0%Z).
Proof.
  apply (run_returns_zero 1000
           (fun n => if Nat.ltb n 2 then sample_input else closing_input) 2
           (Application_new false false true)).
  vm_compute. reflexivity.
Defined.

(** ** Multi-threaded recording *)

(** Forgets how the value bound by the outermost [let] was computed. *)
Ltac forget_let :=
  lazymatch goal with
  | |- holds ?P (let x := ?e in @?B x) =>
      let T := type of e in
      let Hc := fresh "Hc" in
      cut (forall x : T, holds P (B x));
      [ intros Hc; exact (Hc e) | intros ?; cbv beta ]
  end.

Lemma add_window_multithreaded traits f a :
  supportMultiThreadedRecord (add_window traits f a) = true.
Proof.
  change (holds (fun x => supportMultiThreadedRecord x = true)
            (add_window traits f a)).
  cbv beta delta [add_window].
  do 14 forget_let. cbv zeta. unfold holds.
  repeat case_match; unchanged; reflexivity.
Qed.

(** C4 (what the code does). [add_window] switches the protection on
    whatever the number of windows: after the first window of a new
    application the viewer has exactly one window and the flag is set. *)
Theorem first_window_requests_multithreading (debug api vsync : bool) :
  let a := Application_new debug api vsync in
  let a' := (addWindow (Some main_window_traits) a).2 in
  supportMultiThreadedRecord a = false /\
  length (viewer_windows a') = 1%nat /\
  supportMultiThreadedRecord a' = true.
Proof.
  destruct debug, api, vsync; vm_compute; repeat split.
Qed.

(** ** Futures *)

Lemma new_future_unresolved a :
  futures (new_future a).2 !! (new_future a).1 = Some None.
Proof. cbn. apply lookup_insert_eq. Qed.

Lemma future_value_resolve f v a : future_value (resolve f v a) f = Some v.
Proof. unfold future_value, resolve. fields_cbn. by rewrite lookup_insert_eq. Qed.

(** ** Looking up the window of a view *)

Lemma find_none_intro {A} (f : A -> bool) (l : list A) :
  (forall x, x ∈ l -> f x = false) -> find f l = None.
Proof.
  induction l as [|x l IH]; intros H; simpl; [reflexivity|].
  rewrite (H x) by constructor.
  apply IH. intros y Hy. apply H. by constructor.
Qed.

Lemma getWindow_None v a : ~ attached a v -> getWindow v a = None.
Proof.
  intros Hn. unfold getWindow.
  rewrite find_none_intro; [reflexivity|].
  intros [w vs] Hin. apply elem_of_map_to_list in Hin.
  apply bool_decide_eq_false. intros Hv. apply Hn. by exists w, vs.
Qed.

Lemma getWindow_Some v a w :
  getWindow v a = Some w ->
  exists vs, displayConfiguration a !! w = Some vs /\ v ∈ vs.
Proof.
  unfold getWindow. intros H.
  destruct (find _ _) as [[w' vs]|] eqn:E; [|discriminate].
  injection H as ->. apply find_some in E as [Hin Hv].
  apply list_elem_of_In, elem_of_map_to_list in Hin.
  apply bool_decide_eq_true in Hv. by exists vs.
Qed.

(** ** Precondition violations *)

Lemma soft_return_unchanged a :
  tables_unchanged a (new_future (soft_assert_failed a)).2.
Proof. unfold tables_unchanged. unchanged. repeat split. Qed.

Lemma remove_unattached v a : ~ attached a v -> tables_unchanged a (remove v a).
Proof.
  intros Hn. cbv beta delta [remove]. cbv zeta.
  rewrite getWindow_None.
  - unfold tables_unchanged. unchanged. repeat split.
  - intros (w & vs & Hw & Hv). apply Hn. exists w, vs.
    revert Hw. unchanged. done.
Qed.

(** C6. A call that breaks a precondition (a null window, view or camera for
    [addView], null traits for [addWindow], a null or never attached view
    for [removeView]) changes neither the display configuration, nor the
    command-graph registry, nor the view bookkeeping, nor any object these
    refer to; [addView] and [addWindow] hand back a future that is not
    resolved, and the queued form of [removeView] does nothing either when it
    later runs on such a view. *)
Theorem precondition_violation_is_harmless (k : Z) (a : Application)
    (c : Call) :
  precondition_violated a c ->
  tables_unchanged a (step k c a) /\
  match c with
  | AddView w v cb =>
      futures (addView w v cb a).2 !! (addView w v cb a).1 = Some None
  | AddWindow t =>
      futures (addWindow t a).2 !! (addWindow t a).1 = Some None
  | RemoveView (Some v) => tables_unchanged a (remove v a)
  | _ => True
  end.
Proof.
  destruct c as [| [t|] | [w|] [v|] cb | [v|] | | | |]; cbn [precondition_violated step];
    intros H; try contradiction.
  - split; [apply soft_return_unchanged|apply new_future_unresolved].
  - unfold addView. rewrite H.
    split; [apply soft_return_unchanged|apply new_future_unresolved].
  - split; [apply soft_return_unchanged|apply new_future_unresolved].
  - split; [apply soft_return_unchanged|apply new_future_unresolved].
  - split; [apply soft_return_unchanged|apply new_future_unresolved].
  - split; [|by apply remove_unattached].
    unfold removeView. destruct (_viewerRealized a).
    + unfold tables_unchanged. unchanged. repeat split.
    + by apply remove_unattached.
  - split; [|done]. cbn [removeView].
    unfold tables_unchanged. unchanged. repeat split.
Qed.

(** ** Adding a view to a window that has no command graph *)

(** C9. Before realization, [addView] on a window without a registered
    command graph still returns a future resolved with the view and still
    calls [on_create], handing it a null command graph; that call is the only
    thing recorded, and the display configuration, the view data, the
    command graphs and the views are left as they were. *)
Theorem addView_without_command_graph (a : Application) (w : Window)
    (v : View) (cam : Camera) (cb : Callback) :
  _viewerRealized a = false ->
  view_camera a v = Some cam ->
  _commandGraphByWindow a !! w = None ->
  let r := addView (Some w) (Some v) (Some cb) a in
  future_value r.2 r.1 = Some v /\
  trace r.2 = EvOnCreate cb None :: trace a /\
  tables_unchanged a r.2.
Proof.
  intros Hr Hc Hw r. subst r.
  unfold addView. rewrite Hc, Hr.
  cbv beta delta [add_view_now]. rewrite Hw. cbv zeta. cbn [fst snd].
  repeat split; try (unchanged; reflexivity).
  unfold call_on_create, future_value, emit, resolve. fields_cbn.
  by rewrite lookup_insert_eq.
Qed.

(** ** Walking through a state transformer

    For a preorder [R] on states, [walk step] proves [R a t] along the
    structure of [t]; [step] proves [R b (op b)] for a single call. *)

Lemma rel_step (R : relation Application) `{!Transitive R} a b c :
  R b c -> R a b -> R a c.
Proof. intros Hbc Hab. by transitivity b. Qed.

Ltac walk step :=
  lazymatch goal with
  | H : ?R ?a ?x |- ?R ?a ?x => exact H
  | |- ?R ?a ?a => reflexivity
  | |- ?R ?a (let x := ?e in @?B x) =>
      let T := type of e in
      lazymatch T with
      | Application =>
          let Hc := fresh "Hc" in
          let He := fresh "He" in
          assert (He : R a e) by walk step;
          cut (forall x, R a x -> R a (B x));
          [ intros Hc; exact (Hc e He)
          | clear He; intros ? ?; cbv beta; walk step ]
      | _ => change (R a (B e)); cbv beta; walk step
      end
  | |- ?R ?a (match ?d with _ => _ end) => destruct d eqn:?; walk step
  | |- ?R ?a (snd (let x := ?e in @?B x)) =>
      change (R a (let x := e in snd (B x))); cbv beta; walk step
  | |- ?R ?a (snd (match ?d with _ => _ end)) => destruct d eqn:?; walk step
  | |- ?R ?a (snd (_, _)) => cbn [snd]; walk step
  | |- ?R ?a _ => eapply (rel_step R); [ step | walk step ]
  end.

(** ** Identities only grow *)

Global Instance next_le_preorder : PreOrder next_le.
Proof. split; unfold next_le; [intros a|intros a b c]; lia. Qed.

Lemma next_le_of_preserves l a b :
  preserves l a b -> touched l FNextId = false -> next_le a b.
Proof. intros H Ht. unfold next_le. rewrite (H FNextId Ht). lia. Qed.

Create HintDb next discriminated.

#[export] Hint Extern 5 (next_le _ _) =>
  (eapply next_le_of_preserves; [solve [eauto 2 with pres]|reflexivity]) : next.

Ltac next_step := solve [eauto 2 with next].

Lemma set_next_id_next_le n a :
  (next_id a <= n)%positive -> next_le a (set_next_id n a).
Proof. intros H. exact H. Qed.

Lemma fresh_next_le a : next_le a (fresh a).2.
Proof. unfold next_le. cbn. lia. Qed.
#[export] Hint Extern 1 (next_le _ (snd (fresh _))) =>
  simple eapply fresh_next_le : next.

Lemma new_future_next_le a : next_le a (new_future a).2.
Proof. unfold next_le. cbn. lia. Qed.
#[export] Hint Extern 1 (next_le _ (snd (new_future _))) =>
  simple eapply new_future_next_le : next.

Lemma create_View_next_le cam kids a : next_le a (create_View cam kids a).2.
Proof. unfold next_le. cbn. lia. Qed.
#[export] Hint Extern 1 (next_le _ (snd (create_View _ _ _))) =>
  simple eapply create_View_next_le : next.

Lemma create_RenderGraph_next_le w v a :
  next_le a (create_RenderGraph w v a).2.
Proof. unfold next_le. cbn. lia. Qed.
#[export] Hint Extern 1 (next_le _ (snd (create_RenderGraph _ _ _))) =>
  simple eapply create_RenderGraph_next_le : next.

Lemma addManipulator_next_le w v a : next_le a (addManipulator w v a).
Proof. unfold next_le. cbn. lia. Qed.
#[export] Hint Extern 1 (next_le _ (addManipulator _ _ _)) =>
  simple eapply addManipulator_next_le : next.

Lemma create_Window_next_le traits a : next_le a (create_Window traits a).2.
Proof. unfold next_le, create_Window. destruct (device traits); cbn; lia. Qed.
#[export] Hint Extern 1 (next_le _ (snd (create_Window _ _))) =>
  simple eapply create_Window_next_le : next.

Lemma addViewAfterViewerIsRealized_next_le w v cb f a :
  next_le a (addViewAfterViewerIsRealized w v cb f a).
Proof. cbv beta delta [addViewAfterViewerIsRealized]. walk next_step. Qed.
#[export] Hint Extern 1 (next_le _ (addViewAfterViewerIsRealized _ _ _ _ _)) =>
  simple eapply addViewAfterViewerIsRealized_next_le : next.

Lemma add_view_now_next_le w v cb a : next_le a (add_view_now w v cb a).2.
Proof. cbv beta delta [add_view_now]. walk next_step. Qed.
#[export] Hint Extern 1 (next_le _ (snd (add_view_now _ _ _ _))) =>
  simple eapply add_view_now_next_le : next.

Lemma addView_next_le w v cb a : next_le a (addView w v cb a).2.
Proof. cbv beta delta [addView]. walk next_step. Qed.
#[export] Hint Extern 1 (next_le _ (snd (addView _ _ _ _))) =>
  simple eapply addView_next_le : next.

Lemma add_first_view_next_le w v a : next_le a (add_first_view w v a).
Proof. cbv beta delta [add_first_view]. walk next_step. Qed.
#[export] Hint Extern 1 (next_le _ (add_first_view _ _ _)) =>
  simple eapply add_first_view_next_le : next.

Lemma add_window_next_le traits f a : next_le a (add_window traits f a).
Proof. cbv beta delta [add_window]. walk next_step. Qed.
#[export] Hint Extern 1 (next_le _ (add_window _ _ _)) =>
  simple eapply add_window_next_le : next.

Lemma addWindow_next_le traits a : next_le a (addWindow traits a).2.
Proof. cbv beta delta [addWindow]. walk next_step. Qed.
#[export] Hint Extern 1 (next_le _ (snd (addWindow _ _))) =>
  simple eapply addWindow_next_le : next.

Lemma setupViewer_next_le a : next_le a (setupViewer a).
Proof. cbv beta delta [setupViewer]. walk next_step. Qed.
#[export] Hint Extern 1 (next_le _ (setupViewer _)) =>
  simple eapply setupViewer_next_le : next.

Lemma recreateViewer_next_le a : next_le a (recreateViewer a).
Proof. cbv beta delta [recreateViewer]. walk next_step. Qed.
#[export] Hint Extern 1 (next_le _ (recreateViewer _)) =>
  simple eapply recreateViewer_next_le : next.

Lemma realize_next_le a : next_le a (realize a).
Proof. cbv beta delta [realize]. walk next_step. Qed.
#[export] Hint Extern 1 (next_le _ (realize _)) =>
  simple eapply realize_next_le : next.

Lemma run_operation_next_le op a : next_le a (run_operation op a).
Proof. destruct op; cbn [run_operation]; next_step. Qed.
#[export] Hint Extern 1 (next_le _ (run_operation _ _)) =>
  simple eapply run_operation_next_le : next.

Lemma run_operations_next_le ops a :
  next_le a (foldl (fun a op => run_operation op a) a ops).
Proof.
  revert a. induction ops as [|op ops IH]; intros a; simpl; [reflexivity|].
  etransitivity; [apply run_operation_next_le|apply IH].
Qed.

Lemma viewer_update_next_le a : next_le a (viewer_update a).
Proof.
  unfold viewer_update.
  etransitivity; [|apply run_operations_next_le]. next_step.
Qed.
#[export] Hint Extern 1 (next_le _ (viewer_update _)) =>
  simple eapply viewer_update_next_le : next.

Lemma frame_update_next_le a : next_le a (frame_update a).
Proof. cbv beta delta [frame_update]. walk next_step. Qed.
#[export] Hint Extern 1 (next_le _ (frame_update _)) =>
  simple eapply frame_update_next_le : next.

Lemma frame_begin_next_le inp a : next_le a (frame_begin inp a).
Proof. cbv beta delta [frame_begin]. walk next_step. Qed.
#[export] Hint Extern 1 (next_le _ (frame_begin _ _)) =>
  simple eapply frame_begin_next_le : next.

Lemma frame_next_le k inp a : next_le a (frame k inp a).2.
Proof. cbv beta delta [frame]. walk next_step. Qed.
#[export] Hint Extern 1 (next_le _ (snd (frame _ _ _))) =>
  simple eapply frame_next_le : next.

Lemma step_next_le k c a : next_le a (step k c a).
Proof. destruct c; cbn [step]; next_step. Qed.

(** ** Futures keep their state *)

Global Instance future_kept_preorder f : PreOrder (future_kept f).
Proof.
  split.
  - intros a. split; [reflexivity|done].
  - intros a b c [Hab Kab] [Hbc Kbc]. split; [by transitivity b|].
    intros Hf. rewrite Kbc, Kab; [done..|].
    unfold next_le in Hab. lia.
Qed.

Lemma future_kept_of_next f l a b :
  preserves l a b -> touched l FFutures = false -> next_le a b ->
  future_kept f a b.
Proof. intros H Ht Hn. split; [exact Hn|]. intros _. by rewrite (H FFutures Ht). Qed.

Create HintDb futk discriminated.

#[export] Hint Extern 5 (future_kept _ _ _) =>
  (eapply future_kept_of_next;
   [solve [eauto 2 with pres]|reflexivity|solve [eauto 2 with next]]) : futk.

(** The side conditions: an identity below [next_id] differs from any
    identity handed out later. *)
Ltac later_identity :=
  cbn [fst snd new_future fresh] in *;
  repeat match goal with
    | H : future_kept _ _ _ |- _ => destruct H as [H _]
    end;
  unfold next_le in *; fields_cbn;
  first [ lia | intros ->; lia | intros <-; lia | congruence ].

Ltac futk_step := solve [eauto 2 with futk].

Lemma new_future_future_kept f a : future_kept f a (new_future a).2.
Proof.
  split; [apply new_future_next_le|]. intros Hf. cbn.
  apply lookup_insert_ne. lia.
Qed.
#[export] Hint Extern 1 (future_kept _ _ (snd (new_future _))) =>
  simple eapply new_future_future_kept : futk.

Lemma resolve_future_kept f g v a : g <> f -> future_kept f a (resolve g v a).
Proof.
  intros Hg. split; [next_step|]. intros _. cbn. by apply lookup_insert_ne.
Qed.
#[export] Hint Extern 1 (future_kept _ _ (resolve _ _ _)) =>
  (simple eapply resolve_future_kept; later_identity) : futk.

(** A frame-condition proof for a future that exists already; when it does
    not exist yet, only the growth of the identities is left to show. *)
Ltac future_kept_by tac :=
  lazymatch goal with
  | |- future_kept ?f ?a _ =>
      destruct (decide (f < next_id a)%positive) as [Hf|Hf];
      [ tac | split; [next_step|intros ?; contradiction] ]
  end.

Lemma addViewAfterViewerIsRealized_future_kept f w v cb g a :
  g <> f -> future_kept f a (addViewAfterViewerIsRealized w v cb g a).
Proof.
  intros Hg. cbv beta delta [addViewAfterViewerIsRealized]. walk futk_step.
Qed.
#[export] Hint Extern 1
  (future_kept _ _ (addViewAfterViewerIsRealized _ _ _ _ _)) =>
  (simple eapply addViewAfterViewerIsRealized_future_kept; later_identity)
  : futk.

Lemma add_view_now_future_kept f w v cb a :
  future_kept f a (add_view_now w v cb a).2.
Proof.
  future_kept_by ltac:(cbv beta delta [add_view_now]; walk futk_step).
Qed.
#[export] Hint Extern 1 (future_kept _ _ (snd (add_view_now _ _ _ _))) =>
  simple eapply add_view_now_future_kept : futk.

Lemma addView_future_kept f w v cb a : future_kept f a (addView w v cb a).2.
Proof. cbv beta delta [addView]. walk futk_step. Qed.
#[export] Hint Extern 1 (future_kept _ _ (snd (addView _ _ _ _))) =>
  simple eapply addView_future_kept : futk.

Lemma add_first_view_future_kept f w v a :
  future_kept f a (add_first_view w v a).
Proof.
  future_kept_by ltac:(cbv beta delta [add_first_view]; walk futk_step).
Qed.
#[export] Hint Extern 1 (future_kept _ _ (add_first_view _ _ _)) =>
  simple eapply add_first_view_future_kept : futk.

Lemma add_window_future_kept f traits g a :
  g <> f -> future_kept f a (add_window traits g a).
Proof.
  intros Hg. cbv beta delta [add_window]. walk futk_step.
Qed.
#[export] Hint Extern 1 (future_kept _ _ (add_window _ _ _)) =>
  (simple eapply add_window_future_kept; later_identity) : futk.

Lemma addWindow_future_kept f traits a :
  future_kept f a (addWindow traits a).2.
Proof.
  future_kept_by ltac:(cbv beta delta [addWindow]; walk futk_step).
Qed.
#[export] Hint Extern 1 (future_kept _ _ (snd (addWindow _ _))) =>
  simple eapply addWindow_future_kept : futk.

Lemma realize_future_kept f a : future_kept f a (realize a).
Proof. cbv beta delta [realize]. walk futk_step. Qed.
#[export] Hint Extern 1 (future_kept _ _ (realize _)) =>
  simple eapply realize_future_kept : futk.

Lemma frame_begin_future_kept f inp a : future_kept f a (frame_begin inp a).
Proof. cbv beta delta [frame_begin]. walk futk_step. Qed.
#[export] Hint Extern 1 (future_kept _ _ (frame_begin _ _)) =>
  simple eapply frame_begin_future_kept : futk.

Lemma run_operation_future_kept f op a :
  operation_future op <> Some f -> future_kept f a (run_operation op a).
Proof.
  destruct op; cbn [run_operation operation_future]; intros Hop; futk_step.
Qed.

Lemma run_operations_future_kept f ops a :
  Forall (fun op => operation_future op <> Some f) ops ->
  future_kept f a (foldl (fun a op => run_operation op a) a ops).
Proof.
  intros H. revert a. induction H as [|op ops Hop _ IH]; intros a; simpl.
  - reflexivity.
  - etransitivity; [by apply run_operation_future_kept|apply IH].
Qed.

(** ** When the future of [addView] is resolved *)

Lemma addViewAfterViewerIsRealized_resolves w v cb f a :
  futures (addViewAfterViewerIsRealized w v cb f a) !! f = Some (Some v).
Proof.
  change (holds (fun x => futures x !! f = Some (Some v))
            (addViewAfterViewerIsRealized w v cb f a)).
  cbv beta delta [addViewAfterViewerIsRealized].
  do 5 forget_let. unfold holds, resolve. fields_cbn.
  apply lookup_insert_eq.
Qed.

Lemma step_future_kept k c a f :
  not_draining c = true -> future_kept f a (step k c a).
Proof.
  destruct c; cbn [step not_draining]; intros Hc; try futk_step.
  cbv beta delta [frame]. apply negb_true_iff in Hc. rewrite Hc.
  cbv zeta. cbn [snd]. futk_step.
Qed.

Lemma realize_when_realized a : _viewerRealized a = true -> realize a = a.
Proof. intros H. unfold realize. by rewrite H. Qed.

(** Once the viewer is realized, a call that does not drain the queue can
    only append to it, and what it appends resolves a future of its own. *)
Lemma step_queue k c a f :
  _viewerRealized a = true -> not_draining c = true ->
  (f < next_id a)%positive ->
  exists new,
    updateOperations (step k c a) = updateOperations a ++ new /\
    Forall (fun op => operation_future op <> Some f) new.
Proof.
  intros Hr Hc Hf.
  assert (Hnil : forall b, updateOperations b = updateOperations a ->
            exists new, updateOperations b = updateOperations a ++ new /\
              Forall (fun op => operation_future op <> Some f) new).
  { intros b Hb. exists []. by rewrite app_nil_r. }
  assert (Hone : forall op, operation_future op <> Some f ->
            forall b, updateOperations b = updateOperations a ++ [op] ->
            exists new, updateOperations b = updateOperations a ++ new /\
              Forall (fun op => operation_future op <> Some f) new).
  { intros op Hop b Hb. exists [op]. split; [done|]. by constructor. }
  destruct c as [cam kids|[t|]|[w|] [v|] cb|[v|]|v|w rg| |inp];
    cbn [step not_draining] in *.
  - apply Hnil. unchanged. done.
  - unfold addWindow. cbv zeta. unchanged. rewrite Hr. cbn [snd].
    apply (Hone (OpAddWindow t (new_future a).1)).
    + cbn. intros [= <-]. lia.
    + unfold runDuringUpdate. fields_cbn. unchanged. done.
  - apply Hnil. unfold addWindow. unchanged. done.
  - unfold addView. destruct (view_camera a v) eqn:Ec.
    + rewrite Hr. cbv zeta. cbn [snd].
      apply (Hone (OpAddView w v cb (new_future a).1)).
      * cbn. intros [= <-]. lia.
      * unfold runDuringUpdate. fields_cbn. unchanged. done.
    + apply Hnil. unchanged. done.
  - apply Hnil. unfold addView. unchanged. done.
  - apply Hnil. unfold addView. unchanged. done.
  - apply Hnil. unfold addView. unchanged. done.
  - unfold removeView. rewrite Hr.
    apply (Hone (OpRemoveView v)); [done|]. reflexivity.
  - apply Hnil. unfold removeView. unchanged. done.
  - unfold refreshView. rewrite Hr.
    apply (Hone (OpRefreshView v)); [done|]. reflexivity.
  - unfold addPreRenderGraph. rewrite Hr.
    apply (Hone (OpAddPreRenderGraph w rg)); [done|]. reflexivity.
  - apply Hnil. by rewrite realize_when_realized.
  - apply Hnil. cbv beta delta [frame]. apply negb_true_iff in Hc.
    rewrite Hc. cbv zeta. cbn [snd]. unfold frame_begin. rewrite Hr.
    unchanged. done.
Qed.

(** Running a queue that holds the deferred [addView] resolves its future,
    whatever ran before it, as long as nothing after it owns that future. *)
Lemma viewer_update_resolves a pre post w v cb f :
  updateOperations a = pre ++ OpAddView w v cb f :: post ->
  Forall (fun op => operation_future op <> Some f) post ->
  (f < next_id a)%positive ->
  futures (viewer_update a) !! f = Some (Some v).
Proof.
  intros Hq Hpost Hf. unfold viewer_update. rewrite Hq, foldl_app.
  cbn [foldl run_operation].
  set (b := foldl _ (set_updateOperations [] a) pre).
  assert (Hb : next_le a b).
  { subst b. etransitivity; [|apply run_operations_next_le]. next_step. }
  set (c := addViewAfterViewerIsRealized w v cb f b).
  assert (Hc : next_le b c) by (subst c; next_step).
  destruct (run_operations_future_kept f post c Hpost) as [_ K].
  rewrite K.
  - apply addViewAfterViewerIsRealized_resolves.
  - unfold next_le in *. lia.
Qed.

Lemma frame_resolves k inp a pre post w v cb f :
  _viewerRealized a = true -> advance inp = true ->
  updateOperations a = pre ++ OpAddView w v cb f :: post ->
  Forall (fun op => operation_future op <> Some f) post ->
  (f < next_id a)%positive ->
  futures (frame k inp a).2 !! f = Some (Some v).
Proof.
  intros Hr Ha Hq Hpost Hf.
  cbv beta delta [frame]. rewrite Ha. cbv zeta.
  assert (E : futures (frame_update (frame_begin inp a)) !! f
              = Some (Some v)).
  { unfold frame_update, frame_begin. rewrite Hr. cbv zeta. unchanged.
    match goal with
    | |- futures (viewer_update ?x) !! _ = _ =>
        apply (viewer_update_resolves x pre post w v cb f)
    end; [|done|].
    - destruct (updateFunction a); unchanged; exact Hq.
    - destruct (updateFunction a); unchanged; exact Hf. }
  destruct (_viewerDirty _); cbn [snd]; unchanged; exact E.
Qed.

(** The deferred [addView] stays queued, with its future unresolved, through
    any calls that do not drain the queue. *)
Lemma pending_view_steps k cs a pre post w v cb f :
  _viewerRealized a = true ->
  updateOperations a = pre ++ OpAddView w v cb f :: post ->
  Forall (fun op => operation_future op <> Some f) post ->
  (f < next_id a)%positive ->
  futures a !! f = Some None ->
  forallb not_draining cs = true ->
  let b := steps k cs a in
  _viewerRealized b = true /\
  (exists post', updateOperations b = pre ++ OpAddView w v cb f :: post' /\
                 Forall (fun op => operation_future op <> Some f) post') /\
  (f < next_id b)%positive /\
  futures b !! f = Some None.
Proof.
  unfold steps. revert a post.
  induction cs as [|c cs IH]; intros a post Hr Hq Hpost Hf Hu Hcs; simpl.
  - eauto 10.
  - simpl in Hcs. apply andb_prop in Hcs as [Hc Hcs].
    destruct (step_queue k c a f Hr Hc Hf) as (new & Hnew & Fnew).
    destruct (step_future_kept k c a f Hc) as [Hn K].
    apply (IH (step k c a) (post ++ new)); try done.
    + rewrite step_realized, Hr. done.
    + rewrite Hnew, Hq, <- app_assoc. done.
    + by apply Forall_app.
    + unfold next_le in Hn. lia.
    + by rewrite K.
Qed.

(** C2. With a non-null window, view and camera: before realization the
    future [addView] returns is resolved with the view when the call returns;
    after realization it is unresolved when the call returns, stays
    unresolved through every later call that does not drain the queue
    (including a [frame()] that fails to advance), and is resolved with the
    view by the first [frame()] that does. *)
Theorem addView_future_timing (k : Z) (a : Application) (w : Window)
    (v : View) (cam : Camera) (cb : option Callback) :
  view_camera a v = Some cam ->
  let r := addView (Some w) (Some v) cb a in
  (_viewerRealized a = false -> future_value r.2 r.1 = Some v) /\
  (_viewerRealized a = true ->
   future_value r.2 r.1 = None /\
   forall cs, forallb not_draining cs = true ->
     future_value (steps k cs r.2) r.1 = None /\
     forall inp, advance inp = true ->
       future_value (frame k inp (steps k cs r.2)).2 r.1 = Some v).
Proof.
  intros Hc r. subst r. unfold addView. rewrite Hc. split; intros Hr; rewrite Hr.
  - cbv beta delta [add_view_now]. cbv zeta. cbn [fst snd].
    unfold future_value. unfold call_on_create.
    destruct cb; unchanged; unfold resolve; fields_cbn;
      by rewrite lookup_insert_eq.
  - cbv zeta. cbn [fst snd].
    set (f := (new_future a).1).
    set (b := runDuringUpdate (OpAddView w v cb f) (new_future a).2).
    assert (Hb : _viewerRealized b = true) by (subst b; unchanged; done).
    assert (Hq : updateOperations b
                 = updateOperations a ++ OpAddView w v cb f :: []).
    { subst b. unfold runDuringUpdate. fields_cbn. unchanged. done. }
    assert (Hf : (f < next_id b)%positive).
    { subst b f. unchanged. cbn. lia. }
    assert (Hu : futures b !! f = Some None).
    { subst b f. unchanged. apply new_future_unresolved. }
    split; [unfold future_value; by rewrite Hu|].
    intros cs Hcs.
    destruct (pending_view_steps k cs b (updateOperations a) [] w v cb f
                Hb Hq ltac:(constructor) Hf Hu Hcs)
      as (Hr' & (post' & Hq' & Hp') & Hf' & Hu').
    split; [unfold future_value; by rewrite Hu'|].
    intros inp Ha. unfold future_value.
    by rewrite (frame_resolves k inp _ _ post' w v cb f Hr' Ha Hq' Hp' Hf').
Qed.

(** ** Running the queue *)

Lemma run_operations_rel (R : relation Application) `{!PreOrder R} :
  (forall op a, R a (run_operation op a)) ->
  forall ops a, R a (foldl (fun a op => run_operation op a) a ops).
Proof.
  intros Hop ops. induction ops as [|op ops IH]; intros a; simpl.
  - reflexivity.
  - transitivity (run_operation op a); [apply Hop|apply IH].
Qed.

Lemma viewer_update_queue a : updateOperations (viewer_update a) = [].
Proof.
  unfold viewer_update.
  assert (H : preserves
                [FTrace; FViews; FNextId; FRenderGraphs; FCommandGraphChildren;
                 FViewData; FDisplayConfiguration; FEventHandlers; FFutures;
                 FCommandGraphByWindow; FWindowObjs; FMultiThreaded;
                 FViewerWindows; FDirty]
                (set_updateOperations [] a)
                (foldl (fun a op => run_operation op a)
                       (set_updateOperations [] a) (updateOperations a)))
    by (apply run_operations_preserves; [reflexivity|apply preserves_refl]).
  exact (H FUpdateOperations eq_refl).
Qed.

Lemma viewer_update_empty a :
  updateOperations a = [] -> viewer_update a = set_updateOperations [] a.
Proof. intros H. unfold viewer_update. by rewrite H. Qed.

(** ** The dirty flag is not cleared behind the frame loop's back *)

Global Instance dirty_kept_preorder : PreOrder dirty_kept.
Proof. split; unfold dirty_kept; [intros a|intros a b c]; auto. Qed.

Lemma dirty_kept_of_preserves l a b :
  preserves l a b -> touched l FDirty = false -> dirty_kept a b.
Proof. intros H Ht Hd. by rewrite (H FDirty Ht). Qed.

Create HintDb dirty discriminated.

#[export] Hint Extern 5 (dirty_kept _ _) =>
  (eapply dirty_kept_of_preserves; [solve [eauto 2 with pres]|reflexivity])
  : dirty.

Ltac dirty_step := solve [eauto 2 with dirty].

Lemma set_viewerDirty_dirty_kept a : dirty_kept a (set_viewerDirty true a).
Proof. intros _. reflexivity. Qed.
#[export] Hint Extern 1 (dirty_kept _ (set_viewerDirty true _)) =>
  simple eapply set_viewerDirty_dirty_kept : dirty.

Lemma add_window_dirty_kept traits f a : dirty_kept a (add_window traits f a).
Proof. cbv beta delta [add_window]. walk dirty_step. Qed.
#[export] Hint Extern 1 (dirty_kept _ (add_window _ _ _)) =>
  simple eapply add_window_dirty_kept : dirty.

Lemma addWindow_dirty_kept traits a : dirty_kept a (addWindow traits a).2.
Proof. cbv beta delta [addWindow]. walk dirty_step. Qed.
#[export] Hint Extern 1 (dirty_kept _ (snd (addWindow _ _))) =>
  simple eapply addWindow_dirty_kept : dirty.

Lemma realize_dirty_kept a : dirty_kept a (realize a).
Proof. cbv beta delta [realize]. walk dirty_step. Qed.
#[export] Hint Extern 1 (dirty_kept _ (realize _)) =>
  simple eapply realize_dirty_kept : dirty.

Lemma run_operation_dirty_kept op a : dirty_kept a (run_operation op a).
Proof. destruct op; cbn [run_operation]; dirty_step. Qed.
#[export] Hint Extern 1 (dirty_kept _ (run_operation _ _)) =>
  simple eapply run_operation_dirty_kept : dirty.

Lemma viewer_update_dirty_kept a : dirty_kept a (viewer_update a).
Proof.
  unfold viewer_update.
  etransitivity;
    [|apply (run_operations_rel dirty_kept), run_operation_dirty_kept].
  dirty_step.
Qed.
#[export] Hint Extern 1 (dirty_kept _ (viewer_update _)) =>
  simple eapply viewer_update_dirty_kept : dirty.

Lemma frame_update_dirty_kept a : dirty_kept a (frame_update a).
Proof. cbv beta delta [frame_update]. walk dirty_step. Qed.
#[export] Hint Extern 1 (dirty_kept _ (frame_update _)) =>
  simple eapply frame_update_dirty_kept : dirty.

Lemma frame_begin_dirty_kept inp a : dirty_kept a (frame_begin inp a).
Proof. cbv beta delta [frame_begin]. walk dirty_step. Qed.
#[export] Hint Extern 1 (dirty_kept _ (frame_begin _ _)) =>
  simple eapply frame_begin_dirty_kept : dirty.

(** ** What is recorded outside the rebuild, record and present steps *)

Global Instance quiet_trace_preorder : PreOrder quiet_trace.
Proof.
  split.
  - intros a. by exists [].
  - intros a b c (e1 & E1 & Q1) (e2 & E2 & Q2). exists (e2 ++ e1). split.
    + by rewrite E2, E1, app_assoc.
    + rewrite forallb_app, Q1, Q2. done.
Qed.

Lemma quiet_trace_of_preserves l a b :
  preserves l a b -> touched l FTrace = false -> quiet_trace a b.
Proof. intros H Ht. exists []. split; [apply (H FTrace Ht)|done]. Qed.

Create HintDb quiet discriminated.

#[export] Hint Extern 5 (quiet_trace _ _) =>
  (eapply quiet_trace_of_preserves; [solve [eauto 2 with pres]|reflexivity])
  : quiet.

Ltac quiet_step := solve [eauto 2 with quiet].

Lemma emit_quiet_trace e a : is_quiet e = true -> quiet_trace a (emit e a).
Proof. intros He. exists [e]. split; [done|]. cbn. by rewrite He. Qed.
#[export] Hint Extern 1 (quiet_trace _ (emit _ _)) =>
  (simple eapply emit_quiet_trace; reflexivity) : quiet.

Lemma soft_assert_failed_quiet_trace a : quiet_trace a (soft_assert_failed a).
Proof. by apply emit_quiet_trace. Qed.
#[export] Hint Extern 1 (quiet_trace _ (soft_assert_failed _)) =>
  simple eapply soft_assert_failed_quiet_trace : quiet.

Lemma deviceWaitIdle_quiet_trace a : quiet_trace a (deviceWaitIdle a).
Proof. by apply emit_quiet_trace. Qed.
#[export] Hint Extern 1 (quiet_trace _ (deviceWaitIdle _)) =>
  simple eapply deviceWaitIdle_quiet_trace : quiet.

Lemma activateRenderGraph_quiet_trace rg w a :
  quiet_trace a (activateRenderGraph rg w a).
Proof. cbv beta delta [activateRenderGraph]. walk quiet_step. Qed.
#[export] Hint Extern 1 (quiet_trace _ (activateRenderGraph _ _ _)) =>
  simple eapply activateRenderGraph_quiet_trace : quiet.

Lemma call_on_create_quiet_trace cb cg a :
  quiet_trace a (call_on_create cb cg a).
Proof. cbv beta delta [call_on_create]. walk quiet_step. Qed.
#[export] Hint Extern 1 (quiet_trace _ (call_on_create _ _ _)) =>
  simple eapply call_on_create_quiet_trace : quiet.

Lemma create_Window_quiet_trace traits a :
  quiet_trace a (create_Window traits a).2.
Proof. cbv beta delta [create_Window]. walk quiet_step. Qed.
#[export] Hint Extern 1 (quiet_trace _ (snd (create_Window _ _))) =>
  simple eapply create_Window_quiet_trace : quiet.

Lemma addViewAfterViewerIsRealized_quiet_trace w v cb f a :
  quiet_trace a (addViewAfterViewerIsRealized w v cb f a).
Proof. cbv beta delta [addViewAfterViewerIsRealized]. walk quiet_step. Qed.
#[export] Hint Extern 1 (quiet_trace _ (addViewAfterViewerIsRealized _ _ _ _ _)) =>
  simple eapply addViewAfterViewerIsRealized_quiet_trace : quiet.

Lemma add_view_now_quiet_trace w v cb a :
  quiet_trace a (add_view_now w v cb a).2.
Proof. cbv beta delta [add_view_now]. walk quiet_step. Qed.
#[export] Hint Extern 1 (quiet_trace _ (snd (add_view_now _ _ _ _))) =>
  simple eapply add_view_now_quiet_trace : quiet.

Lemma addView_quiet_trace w v cb a : quiet_trace a (addView w v cb a).2.
Proof. cbv beta delta [addView]. walk quiet_step. Qed.
#[export] Hint Extern 1 (quiet_trace _ (snd (addView _ _ _ _))) =>
  simple eapply addView_quiet_trace : quiet.

Lemma add_first_view_quiet_trace w v a : quiet_trace a (add_first_view w v a).
Proof. cbv beta delta [add_first_view]. walk quiet_step. Qed.
#[export] Hint Extern 1 (quiet_trace _ (add_first_view _ _ _)) =>
  simple eapply add_first_view_quiet_trace : quiet.

Lemma add_window_quiet_trace traits f a :
  quiet_trace a (add_window traits f a).
Proof. cbv beta delta [add_window]. walk quiet_step. Qed.
#[export] Hint Extern 1 (quiet_trace _ (add_window _ _ _)) =>
  simple eapply add_window_quiet_trace : quiet.

Lemma addWindow_quiet_trace traits a : quiet_trace a (addWindow traits a).2.
Proof. cbv beta delta [addWindow]. walk quiet_step. Qed.
#[export] Hint Extern 1 (quiet_trace _ (snd (addWindow _ _))) =>
  simple eapply addWindow_quiet_trace : quiet.

Lemma remove_quiet_trace v a : quiet_trace a (remove v a).
Proof. cbv beta delta [remove]. walk quiet_step. Qed.
#[export] Hint Extern 1 (quiet_trace _ (remove _ _)) =>
  simple eapply remove_quiet_trace : quiet.

Lemma refresh_quiet_trace v a : quiet_trace a (refresh v a).
Proof. cbv beta delta [refresh]. walk quiet_step. Qed.
#[export] Hint Extern 1 (quiet_trace _ (refresh _ _)) =>
  simple eapply refresh_quiet_trace : quiet.

Lemma add_pre_render_graph_quiet_trace w rg a :
  quiet_trace a (add_pre_render_graph w rg a).
Proof. cbv beta delta [add_pre_render_graph]. walk quiet_step. Qed.
#[export] Hint Extern 1 (quiet_trace _ (add_pre_render_graph _ _ _)) =>
  simple eapply add_pre_render_graph_quiet_trace : quiet.

Lemma setupViewer_quiet_trace a : quiet_trace a (setupViewer a).
Proof. cbv beta delta [setupViewer]. walk quiet_step. Qed.
#[export] Hint Extern 1 (quiet_trace _ (setupViewer _)) =>
  simple eapply setupViewer_quiet_trace : quiet.

Lemma realize_quiet_trace a : quiet_trace a (realize a).
Proof. cbv beta delta [realize]. walk quiet_step. Qed.
#[export] Hint Extern 1 (quiet_trace _ (realize _)) =>
  simple eapply realize_quiet_trace : quiet.

Lemma run_operation_quiet_trace op a : quiet_trace a (run_operation op a).
Proof. destruct op; cbn [run_operation]; quiet_step. Qed.
#[export] Hint Extern 1 (quiet_trace _ (run_operation _ _)) =>
  simple eapply run_operation_quiet_trace : quiet.

Lemma viewer_update_quiet_trace a : quiet_trace a (viewer_update a).
Proof.
  unfold viewer_update.
  etransitivity;
    [|apply (run_operations_rel quiet_trace), run_operation_quiet_trace].
  quiet_step.
Qed.
#[export] Hint Extern 1 (quiet_trace _ (viewer_update _)) =>
  simple eapply viewer_update_quiet_trace : quiet.

Lemma frame_update_quiet_trace a : quiet_trace a (frame_update a).
Proof. cbv beta delta [frame_update]. walk quiet_step. Qed.
#[export] Hint Extern 1 (quiet_trace _ (frame_update _)) =>
  simple eapply frame_update_quiet_trace : quiet.

Lemma frame_begin_quiet_trace inp a : quiet_trace a (frame_begin inp a).
Proof. cbv beta delta [frame_begin]. walk quiet_step. Qed.
#[export] Hint Extern 1 (quiet_trace _ (frame_begin _ _)) =>
  simple eapply frame_begin_quiet_trace : quiet.

(** ** Handlers other than map manipulators stay installed *)

Global Instance handlers_kept_preorder : PreOrder handlers_kept.
Proof. split; unfold handlers_kept; [intros a|intros a b c]; auto. Qed.

Lemma handlers_kept_of_preserves l a b :
  preserves l a b -> touched l FEventHandlers = false -> handlers_kept a b.
Proof. intros H Ht h _. by rewrite (H FEventHandlers Ht). Qed.

Create HintDb hand discriminated.

#[export] Hint Extern 5 (handlers_kept _ _) =>
  (eapply handlers_kept_of_preserves;
   [solve [eauto 2 with pres]|reflexivity]) : hand.

Ltac hand_step := solve [eauto 2 with hand].

Lemma addManipulator_handlers_kept w v a :
  handlers_kept a (addManipulator w v a).
Proof.
  intros h Hh Hin. unfold addManipulator. fields_cbn.
  apply elem_of_app. left. apply list_elem_of_filter. done.
Qed.
#[export] Hint Extern 1 (handlers_kept _ (addManipulator _ _ _)) =>
  simple eapply addManipulator_handlers_kept : hand.

Lemma setupViewer_handlers_kept a : handlers_kept a (setupViewer a).
Proof.
  intros h Hh Hin. unfold setupViewer. fields_cbn.
  apply elem_of_app. by left.
Qed.
#[export] Hint Extern 1 (handlers_kept _ (setupViewer _)) =>
  simple eapply setupViewer_handlers_kept : hand.

Lemma addViewAfterViewerIsRealized_handlers_kept w v cb f a :
  handlers_kept a (addViewAfterViewerIsRealized w v cb f a).
Proof. cbv beta delta [addViewAfterViewerIsRealized]. walk hand_step. Qed.
#[export] Hint Extern 1 (handlers_kept _ (addViewAfterViewerIsRealized _ _ _ _ _)) =>
  simple eapply addViewAfterViewerIsRealized_handlers_kept : hand.

Lemma add_first_view_handlers_kept w v a :
  handlers_kept a (add_first_view w v a).
Proof. cbv beta delta [add_first_view]. walk hand_step. Qed.
#[export] Hint Extern 1 (handlers_kept _ (add_first_view _ _ _)) =>
  simple eapply add_first_view_handlers_kept : hand.

Lemma add_window_handlers_kept traits f a :
  handlers_kept a (add_window traits f a).
Proof. cbv beta delta [add_window]. walk hand_step. Qed.
#[export] Hint Extern 1 (handlers_kept _ (add_window _ _ _)) =>
  simple eapply add_window_handlers_kept : hand.

Lemma addWindow_handlers_kept traits a :
  handlers_kept a (addWindow traits a).2.
Proof. cbv beta delta [addWindow]. walk hand_step. Qed.
#[export] Hint Extern 1 (handlers_kept _ (snd (addWindow _ _))) =>
  simple eapply addWindow_handlers_kept : hand.

Lemma realize_handlers_kept a : handlers_kept a (realize a).
Proof. cbv beta delta [realize]. walk hand_step. Qed.
#[export] Hint Extern 1 (handlers_kept _ (realize _)) =>
  simple eapply realize_handlers_kept : hand.

Lemma run_operation_handlers_kept op a :
  handlers_kept a (run_operation op a).
Proof. destruct op; cbn [run_operation]; hand_step. Qed.
#[export] Hint Extern 1 (handlers_kept _ (run_operation _ _)) =>
  simple eapply run_operation_handlers_kept : hand.

Lemma viewer_update_handlers_kept a : handlers_kept a (viewer_update a).
Proof.
  unfold viewer_update.
  etransitivity;
    [|apply (run_operations_rel handlers_kept), run_operation_handlers_kept].
  hand_step.
Qed.
#[export] Hint Extern 1 (handlers_kept _ (viewer_update _)) =>
  simple eapply viewer_update_handlers_kept : hand.

Lemma frame_update_handlers_kept a : handlers_kept a (frame_update a).
Proof. cbv beta delta [frame_update]. walk hand_step. Qed.
#[export] Hint Extern 1 (handlers_kept _ (frame_update _)) =>
  simple eapply frame_update_handlers_kept : hand.

Lemma frame_begin_handlers_kept inp a : handlers_kept a (frame_begin inp a).
Proof. cbv beta delta [frame_begin]. walk hand_step. Qed.
#[export] Hint Extern 1 (handlers_kept _ (frame_begin _ _)) =>
  simple eapply frame_begin_handlers_kept : hand.

(** ** The frame that rebuilds the viewer *)

Lemma quiet_count e evs :
  forallb is_quiet evs = true -> is_quiet e = false -> count e evs = 0%nat.
Proof.
  unfold count. intros Hq He. apply count_occ_not_In. intros Hin.
  rewrite forallb_forall in Hq. apply Hq in Hin. congruence.
Qed.

Lemma count_app e l1 l2 : count e (l1 ++ l2) = (count e l1 + count e l2)%nat.
Proof. apply count_occ_app. Qed.

Lemma recreateViewer_trace x :
  trace (recreateViewer x)
  = [EvCompile;
     EvAssignRecordAndSubmit (map_to_list (_commandGraphByWindow x)).*2;
     EvEcsInitialize; EvDeviceWaitIdle; EvRecreateViewer] ++ trace x.
Proof. reflexivity. Qed.

Lemma recreateViewer_handlers x :
  eventHandlers (recreateViewer x)
  = eventHandlers x ++ [Some (CloseHandler (next_id x))].
Proof. reflexivity. Qed.

Lemma frame_update_idle x :
  updateOperations x = [] -> _viewerDirty (frame_update x) = _viewerDirty x.
Proof.
  intros Hq. unfold frame_update. cbv zeta. unchanged.
  destruct (updateFunction x);
    (rewrite viewer_update_empty; [|unchanged; exact Hq]);
    unchanged; reflexivity.
Qed.

(** A frame of a realized application with nothing queued and the dirty flag
    down does not rebuild the viewer. *)
Lemma idle_frame_no_rebuild k inp b :
  _viewerRealized b = true -> _viewerDirty b = false ->
  updateOperations b = [] ->
  exists evs, trace (frame k inp b).2 = evs ++ trace b /\
              count EvRecreateViewer evs = 0%nat.
Proof.
  intros Hr Hd Hq.
  destruct (frame_begin_quiet_trace inp b) as (e0 & E0 & Q0).
  destruct (frame_update_quiet_trace (frame_begin inp b)) as (e1 & E1 & Q1).
  assert (Hq' : updateOperations (frame_begin inp b) = [])
    by (unchanged; exact Hq).
  assert (Hd' : _viewerDirty (frame_update (frame_begin inp b)) = false).
  { rewrite frame_update_idle by exact Hq'.
    unfold frame_begin. rewrite Hr. exact Hd. }
  cbv beta delta [frame]. cbv zeta.
  revert E0 E1 Hd'. generalize (frame_begin inp b). intros x E0.
  generalize (frame_update x). intros y E1 Hd'.
  destruct (advance inp).
  - rewrite Hd'. cbn [snd].
    exists (EvPresent :: EvRecordAndSubmit :: e1 ++ e0). split.
    + unfold emit. fields_cbn. rewrite E1, E0. cbn [app].
      by rewrite app_assoc.
    + change (count EvRecreateViewer (e1 ++ e0) = 0%nat).
      rewrite count_app, !quiet_count; done.
  - cbn [snd]. exists e0. split; [exact E0|]. by apply quiet_count.
Qed.

Lemma frame_rebuilds_when_dirty k inp a :
  advance inp = true ->
  _viewerDirty (frame_update (frame_begin inp a)) = true ->
  frame k inp a
  = (true, recreateViewer
             (set_viewerDirty false (frame_update (frame_begin inp a)))).
Proof.
  intros Ha Hd. cbv beta delta [frame]. cbv zeta. rewrite Ha. by rewrite Hd.
Qed.

Lemma frame_update_queue x : updateOperations (frame_update x) = [].
Proof.
  unfold frame_update. cbv zeta. unchanged. apply viewer_update_queue.
Qed.

(** What the rebuild makes of the state [mid] found at the dirty check. *)
Lemma rebuild_after_update k a mid :
  quiet_trace a mid -> handlers_kept a mid ->
  updateOperations mid = [] -> _viewerRealized mid = true ->
  let b := recreateViewer (set_viewerDirty false mid) in
  (exists evs, trace b = evs ++ trace a /\
               count EvRecreateViewer evs = 1%nat /\
               count EvRecordAndSubmit evs = 0%nat /\
               count EvPresent evs = 0%nat) /\
  _viewerDirty b = false /\
  eventHandlers b = eventHandlers mid ++ [Some (CloseHandler (next_id mid))] /\
  handlers_kept a b /\
  (forall inp', exists evs',
      trace (frame k inp' b).2 = evs' ++ trace b /\
      count EvRecreateViewer evs' = 0%nat).
Proof.
  intros (e1 & E1 & Q1) Hk Hq Hr b.
  assert (Eh : eventHandlers b
               = eventHandlers mid ++ [Some (CloseHandler (next_id mid))]).
  { subst b. rewrite recreateViewer_handlers. reflexivity. }
  split; [|split; [|split; [|split]]].
  - exists ([EvCompile;
             EvAssignRecordAndSubmit
               (map_to_list
                  (_commandGraphByWindow (set_viewerDirty false mid))).*2;
             EvEcsInitialize; EvDeviceWaitIdle; EvRecreateViewer] ++ e1).
    split.
    + subst b. rewrite recreateViewer_trace. fields_cbn.
      by rewrite E1, app_assoc.
    + rewrite !count_app, !(quiet_count _ e1) by done. repeat split.
  - subst b. unchanged. reflexivity.
  - exact Eh.
  - transitivity mid; [exact Hk|].
    intros h _ Hin. rewrite Eh. apply elem_of_app. by left.
  - intros inp'. apply idle_frame_no_rebuild.
    + subst b. unchanged. exact Hr.
    + subst b. unchanged. reflexivity.
    + subst b. unchanged. exact Hq.
Qed.

(** C5. A frame that finds the dirty flag set rebuilds the viewer exactly
    once.  Clients cannot set the flag: it is raised by the [add_window]
    lambda when the frame runs the queue, and a flag that were set on entry
    would still be set at the check.  In either case, when the viewer
    advances to the next frame, so that [frame()] gets to its check, the call
    rebuilds the viewer exactly once and records no recording, submission or
    presentation; it returns true with the flag cleared and the queue empty,
    so that the frame after it does not rebuild; the handlers installed when
    the rebuild starts are installed again, in order, followed by the close
    handler of the new viewer, and every handler other than a map
    manipulator that was installed when [frame()] was entered is still
    installed. *)
Theorem dirty_frame_rebuilds_once (k : Z) (inp : FrameInput)
    (a : Application) :
  advance inp = true ->
  let mid := frame_update (frame_begin inp a) in
  _viewerDirty a = true \/ _viewerDirty mid = true ->
  let b := (frame k inp a).2 in
  (frame k inp a).1 = true /\
  (exists evs, trace b = evs ++ trace a /\
               count EvRecreateViewer evs = 1%nat /\
               count EvRecordAndSubmit evs = 0%nat /\
               count EvPresent evs = 0%nat) /\
  _viewerDirty b = false /\
  eventHandlers b = eventHandlers mid ++ [Some (CloseHandler (next_id mid))] /\
  handlers_kept a b /\
  (forall inp', exists evs',
      trace (frame k inp' b).2 = evs' ++ trace b /\
      count EvRecreateViewer evs' = 0%nat).
Proof.
  intros Ha mid Hd b. subst b.
  assert (Hm : _viewerDirty mid = true).
  { destruct Hd as [Hd|Hd]; [|exact Hd].
    by apply frame_update_dirty_kept, frame_begin_dirty_kept. }
  rewrite (frame_rebuilds_when_dirty k inp a Ha Hm). cbn [fst snd].
  split; [reflexivity|].
  apply rebuild_after_update.
  - subst mid. transitivity (frame_begin inp a); quiet_step.
  - subst mid. transitivity (frame_begin inp a); hand_step.
  - apply frame_update_queue.
  - subst mid. unchanged. apply frame_begin_realized.
Qed.


(** ** The tables stay consistent *)

(** *** Reading the display configuration *)

Lemma attached_views_elem a u :
  u ∈ attached_views a <-> exists w, u ∈ window_views a w.
Proof.
  unfold attached_views, window_views. split.
  - intros H. apply list_elem_of_In, in_flat_map in H as ([w vs] & Hp & Hu).
    apply list_elem_of_In, elem_of_map_to_list in Hp.
    exists w. rewrite Hp. by apply list_elem_of_In.
  - intros [w H].
    destruct (displayConfiguration a !! w) as [vs|] eqn:E;
      [|by apply elem_of_nil in H].
    apply list_elem_of_In, in_flat_map. exists (w, vs). split.
    + by apply list_elem_of_In, elem_of_map_to_list.
    + by apply list_elem_of_In.
Qed.

Lemma attached_iff a v : attached a v <-> v ∈ attached_views a.
Proof.
  rewrite attached_views_elem. unfold attached, window_views. split.
  - intros (w & vs & E & H). exists w. by rewrite E.
  - intros [w H]. destruct (displayConfiguration a !! w) as [vs|] eqn:E;
      [by exists w, vs|by apply elem_of_nil in H].
Qed.

Lemma window_views_insert a b w l w' :
  displayConfiguration b = <[w := l]> (displayConfiguration a) ->
  window_views b w' = if decide (w = w') then l else window_views a w'.
Proof.
  intros E. unfold window_views. rewrite E, lookup_insert.
  by destruct (decide (w = w')).
Qed.

Lemma window_views_same a b w :
  displayConfiguration b = displayConfiguration a ->
  window_views b w = window_views a w.
Proof. intros E. unfold window_views. by rewrite E. Qed.

Lemma commandGraph_children_same a b cg :
  commandGraphChildren b = commandGraphChildren a ->
  commandGraph_children b cg = commandGraph_children a cg.
Proof. intros E. unfold commandGraph_children. by rewrite E. Qed.

(** *** The relations between states *)

Global Instance same_tables_preorder : PreOrder same_tables.
Proof.
  split.
  - intros a. by repeat split.
  - intros a b c (?&?&?&?&?) (?&?&?&?&?). repeat split; congruence.
Qed.

Global Instance alloc_preorder : PreOrder alloc.
Proof.
  split.
  - intros a. split; [reflexivity|]. intros u H. by left.
  - intros a b c [Hab Vab] [Hbc Vbc]. split; [by transitivity b|].
    intros u Hu. unfold next_le in *.
    destruct (Vbc u Hu) as [Hb|Hb]; [|right; lia].
    destruct (Vab u Hb) as [Ha|Ha]; [by left|right; lia].
Qed.

Global Instance kept_preorder : PreOrder kept.
Proof.
  split.
  - intros a. split; reflexivity.
  - intros a b c [? ?] [? ?]. split; by transitivity b.
Qed.

Lemma alloc_of_preserves l a b :
  preserves l a b -> touched l FViews = false -> next_le a b -> alloc a b.
Proof.
  intros H Hv Hn. split; [exact Hn|]. intros u Hu. left.
  by rewrite <- (H FViews Hv).
Qed.

Lemma same_tables_of_preserves l a b :
  preserves l a b ->
  touched l FCommandGraphByWindow = false ->
  touched l FViewData = false ->
  touched l FDisplayConfiguration = false ->
  touched l FCommandGraphChildren = false ->
  touched l FRenderGraphs = false ->
  same_tables a b.
Proof.
  intros H H1 H2 H3 H4 H5. repeat split.
  - apply (H FCommandGraphByWindow H1).
  - apply (H FViewData H2).
  - apply (H FDisplayConfiguration H3).
  - apply (H FCommandGraphChildren H4).
  - apply (H FRenderGraphs H5).
Qed.

Lemma kept_of_preserves l a b :
  preserves l a b ->
  touched l FCommandGraphByWindow = false ->
  touched l FViewData = false ->
  touched l FDisplayConfiguration = false ->
  touched l FCommandGraphChildren = false ->
  touched l FRenderGraphs = false ->
  touched l FViews = false ->
  next_le a b ->
  kept a b.
Proof.
  intros H H1 H2 H3 H4 H5 H6 Hn. split.
  - by eapply same_tables_of_preserves.
  - by eapply alloc_of_preserves.
Qed.

Create HintDb kept discriminated.

#[export] Hint Extern 5 (kept _ _) =>
  (eapply kept_of_preserves;
   [solve [eauto 2 with pres]|reflexivity..|solve [eauto 2 with next]])
  : kept.

Ltac kept_step := solve [eauto 2 with kept].

Lemma create_View_kept cam kids a : kept a (create_View cam kids a).2.
Proof.
  split; [by repeat split|]. split; [next_step|].
  intros u. cbn. rewrite lookup_insert. destruct (decide (next_id a = u)).
  - intros _. right. lia.
  - by left.
Qed.
#[export] Hint Extern 1 (kept _ (snd (create_View _ _ _))) =>
  simple eapply create_View_kept : kept.

Lemma attach_scene_kept v a : kept a (attach_scene v a).
Proof.
  split; [eapply same_tables_of_preserves;
          [apply attach_scene_preserves|reflexivity..]|].
  split; [next_step|]. intros u Hu. left. revert Hu.
  unfold attach_scene. destruct (views a !! v) as [o|] eqn:E; [|done].
  destruct (children o); [|done]. fields_cbn.
  rewrite lookup_insert. destruct (decide (v = u)) as [<-|]; [by rewrite E|done].
Qed.
#[export] Hint Extern 1 (kept _ (attach_scene _ _)) =>
  simple eapply attach_scene_kept : kept.

Lemma addManipulator_kept w v a : kept a (addManipulator w v a).
Proof.
  split; [by repeat split|]. split; [next_step|].
  intros u. cbn. rewrite lookup_alter.
  destruct (decide (v = u)) as [<-|]; [|by left].
  intros [o Ho]. left. destruct (views a !! v); [done|discriminate].
Qed.
#[export] Hint Extern 1 (kept _ (addManipulator _ _ _)) =>
  simple eapply addManipulator_kept : kept.

Lemma setupViewer_kept a : kept a (setupViewer a).
Proof. cbv beta delta [setupViewer]. walk kept_step. Qed.
#[export] Hint Extern 1 (kept _ (setupViewer _)) =>
  simple eapply setupViewer_kept : kept.

Lemma recreateViewer_kept a : kept a (recreateViewer a).
Proof. cbv beta delta [recreateViewer]. walk kept_step. Qed.
#[export] Hint Extern 1 (kept _ (recreateViewer _)) =>
  simple eapply recreateViewer_kept : kept.

Lemma call_on_create_kept cb cg a : kept a (call_on_create cb cg a).
Proof. cbv beta delta [call_on_create]. walk kept_step. Qed.
#[export] Hint Extern 1 (kept _ (call_on_create _ _ _)) =>
  simple eapply call_on_create_kept : kept.

Lemma activateRenderGraph_kept rg w a : kept a (activateRenderGraph rg w a).
Proof. cbv beta delta [activateRenderGraph]. walk kept_step. Qed.
#[export] Hint Extern 1 (kept _ (activateRenderGraph _ _ _)) =>
  simple eapply activateRenderGraph_kept : kept.

Lemma create_Window_kept traits a : kept a (create_Window traits a).2.
Proof. cbv beta delta [create_Window]. walk kept_step. Qed.
#[export] Hint Extern 1 (kept _ (snd (create_Window _ _))) =>
  simple eapply create_Window_kept : kept.

Create HintDb alloc discriminated.

#[export] Hint Extern 5 (alloc _ _) =>
  (eapply alloc_of_preserves;
   [solve [eauto 2 with pres]|reflexivity|solve [eauto 2 with next]])
  : alloc.

Ltac alloc_step := solve [eauto 2 with alloc].

Lemma create_View_alloc cam kids a : alloc a (create_View cam kids a).2.
Proof. apply create_View_kept. Qed.
#[export] Hint Extern 1 (alloc _ (snd (create_View _ _ _))) =>
  simple eapply create_View_alloc : alloc.

Lemma attach_scene_alloc v a : alloc a (attach_scene v a).
Proof. apply attach_scene_kept. Qed.
#[export] Hint Extern 1 (alloc _ (attach_scene _ _)) =>
  simple eapply attach_scene_alloc : alloc.

Lemma addManipulator_alloc w v a : alloc a (addManipulator w v a).
Proof. apply addManipulator_kept. Qed.
#[export] Hint Extern 1 (alloc _ (addManipulator _ _ _)) =>
  simple eapply addManipulator_alloc : alloc.

Lemma create_Window_alloc traits a : alloc a (create_Window traits a).2.
Proof. apply create_Window_kept. Qed.
#[export] Hint Extern 1 (alloc _ (snd (create_Window _ _))) =>
  simple eapply create_Window_alloc : alloc.

Lemma addViewAfterViewerIsRealized_alloc w v cb f a :
  alloc a (addViewAfterViewerIsRealized w v cb f a).
Proof. cbv beta delta [addViewAfterViewerIsRealized]. walk alloc_step. Qed.
#[export] Hint Extern 1 (alloc _ (addViewAfterViewerIsRealized _ _ _ _ _)) =>
  simple eapply addViewAfterViewerIsRealized_alloc : alloc.

Lemma add_view_now_alloc w v cb a : alloc a (add_view_now w v cb a).2.
Proof. cbv beta delta [add_view_now]. walk alloc_step. Qed.
#[export] Hint Extern 1 (alloc _ (snd (add_view_now _ _ _ _))) =>
  simple eapply add_view_now_alloc : alloc.

Lemma addView_alloc w v cb a : alloc a (addView w v cb a).2.
Proof. cbv beta delta [addView]. walk alloc_step. Qed.
#[export] Hint Extern 1 (alloc _ (snd (addView _ _ _ _))) =>
  simple eapply addView_alloc : alloc.

Lemma add_first_view_alloc w v a : alloc a (add_first_view w v a).
Proof. cbv beta delta [add_first_view]. walk alloc_step. Qed.
#[export] Hint Extern 1 (alloc _ (add_first_view _ _ _)) =>
  simple eapply add_first_view_alloc : alloc.

Lemma setupViewer_alloc a : alloc a (setupViewer a).
Proof. apply setupViewer_kept. Qed.
#[export] Hint Extern 1 (alloc _ (setupViewer _)) =>
  simple eapply setupViewer_alloc : alloc.

Lemma recreateViewer_alloc a : alloc a (recreateViewer a).
Proof. apply recreateViewer_kept. Qed.
#[export] Hint Extern 1 (alloc _ (recreateViewer _)) =>
  simple eapply recreateViewer_alloc : alloc.

(** *** Reading the tables after a step *)

Ltac read_tables :=
  repeat (first
    [ progress unchanged
    | progress (cbn [fst snd])
    | progress (unfold remember_view, commandGraph_addChild,
                  create_RenderGraph, create_View, new_future, fresh)
    | progress fields_cbn ]).

Lemma add_view_now_attach w v cb a cg :
  _commandGraphByWindow a !! w = Some cg ->
  attach_tables w cg v (next_id a) a (add_view_now w v cb a).2 /\
  (next_id a < next_id (add_view_now w v cb a).2)%positive.
Proof.
  intros Hcg. cbv beta delta [add_view_now]. rewrite Hcg. cbv zeta.
  cbn [snd]. split.
  - unfold attach_tables, window_views, commandGraph_children.
    repeat split; read_tables; reflexivity.
  - read_tables. lia.
Qed.

Lemma add_view_now_same w v cb a :
  _commandGraphByWindow a !! w = None ->
  same_tables a (add_view_now w v cb a).2.
Proof.
  intros Hcg. cbv beta delta [add_view_now]. rewrite Hcg. cbv zeta.
  cbn [snd]. repeat split; read_tables; reflexivity.
Qed.

Lemma addViewAfterViewerIsRealized_attach w v cb f a cg :
  _commandGraphByWindow a !! w = Some cg ->
  attach_tables w cg v (next_id a) a (addViewAfterViewerIsRealized w v cb f a)
  /\ (next_id a < next_id (addViewAfterViewerIsRealized w v cb f a))%positive.
Proof.
  intros Hcg. cbv beta delta [addViewAfterViewerIsRealized].
  unfold getCommandGraph. cbv zeta. unchanged. rewrite Hcg. split.
  - unfold attach_tables, window_views, commandGraph_children.
    repeat split; read_tables; reflexivity.
  - pose proof (addManipulator_next_le w v
      (remember_view w v
         (create_RenderGraph w v (attach_scene v (deviceWaitIdle a))).1
         (activateRenderGraph
            (create_RenderGraph w v (attach_scene v (deviceWaitIdle a))).1 w
            (commandGraph_addChild cg
               (create_RenderGraph w v (attach_scene v (deviceWaitIdle a))).1
               (create_RenderGraph w v (attach_scene v (deviceWaitIdle a))).2))))
      as H.
    unfold next_le in H. revert H. read_tables. lia.
Qed.

Lemma addViewAfterViewerIsRealized_same w v cb f a :
  _commandGraphByWindow a !! w = None ->
  same_tables a (addViewAfterViewerIsRealized w v cb f a).
Proof.
  intros Hcg. cbv beta delta [addViewAfterViewerIsRealized].
  unfold getCommandGraph. cbv zeta. unchanged. rewrite Hcg.
  repeat split; read_tables; reflexivity.
Qed.

(** *** The invariant is kept by each kind of step *)

Lemma commandGraph_children_insert a b cg l cg' :
  commandGraphChildren b = <[cg := l]> (commandGraphChildren a) ->
  commandGraph_children b cg'
  = if decide (cg = cg') then l else commandGraph_children a cg'.
Proof.
  intros E. unfold commandGraph_children. rewrite E, lookup_insert.
  by destruct (decide (cg = cg')).
Qed.

Lemma commandGraph_children_alter a b cg (f : list RenderGraph -> list RenderGraph) cg' :
  f [] = [] ->
  commandGraphChildren b = alter f cg (commandGraphChildren a) ->
  commandGraph_children b cg'
  = if decide (cg = cg') then f (commandGraph_children a cg)
    else commandGraph_children a cg'.
Proof.
  intros Hf E. unfold commandGraph_children. rewrite E, lookup_alter.
  destruct (decide (cg = cg')) as [<-|]; [|done].
  by destruct (commandGraphChildren a !! cg).
Qed.

Lemma Forall2_filter_aligned {A B} (R : A -> B -> Prop)
    (P : A -> Prop) (Q : B -> Prop)
    `{!forall x, Decision (P x)} `{!forall y, Decision (Q y)} l k :
  Forall2 R l k ->
  (forall x y, x ∈ l -> R x y -> (P x <-> Q y)) ->
  Forall2 (fun x y => R x y /\ P x) (filter P l) (filter Q k).
Proof.
  induction 1 as [|x y l k Hxy _ IH]; intros Hal; [constructor|].
  rewrite !filter_cons.
  assert (IH' : Forall2 (fun x y => R x y /\ P x) (filter P l) (filter Q k)).
  { apply IH. intros x' y' Hx'. apply Hal. by constructor. }
  pose proof (Hal x y ltac:(constructor) Hxy) as Hpq.
  destruct (decide (P x)) as [Hp|Hp], (decide (Q y)) as [Hq|Hq];
    try tauto.
  by constructor.
Qed.

Lemma Forall2_linked_elem a w vs kids u :
  Forall2 (linked a w) vs kids -> u ∈ vs ->
  exists rg, rg ∈ kids /\ linked a w u rg.
Proof.
  induction 1 as [|x y l k Hxy _ IH]; intros Hu.
  - by apply elem_of_nil in Hu.
  - apply elem_of_cons in Hu as [->|Hu].
    + exists y. split; [constructor|done].
    + destruct (IH Hu) as (rg & Hrg & Hl). exists rg. split; [by constructor|done].
Qed.

Lemma Forall2_linked_elem_r a w vs kids rg :
  Forall2 (linked a w) vs kids -> rg ∈ kids ->
  exists u, u ∈ vs /\ linked a w u rg.
Proof.
  induction 1 as [|x y l k Hxy _ IH]; intros Hu.
  - by apply elem_of_nil in Hu.
  - apply elem_of_cons in Hu as [->|Hu].
    + exists x. split; [constructor|done].
    + destruct (IH Hu) as (u & Hin & Hl). exists u. split; [by constructor|done].
Qed.

(** A view is listed under one window only. *)
Lemma Inv_one_window a w w' v :
  Inv a -> v ∈ window_views a w -> v ∈ window_views a w' -> w = w'.
Proof.
  intros I Hw Hw'.
  assert (Hs : forall w0, v ∈ window_views a w0 ->
            exists cg rg, _commandGraphByWindow a !! w0 = Some cg /\
                          linked a w0 v rg).
  { intros w0 H0. unfold window_views in H0.
    destruct (displayConfiguration a !! w0) as [vs|] eqn:E;
      [|by apply elem_of_nil in H0].
    destruct (inv_dom a I w0 vs E) as [cg Hcg].
    pose proof (inv_link a I w0 cg Hcg) as F.
    unfold window_views in F. rewrite E in F.
    destruct (Forall2_linked_elem _ _ _ _ _ F H0) as (rg & _ & L).
    by exists cg, rg. }
  destruct (Hs w Hw) as (cg & rg & _ & [V R]).
  destruct (Hs w' Hw') as (cg' & rg' & _ & [V' R']).
  rewrite V in V'. injection V' as <-. rewrite R in R'. by injection R'.
Qed.

Lemma Inv_kept a b : Inv a -> kept a b -> Inv b.
Proof.
  intros I [(E1 & E2 & E3 & E4 & E5) [Hn Hv]]. unfold next_le in Hn.
  assert (Hw : forall w, window_views b w = window_views a w)
    by (intros w; by apply window_views_same).
  assert (Hc : forall cg, commandGraph_children b cg = commandGraph_children a cg)
    by (intros cg; by apply commandGraph_children_same).
  constructor.
  - intros w vs. rewrite E3, E1. apply (inv_dom a I).
  - intros w cg. rewrite E1, Hw, Hc. intros Hcg.
    eapply Forall2_impl; [apply (inv_link a I w cg Hcg)|].
    intros u r [? ?]. split; by rewrite ?E2, ?E5.
  - intros w. rewrite Hw. apply (inv_nodup a I).
  - intros w w' cg. rewrite E1. apply (inv_inj a I).
  - intros w cg. rewrite E1. intros H.
    destruct (inv_fresh_cg a I w cg H). lia.
  - intros rg o. rewrite E5. intros H.
    pose proof (inv_fresh_rg a I rg o H). lia.
  - intros v Hs. destruct (Hv v Hs) as [H|H]; [|lia].
    pose proof (inv_fresh_view a I v H). lia.
  - intros w v. rewrite Hw. intros H.
    pose proof (inv_fresh_attached a I w v H). lia.
  - intros v. rewrite E2. intros H.
    destruct (inv_vd a I v H) as [w Hin]. exists w. by rewrite Hw.
Qed.

Lemma Inv_attach a b w cg v rg :
  Inv a -> attach_tables w cg v rg a b -> alloc a b ->
  _commandGraphByWindow a !! w = Some cg ->
  v ∉ attached_views a ->
  (v < next_id a)%positive ->
  (next_id a <= rg)%positive -> (rg < next_id b)%positive ->
  Inv b.
Proof.
  intros I (E1 & E2 & E3 & E4 & E5) [Hn Hv] Hcg Hna Hvn Hrg Hrgb.
  unfold next_le in Hn.
  assert (Hw : forall w', window_views b w'
            = if decide (w = w') then window_views a w ++ [v]
              else window_views a w')
    by (intros w'; by apply window_views_insert).
  assert (Hc : forall cg', commandGraph_children b cg'
            = if decide (cg = cg') then commandGraph_children a cg ++ [rg]
              else commandGraph_children a cg')
    by (intros cg'; by apply commandGraph_children_insert).
  assert (Hnot : forall w', v ∉ window_views a w').
  { intros w' H. apply Hna, attached_views_elem. by exists w'. }
  assert (Hl : forall w' u r, linked a w' u r -> linked b w' u r).
  { intros w' u r [V R]. split.
    - rewrite E2, lookup_insert_ne; [done|]. intros <-.
      destruct (inv_vd a I v) as [w0 H0]; [by rewrite V|]. by apply (Hnot w0).
    - rewrite E5, lookup_insert_ne; [done|]. intros <-.
      pose proof (inv_fresh_rg a I _ _ R). lia. }
  constructor.
  - intros w' vs. rewrite E3, E1, lookup_insert.
    destruct (decide (w = w')) as [<-|]; [by rewrite Hcg|apply (inv_dom a I)].
  - intros w' cg'. rewrite E1, Hw, Hc. intros Hcg'.
    destruct (decide (w = w')) as [<-|Hne].
    + rewrite Hcg in Hcg'. injection Hcg' as <-. rewrite decide_True by done.
      apply Forall2_app.
      * eapply Forall2_impl; [apply (inv_link a I w cg Hcg)|]. apply Hl.
      * constructor; [|constructor]. split.
        -- by rewrite E2, lookup_insert_eq.
        -- by rewrite E5, lookup_insert_eq.
    + rewrite decide_False
        by (intros <-; apply Hne; by apply (inv_inj a I w w' cg)).
      eapply Forall2_impl; [apply (inv_link a I w' cg' Hcg')|]. apply Hl.
  - intros w'. rewrite Hw. destruct (decide (w = w')) as [<-|];
      [|apply (inv_nodup a I)].
    apply NoDup_app. split; [apply (inv_nodup a I)|]. split.
    + intros u Hu Hu'. apply list_elem_of_singleton in Hu' as ->.
      by apply (Hnot w).
    + apply NoDup_singleton.
  - intros w0 w' cg0. rewrite E1. apply (inv_inj a I).
  - intros w0 cg0. rewrite E1. intros H.
    destruct (inv_fresh_cg a I w0 cg0 H). lia.
  - intros r o. rewrite E5, lookup_insert.
    destruct (decide (rg = r)) as [<-|]; [done|].
    intros H. pose proof (inv_fresh_rg a I r o H). lia.
  - intros u Hs. destruct (Hv u Hs) as [H|H]; [|lia].
    pose proof (inv_fresh_view a I u H). lia.
  - intros w' u. rewrite Hw. destruct (decide (w = w')) as [<-|].
    + rewrite elem_of_app, list_elem_of_singleton. intros [H| ->]; [|lia].
      pose proof (inv_fresh_attached a I w u H). lia.
    + intros H. pose proof (inv_fresh_attached a I w' u H). lia.
  - intros u. rewrite E2, lookup_insert.
    destruct (decide (v = u)) as [<-|].
    + intros _. exists w. rewrite Hw, decide_True by done.
      apply elem_of_app. right. constructor.
    + intros H. destruct (inv_vd a I u H) as [w' Hin]. exists w'.
      rewrite Hw. destruct (decide (w = w')) as [<-|]; [|done].
      apply elem_of_app. by left.
Qed.

Lemma Inv_detach a b w cg v rg :
  Inv a -> detach_tables w cg v (Some rg) a b -> alloc a b ->
  _commandGraphByWindow a !! w = Some cg ->
  v ∈ window_views a w ->
  _viewData a !! v = Some {| parentRenderGraph := Some rg |} ->
  Inv b.
Proof.
  intros I (E1 & E2 & E3 & E4 & E5) [Hn Hv] Hcg Hin Hvd.
  unfold next_le in Hn.
  assert (Hw : forall w', window_views b w'
            = if decide (w = w')
              then filter (fun u => u <> v) (window_views a w)
              else window_views a w')
    by (intros w'; by apply window_views_insert).
  assert (Hc : forall cg', commandGraph_children b cg'
            = if decide (cg = cg')
              then filter (fun c => Some c <> Some rg)
                          (commandGraph_children a cg)
              else commandGraph_children a cg')
    by (intros cg'; by apply (commandGraph_children_alter a b cg _ cg')).
  assert (Hl : forall w' u r, u <> v -> linked a w' u r -> linked b w' u r).
  { intros w' u r Hu [V R]. split.
    - by rewrite E2, lookup_delete_ne.
    - by rewrite E5. }
  assert (Hrgv : renderGraphs a !! rg
                 = Some {| rg_window := w; rg_children := [v] |}).
  { destruct (Forall2_linked_elem _ _ _ _ _ (inv_link a I w cg Hcg) Hin)
      as (r & _ & [V R]).
    rewrite Hvd in V. by injection V as <-. }
  constructor.
  - intros w' vs. rewrite E3, E1, lookup_insert.
    destruct (decide (w = w')) as [<-|]; [by rewrite Hcg|apply (inv_dom a I)].
  - intros w' cg'. rewrite E1, Hw, Hc. intros Hcg'.
    destruct (decide (w = w')) as [<-|Hne].
    + rewrite Hcg in Hcg'. injection Hcg' as <-. rewrite decide_True by done.
      eapply Forall2_impl.
      * apply (Forall2_filter_aligned (linked a w)); [apply (inv_link a I w cg Hcg)|].
        intros u r _ [V R]. split.
        -- intros Hu Hr. injection Hr as ->. rewrite Hrgv in R.
           by injection R.
        -- intros Hr ->. rewrite Hvd in V. by injection V as ->.
      * intros u r [L Hu]. by apply Hl.
    + rewrite decide_False
        by (intros <-; apply Hne; by apply (inv_inj a I w w' cg)).
      pose proof (inv_link a I w' cg' Hcg') as F.
      assert (Hall : Forall (fun u => u <> v) (window_views a w')).
      { apply Forall_forall. intros u Hu ->. apply Hne.
        by apply (Inv_one_window a w w' v). }
      revert F Hall. generalize (window_views a w'), (commandGraph_children a cg').
      induction 1 as [|x y l k Hxy _ IH]; intros Hall; [constructor|].
      apply Forall_cons in Hall as [Hx Hall].
      constructor; [by apply Hl|by apply IH].
  - intros w'. rewrite Hw. destruct (decide (w = w')) as [<-|];
      [|apply (inv_nodup a I)].
    apply NoDup_filter, (inv_nodup a I).
  - intros w0 w' cg0. rewrite E1. apply (inv_inj a I).
  - intros w0 cg0. rewrite E1. intros H.
    destruct (inv_fresh_cg a I w0 cg0 H). lia.
  - intros r o. rewrite E5. intros H.
    pose proof (inv_fresh_rg a I r o H). lia.
  - intros u Hs. destruct (Hv u Hs) as [H|H]; [|lia].
    pose proof (inv_fresh_view a I u H). lia.
  - intros w' u. rewrite Hw. intros H.
    assert (u ∈ window_views a w').
    { destruct (decide (w = w')) as [<-|]; [|done].
      by apply list_elem_of_filter in H as [_ H]. }
    pose proof (inv_fresh_attached a I w' u H0). lia.
  - intros u. rewrite E2, lookup_delete.
    destruct (decide (v = u)) as [<-|Hne]; [by intros [? ?]|].
    intros H. destruct (inv_vd a I u H) as [w' Hu]. exists w'.
    rewrite Hw. destruct (decide (w = w')) as [<-|]; [|done].
    apply list_elem_of_filter. split; [congruence|done].
Qed.

Lemma Inv_window a b w cg :
  Inv a -> window_tables w cg a b -> alloc a b ->
  (next_id a <= w)%positive -> (next_id a <= cg)%positive ->
  (w < next_id b)%positive -> (cg < next_id b)%positive ->
  Inv b.
Proof.
  intros I (E1 & E2 & E3 & E4 & E5) [Hn Hv] Hw1 Hc1 Hw2 Hc2.
  unfold next_le in Hn.
  assert (Hw : forall w', window_views b w' = window_views a w')
    by (intros w'; by apply window_views_same).
  assert (Hc : forall cg', commandGraph_children b cg'
            = if decide (cg = cg') then [] else commandGraph_children a cg')
    by (intros cg'; by apply commandGraph_children_insert).
  assert (Hnew : window_views a w = []).
  { unfold window_views.
    destruct (displayConfiguration a !! w) as [vs|] eqn:E; [|done].
    destruct (inv_dom a I w vs E) as [cg0 H0].
    destruct (inv_fresh_cg a I w cg0 H0). lia. }
  constructor.
  - intros w' vs. rewrite E3, E1, lookup_insert. intros H.
    destruct (decide (w = w')); [done|by apply (inv_dom a I w' vs)].
  - intros w' cg'. rewrite E1, Hw, Hc, lookup_insert.
    destruct (decide (w = w')) as [<-|Hne].
    + intros [= <-]. rewrite decide_True by done. rewrite Hnew. constructor.
    + intros Hcg'. destruct (inv_fresh_cg a I w' cg' Hcg').
      rewrite decide_False by lia.
      eapply Forall2_impl; [apply (inv_link a I w' cg' Hcg')|].
      intros u r [? ?]. split; by rewrite ?E2, ?E5.
  - intros w'. rewrite Hw. apply (inv_nodup a I).
  - intros w0 w' cg0. rewrite E1, !lookup_insert.
    destruct (decide (w = w0)) as [<-|], (decide (w = w')) as [<-|]; try done.
    + intros [= <-] H. destruct (inv_fresh_cg a I w' cg H). lia.
    + intros H [= <-]. destruct (inv_fresh_cg a I w0 cg H). lia.
    + apply (inv_inj a I).
  - intros w0 cg0. rewrite E1, lookup_insert.
    destruct (decide (w = w0)) as [<-|].
    + intros [= <-]. done.
    + intros H. destruct (inv_fresh_cg a I w0 cg0 H). lia.
  - intros r o. rewrite E5. intros H.
    pose proof (inv_fresh_rg a I r o H). lia.
  - intros u Hs. destruct (Hv u Hs) as [H|H]; [|lia].
    pose proof (inv_fresh_view a I u H). lia.
  - intros w' u. rewrite Hw. intros H.
    pose proof (inv_fresh_attached a I w' u H). lia.
  - intros u. rewrite E2. intros H.
    destruct (inv_vd a I u H) as [w' Hu]. exists w'. by rewrite Hw.
Qed.

(** *** From the invariant to consistency *)

Lemma filter_unique {A} (P : A -> Prop) `{!forall x, Decision (P x)}
    (l : list A) (x : A) :
  NoDup l -> x ∈ l -> P x -> (forall y, y ∈ l -> P y -> y = x) ->
  filter P l = [x].
Proof.
  induction 1 as [|y l Hy Hnd IH]; intros Hx Px Hun.
  - by apply elem_of_nil in Hx.
  - rewrite filter_cons. apply elem_of_cons in Hx as [->|Hx].
    + rewrite decide_True by done. f_equal.
      destruct (filter P l) as [|z k] eqn:E; [done|].
      assert (Hz : z ∈ filter P l) by (rewrite E; constructor).
      apply list_elem_of_filter in Hz as [Pz Hz].
      assert (z = y) by (apply Hun; [by constructor|done]). by subst.
    + destruct (decide (P y)) as [Py|Py].
      * assert (y = x) by (apply Hun; [constructor|done]). by subst.
      * apply IH; [done..|]. intros z Hz. apply Hun. by constructor.
Qed.

Lemma entries_elem a w v :
  (w, v) ∈ entries a <-> v ∈ window_views a w /\
                         is_Some (displayConfiguration a !! w).
Proof.
  unfold entries, window_views. split.
  - intros H. apply list_elem_of_In, in_flat_map in H as ([w' vs] & Hp & Hu).
    apply list_elem_of_In, elem_of_map_to_list in Hp.
    apply list_elem_of_In, list_elem_of_fmap in Hu as (u & [= -> ->] & Hu).
    cbn in *. rewrite Hp. by split.
  - intros [H [vs E]]. rewrite E in H.
    apply list_elem_of_In, in_flat_map. exists (w, vs). split.
    + by apply list_elem_of_In, elem_of_map_to_list.
    + apply list_elem_of_In, list_elem_of_fmap. by exists v.
Qed.

Lemma NoDup_entries a :
  (forall w, NoDup (window_views a w)) -> NoDup (entries a).
Proof.
  intros Hnd. unfold entries.
  pose proof (NoDup_fst_map_to_list (displayConfiguration a)) as Hk.
  assert (Hv : forall p, p ∈ map_to_list (displayConfiguration a) -> NoDup p.2).
  { intros [w vs] Hp. apply elem_of_map_to_list in Hp.
    specialize (Hnd w). unfold window_views in Hnd. by rewrite Hp in Hnd. }
  revert Hk Hv. generalize (map_to_list (displayConfiguration a)).
  induction l as [|[w vs] l IH]; intros Hk Hv; [constructor|].
  cbn in *. apply NoDup_cons in Hk as [Hw Hk]. apply NoDup_app. split; [|split].
  - apply NoDup_fmap_2; [|apply (Hv (w, vs)); constructor].
    intros x y. congruence.
  - intros [w' u] H1 H2. apply list_elem_of_fmap in H1 as (u' & [= -> ->] & _).
    apply list_elem_of_In, in_flat_map in H2 as ([w2 vs2] & Hp & Hu).
    apply list_elem_of_In, list_elem_of_fmap in Hu as (u2 & [= -> ->] & _).
    apply Hw. apply list_elem_of_fmap. exists (w2, vs2).
    split; [done|by apply list_elem_of_In].
  - apply IH; [done|]. intros p Hp. apply Hv. by constructor.
Qed.

Lemma consistent_of_Inv a : Inv a -> consistent a.
Proof.
  intros I. split.
  - intros w vs v E Hv. destruct (inv_dom a I w vs E) as [cg Hcg].
    pose proof (inv_link a I w cg Hcg) as F.
    unfold window_views in F. rewrite E in F.
    destruct (Forall2_linked_elem _ _ _ _ _ F Hv) as (rg & Hrg & [V R]).
    by exists rg, cg.
  - intros w cg rg v Hcg Hrg Hview.
    destruct (Forall2_linked_elem_r _ _ _ _ _ (inv_link a I w cg Hcg) Hrg)
      as (u & Hu & [V R]).
    assert (u = v).
    { unfold renderGraph_view in Hview. rewrite R in Hview. cbn in Hview.
      destruct (views a !! u); congruence. }
    subst u. unfold entries_of. apply filter_unique.
    + apply NoDup_entries, (inv_nodup a I).
    + apply entries_elem. split; [done|].
      unfold window_views in Hu.
      destruct (displayConfiguration a !! w); [done|by apply elem_of_nil in Hu].
    + exact V.
    + intros [w' u] Hin Hvd. cbn in Hvd.
      apply entries_elem in Hin as [Hin [vs E]].
      destruct (inv_dom a I w' vs E) as [cg' Hcg'].
      destruct (Forall2_linked_elem _ _ _ _ _ (inv_link a I w' cg' Hcg') Hin)
        as (r & _ & [V' R']).
      rewrite Hvd in V'. injection V' as <-. rewrite R in R'.
      by injection R' as -> ->.
Qed.

(** *** The queue stays runnable *)

Lemma pending_ok_weaken a b q :
  pending_ok a q -> next_le a b ->
  (forall u, u ∈ attached_views b -> u ∈ pending_views q ->
             u ∈ attached_views a) ->
  pending_ok b q.
Proof.
  intros (Hops & Hnd & Hp) Hn Hsub. unfold next_le in Hn.
  split; [done|]. split; [done|].
  intros v Hv. destruct (Hp v Hv) as [Hna Hlt]. split; [|lia].
  intros Hb. apply Hna. by apply Hsub.
Qed.

Lemma pending_ok_kept a b q : pending_ok a q -> kept a b -> pending_ok b q.
Proof.
  intros Hp [(_ & _ & E3 & _) [Hn _]].
  apply (pending_ok_weaken a b q Hp Hn).
  intros u Hu _. unfold attached_views in *. by rewrite <- E3.
Qed.

Lemma pending_ok_attach a b q w cg v rg :
  pending_ok a q -> attach_tables w cg v rg a b -> next_le a b ->
  v ∉ pending_views q -> pending_ok b q.
Proof.
  intros Hp (_ & _ & E3 & _) Hn Hv.
  apply (pending_ok_weaken a b q Hp Hn).
  intros u Hu Hq. apply attached_views_elem in Hu as [w' Hu].
  rewrite (window_views_insert a b w _ w' E3) in Hu.
  apply attached_views_elem.
  destruct (decide (w = w')) as [<-|]; [|by exists w'].
  apply elem_of_app in Hu as [Hu|Hu]; [by exists w|].
  apply list_elem_of_singleton in Hu as ->. contradiction.
Qed.

Lemma pending_ok_detach a b q w cg v rg :
  pending_ok a q -> detach_tables w cg v rg a b -> next_le a b ->
  pending_ok b q.
Proof.
  intros Hp (_ & _ & E3 & _) Hn.
  apply (pending_ok_weaken a b q Hp Hn).
  intros u Hu _. apply attached_views_elem in Hu as [w' Hu].
  rewrite (window_views_insert a b w _ w' E3) in Hu.
  apply attached_views_elem.
  destruct (decide (w = w')) as [<-|]; [|by exists w'].
  apply list_elem_of_filter in Hu as [_ Hu]. by exists w.
Qed.

Lemma pending_ok_window a b q w cg :
  pending_ok a q -> window_tables w cg a b -> next_le a b -> pending_ok b q.
Proof.
  intros Hp (_ & _ & E3 & _) Hn.
  apply (pending_ok_weaken a b q Hp Hn).
  intros u Hu _. unfold attached_views in *. by rewrite <- E3.
Qed.

Lemma pending_views_app q1 q2 :
  pending_views (q1 ++ q2) = pending_views q1 ++ pending_views q2.
Proof. unfold pending_views. apply flat_map_app. Qed.

(** *** Tables read against an earlier state with the same tables *)

Lemma attach_tables_same a m b w cg v rg :
  same_tables a m -> attach_tables w cg v rg m b -> attach_tables w cg v rg a b.
Proof.
  intros (S1 & S2 & S3 & S4 & S5) (E1 & E2 & E3 & E4 & E5).
  unfold attach_tables, window_views, commandGraph_children in *.
  rewrite S1, S2, S3, S4, S5 in *. done.
Qed.

Lemma window_tables_same a m b w cg :
  same_tables a m -> window_tables w cg m b -> window_tables w cg a b.
Proof.
  intros (S1 & S2 & S3 & S4 & S5) (E1 & E2 & E3 & E4 & E5).
  unfold window_tables in *. rewrite S1, S2, S3, S4, S5 in *. done.
Qed.

(** *** Removing a view *)

Lemma remove_cases v a :
  Inv a ->
  kept a (remove v a) \/
  exists w cg rg,
    detach_tables w cg v (Some rg) a (remove v a) /\
    _commandGraphByWindow a !! w = Some cg /\
    v ∈ window_views a w /\
    _viewData a !! v = Some {| parentRenderGraph := Some rg |}.
Proof.
  intros I. cbv beta delta [remove]. cbv zeta.
  destruct (getWindow v (deviceWaitIdle a)) as [w|] eqn:Ew; [|left; walk kept_step].
  apply getWindow_Some in Ew as (vs & Edc & Hv).
  change (displayConfiguration (deviceWaitIdle a))
    with (displayConfiguration a) in Edc.
  unfold getCommandGraph.
  change (_commandGraphByWindow (deviceWaitIdle a))
    with (_commandGraphByWindow a).
  change (_viewData (deviceWaitIdle a)) with (_viewData a).
  destruct (_commandGraphByWindow a !! w) as [cg|] eqn:Ecg; [|left; walk kept_step].
  assert (Hin : v ∈ window_views a w) by (unfold window_views; by rewrite Edc).
  destruct (Forall2_linked_elem _ _ _ _ _ (inv_link a I w cg Ecg) Hin)
    as (rg & _ & [V R]).
  rewrite V. right. exists w, cg, rg. split; [|done].
  unfold detach_tables, window_views. repeat split; read_tables; reflexivity.
Qed.

Lemma remove_alloc v a : alloc a (remove v a).
Proof. alloc_step. Qed.

Lemma remove_good v a q :
  Inv a -> pending_ok a q -> Inv (remove v a) /\ pending_ok (remove v a) q.
Proof.
  intros I Hp. destruct (remove_cases v a I) as [K|(w & cg & rg & D & Hcg & Hin & Hvd)].
  - split; [by apply (Inv_kept a)|by apply (pending_ok_kept a)].
  - split.
    + by apply (Inv_detach a _ w cg v rg I D (remove_alloc v a)).
    + apply (pending_ok_detach a _ q w cg v (Some rg) Hp D), remove_alloc.
Qed.

(** *** Attaching a view *)

Lemma attach_good a b q w cg v rg :
  Inv a -> pending_ok a q ->
  attach_tables w cg v rg a b -> alloc a b ->
  _commandGraphByWindow a !! w = Some cg ->
  v ∉ attached_views a -> (v < next_id a)%positive ->
  v ∉ pending_views q ->
  (next_id a <= rg)%positive -> (rg < next_id b)%positive ->
  Inv b /\ pending_ok b q.
Proof.
  intros I Hp T A Hcg Hna Hlt Hnq H1 H2. split.
  - by apply (Inv_attach a b w cg v rg).
  - apply (pending_ok_attach a b q w cg v rg Hp T); [apply A|done].
Qed.

Lemma addViewAfterViewerIsRealized_good w v cb f a q :
  Inv a -> pending_ok a q ->
  v ∉ attached_views a -> (v < next_id a)%positive -> v ∉ pending_views q ->
  Inv (addViewAfterViewerIsRealized w v cb f a) /\
  pending_ok (addViewAfterViewerIsRealized w v cb f a) q.
Proof.
  intros I Hp Hna Hlt Hnq.
  destruct (_commandGraphByWindow a !! w) as [cg|] eqn:Hcg.
  - destruct (addViewAfterViewerIsRealized_attach w v cb f a cg Hcg) as [T Hn].
    apply (attach_good a _ q w cg v (next_id a));
      first [done | apply addViewAfterViewerIsRealized_alloc | lia].
  - assert (K : kept a (addViewAfterViewerIsRealized w v cb f a)).
    { split; [by apply addViewAfterViewerIsRealized_same|].
      apply addViewAfterViewerIsRealized_alloc. }
    split; [by apply (Inv_kept a)|by apply (pending_ok_kept a)].
Qed.

Lemma add_view_now_good w v cb a q :
  Inv a -> pending_ok a q ->
  v ∉ attached_views a -> (v < next_id a)%positive -> v ∉ pending_views q ->
  Inv (add_view_now w v cb a).2 /\ pending_ok (add_view_now w v cb a).2 q.
Proof.
  intros I Hp Hna Hlt Hnq.
  destruct (_commandGraphByWindow a !! w) as [cg|] eqn:Hcg.
  - destruct (add_view_now_attach w v cb a cg Hcg) as [T Hn].
    apply (attach_good a _ q w cg v (next_id a));
      first [done | apply add_view_now_alloc | lia].
  - assert (K : kept a (add_view_now w v cb a).2).
    { split; [by apply add_view_now_same|apply add_view_now_alloc]. }
    split; [by apply (Inv_kept a)|by apply (pending_ok_kept a)].
Qed.

(** *** Adding a window *)

Lemma add_first_view_attach w v a cg cam :
  _commandGraphByWindow a !! w = Some cg ->
  view_camera a v = Some cam ->
  exists rg,
    attach_tables w cg v rg a (add_first_view w v a) /\
    (next_id a <= rg)%positive /\
    (rg < next_id (add_first_view w v a))%positive.
Proof.
  intros Hcg Hcam. cbv beta delta [add_first_view].
  destruct (_viewerRealized a) eqn:Hr.
  - set (m := (new_future a).2).
    assert (Hm : kept a m) by (unfold m; kept_step).
    destruct (addViewAfterViewerIsRealized_attach w v None (new_future a).1
                m cg) as [T Hn].
    { unfold m. unchanged. exact Hcg. }
    exists (next_id m). split; [|split].
    + apply (attach_tables_same a m); [apply Hm|exact T].
    + destruct Hm as [_ [Hn' _]]. exact Hn'.
    + exact Hn.
  - unfold addView. rewrite Hcam, Hr.
    destruct (add_view_now_attach w v None a cg Hcg) as [T Hn].
    exists (next_id a). split; [exact T|]. split; [lia|exact Hn].
Qed.

(** Names the state or value bound by the outermost [let]. *)
Ltac name_let x :=
  lazymatch goal with
  | |- holds ?P (let y := ?e in @?B y) =>
      pose (x := e); change (holds P (B x)); cbv beta
  end.

Lemma create_Window_id traits a :
  (create_Window traits a).1 = next_id a /\
  (next_id a < next_id (create_Window traits a).2)%positive.
Proof.
  split; [reflexivity|].
  unfold create_Window. cbv zeta. cbn [snd]. unchanged.
  destruct (device traits); cbn; lia.
Qed.

Lemma add_window_good traits f a q :
  Inv a -> pending_ok a q ->
  Inv (add_window traits f a) /\ pending_ok (add_window traits f a) q.
Proof.
  intros I Hp.
  change (holds (fun b => Inv b /\ pending_ok b q) (add_window traits f a)).
  cbv beta delta [add_window].
  name_let a1. name_let res. name_let traits'. name_let window.
  name_let a2. name_let cg. name_let a3. name_let a4. name_let a5.
  name_let cam. name_let a6. name_let view. name_let a7. name_let a8.
  name_let a9. name_let a10. name_let a11. name_let a12. name_let a13.
  (* the identities handed out on the way *)
  destruct (create_Window_id traits' a1) as [Hw Hw2].
  fold window a2 in Hw, Hw2.
  assert (Hcg : cg = next_id a2) by reflexivity.
  assert (Hn3 : next_id a3 = Pos.succ (next_id a2)) by reflexivity.
  assert (Hview : view = next_id a6) by reflexivity.
  assert (Hn7 : next_id a7 = Pos.succ (next_id a6)) by reflexivity.
  assert (Hcam : view_camera a7 view = Some cam).
  { unfold view_camera, a7, create_View. cbn [snd]. fields_cbn.
    fold view. by rewrite lookup_insert_eq. }
  (* the steps *)
  assert (K1 : kept a a1) by (unfold a1; kept_step).
  assert (K2 : kept a1 a2) by (unfold a2; kept_step).
  assert (K3 : kept a2 a3) by (unfold a3; kept_step).
  assert (W : window_tables window cg a3 a5)
    by (unfold a5, a4; by repeat split).
  assert (A5 : alloc a3 a5)
    by (transitivity a4; [unfold a4|unfold a5]; alloc_step).
  assert (K6 : kept a5 a6) by (unfold a6; kept_step).
  assert (K7 : kept a6 a7) by (unfold a7; kept_step).
  assert (A8 : alloc a7 a8) by (unfold a8; apply add_first_view_alloc).
  assert (K9 : kept a8 a9) by (unfold a9; kept_step).
  assert (K10 : kept a9 a10) by (unfold a10; kept_step).
  assert (K11 : kept a10 a11) by (unfold a11; kept_step).
  assert (K12 : kept a11 a12) by (unfold a12; kept_step).
  assert (K13 : kept a12 a13)
    by (unfold a13; destruct (_viewerRealized a12); [kept_step|reflexivity]).
  assert (Hcg7 : _commandGraphByWindow a7 !! window = Some cg).
  { destruct K7 as [(E7 & _) _], K6 as [(E6 & _) _], W as (E5 & _).
    by rewrite E7, E6, E5, lookup_insert_eq. }
  destruct (add_first_view_attach window view a7 cg cam Hcg7 Hcam)
    as (rg & T & Hrg1 & Hrg2).
  fold a8 in T, Hrg2.
  clearbody a1 window a2 cg a3 a4 a5 cam a6 view a7 a8 a9 a10 a11 a12 a13.
  clear a4 traits' res.
  assert (K13' : kept a a3) by (transitivity a1; [done|by transitivity a2]).
  assert (Hn1 : next_le a a1) by apply K1.
  assert (Hn2 : next_le a3 a5) by apply A5.
  assert (Hn6 : next_le a5 a6) by apply K6.
  unfold next_le in Hn1, Hn2, Hn6.
  (* the window is registered *)
  assert (I1 : Inv a1) by (by apply (Inv_kept a)).
  assert (K13'' : kept a1 a3) by (by transitivity a2).
  assert (I5 : Inv a5).
  { apply (Inv_window a1 a5 window cg I1).
    - apply (window_tables_same a1 a3); [apply K13''|exact W].
    - transitivity a3; [apply K13''|exact A5].
    - lia.
    - lia.
    - lia.
    - lia. }
  assert (P5 : pending_ok a5 q).
  { apply (pending_ok_window a3 a5 q window cg); [|exact W|apply A5].
    by apply (pending_ok_kept a). }
  (* its first view is attached *)
  assert (K57 : kept a5 a7) by (by transitivity a6).
  assert (I7 : Inv a7) by (by apply (Inv_kept a5)).
  assert (P7 : pending_ok a7 q) by (by apply (pending_ok_kept a5)).
  assert (Hold : forall u, u ∈ attached_views a7 -> (u < next_id a)%positive).
  { intros u Hu. apply attached_views_elem in Hu as [w' Hu].
    apply (inv_fresh_attached a I w'). revert Hu.
    unfold window_views.
    destruct K57 as [(_ & _ & E7 & _) _], W as (_ & _ & E5 & _),
             K13' as [(_ & _ & E3 & _) _].
    by rewrite E7, E5, E3. }
  destruct (attach_good a7 a8 q window cg view rg I7 P7 T A8 Hcg7) as [I8 P8].
  { intros Hu. apply Hold in Hu. lia. }
  { lia. }
  { intros Hq. destruct Hp as (_ & _ & Hp). destruct (Hp view Hq). lia. }
  { exact Hrg1. }
  { exact Hrg2. }
  (* the rest leaves the tables alone *)
  assert (K : kept a8 a13).
  { transitivity a9; [done|]. transitivity a10; [done|].
    transitivity a11; [done|]. by transitivity a12. }
  assert (I13 : Inv a13) by (by apply (Inv_kept a8)).
  assert (P13 : pending_ok a13 q) by (by apply (pending_ok_kept a8)).
  unfold holds. destruct (_debuglayer a13); [|done].
  assert (Ke : kept a13 (emit (EvInstallDebugMessenger window) a13))
    by kept_step.
  split; [by apply (Inv_kept a13)|by apply (pending_ok_kept a13)].
Qed.

(** *** Steps that leave tables and queue alone *)

Global Instance calm_preorder : PreOrder calm.
Proof.
  split.
  - intros a. split; reflexivity.
  - intros a b c [K1 Q1] [K2 Q2]. split; [by transitivity b|congruence].
Qed.

Lemma calm_of_kept l a b :
  kept a b -> preserves l a b -> touched l FUpdateOperations = false ->
  calm a b.
Proof. intros K H Ht. split; [exact K|apply (H FUpdateOperations Ht)]. Qed.

Create HintDb calm discriminated.

#[export] Hint Extern 5 (calm _ _) =>
  (eapply calm_of_kept;
   [solve [eauto 2 with kept]|solve [eauto 2 with pres]|reflexivity])
  : calm.

Ltac calm_step := solve [eauto 2 with calm].

Lemma Good_calm a b : Good a -> calm a b -> Good b.
Proof.
  intros [I P] [K Q]. split; [by apply (Inv_kept a)|].
  rewrite Q. by apply (pending_ok_kept a).
Qed.

Lemma pending_ok_nil a : pending_ok a [].
Proof.
  split; [constructor|]. split; [constructor|].
  intros v Hv. by apply elem_of_nil in Hv.
Qed.

Lemma pending_views_cons op q :
  pending_views (op :: q) = pending_views [op] ++ pending_views q.
Proof. apply (pending_views_app [op] q). Qed.

Lemma pending_ok_tail a op q : pending_ok a (op :: q) -> pending_ok a q.
Proof.
  intros (Hops & Hnd & Hp). apply Forall_cons in Hops as [_ Hops].
  rewrite pending_views_cons in Hnd.
  setoid_rewrite pending_views_cons in Hp.
  apply NoDup_app in Hnd as (_ & _ & Hnd).
  split; [done|]. split; [done|].
  intros v Hv. apply Hp, elem_of_app. by right.
Qed.

Lemma pending_ok_snoc a op q :
  pending_ok a q ->
  match op with
  | OpRefreshView _ | OpAddPreRenderGraph _ _ => False
  | OpAddView _ v _ _ =>
      (v ∉ pending_views q) /\ (v ∉ attached_views a) /\
      (v < next_id a)%positive
  | _ => True
  end ->
  pending_ok a (q ++ [op]).
Proof.
  intros (Hops & Hnd & Hp) Hop. unfold pending_ok.
  rewrite pending_views_app.
  split; [|split].
  - apply Forall_app. split; [done|]. constructor; [|constructor].
    by destruct op.
  - destruct op; cbn; rewrite ?app_nil_r; try done.
    apply NoDup_app. split; [done|]. split; [|apply NoDup_singleton].
    intros u Hu Hu'. apply list_elem_of_singleton in Hu' as ->.
    by destruct Hop.
  - intros u Hu. apply elem_of_app in Hu as [Hu|Hu]; [by apply Hp|].
    destruct op; cbn in Hu; try by apply elem_of_nil in Hu.
    apply list_elem_of_singleton in Hu as ->. by destruct Hop as (_ & ? & ?).
Qed.

(** *** Running the queue *)

Lemma run_operation_good op a q :
  Inv a -> pending_ok a (op :: q) ->
  Inv (run_operation op a) /\ pending_ok (run_operation op a) q.
Proof.
  intros I P. pose proof (pending_ok_tail a op q P) as Pq.
  destruct P as (Hops & Hnd & Hp).
  apply Forall_cons in Hops as [Hop _].
  destruct op as [t f|w v cb f|v|v|w rg]; cbn [run_operation]; try contradiction.
  - by apply add_window_good.
  - change (pending_views (OpAddView w v cb f :: q))
      with (v :: pending_views q) in *.
    apply NoDup_cons in Hnd as [Hv _].
    destruct (Hp v ltac:(constructor)) as [Hna Hlt].
    by apply addViewAfterViewerIsRealized_good.
  - by apply remove_good.
Qed.

Lemma run_operations_good ops a :
  Inv a -> pending_ok a ops ->
  Inv (foldl (fun a op => run_operation op a) a ops).
Proof.
  revert a. induction ops as [|op ops IH]; intros a I P; simpl; [done|].
  destruct (run_operation_good op a ops I P) as [I' P']. by apply IH.
Qed.

Lemma viewer_update_good a : Good a -> Good (viewer_update a).
Proof.
  intros [I P]. split.
  - unfold viewer_update. apply run_operations_good.
    + apply (Inv_kept a); [done|]. kept_step.
    + apply (pending_ok_kept a); [done|]. kept_step.
  - rewrite viewer_update_queue. apply pending_ok_nil.
Qed.

(** *** The calls of a client *)

Lemma addWindow_good traits a : Good a -> Good (addWindow traits a).2.
Proof.
  intros G. unfold addWindow. destruct traits as [t|].
  - cbv zeta.
    assert (C : calm a (new_future a).2) by calm_step.
    pose proof (Good_calm _ _ G C) as [I P].
    change (_viewerRealized (new_future a).2) with (_viewerRealized a).
    destruct (_viewerRealized a); cbn [snd].
    + split.
      * apply (Inv_kept (new_future a).2); [done|]. kept_step.
      * unfold runDuringUpdate at 2. fields_cbn.
        apply pending_ok_snoc; [|done].
        apply (pending_ok_kept (new_future a).2); [done|]. kept_step.
    + destruct (add_window_good t (new_future a).1 (new_future a).2
                  (updateOperations (new_future a).2) I P) as [I' P'].
      split; [done|]. revert P'. unchanged. done.
  - apply (Good_calm a); [done|]. walk calm_step.
Qed.

Lemma addView_good w v cb a :
  Good a -> call_ok a (AddView w v cb) = true -> Good (addView w v cb a).2.
Proof.
  intros G Hok. unfold addView.
  destruct w as [w|]; [|apply (Good_calm a); [done|walk calm_step]].
  destruct v as [v|]; [|apply (Good_calm a); [done|walk calm_step]].
  destruct (view_camera a v) as [cam|] eqn:Hc;
    [|apply (Good_calm a); [done|walk calm_step]].
  cbn [call_ok] in Hok. apply andb_prop in Hok as [Hna Hnq].
  apply bool_decide_eq_true in Hna, Hnq.
  destruct G as [I P].
  assert (Hlt : (v < next_id a)%positive).
  { apply (inv_fresh_view a I). unfold view_camera in Hc.
    destruct (views a !! v); [done|discriminate]. }
  destruct (_viewerRealized a).
  - cbv zeta. cbn [snd].
    assert (K : kept a (new_future a).2) by kept_step.
    split.
    + apply (Inv_kept (new_future a).2); [by apply (Inv_kept a)|]. kept_step.
    + unfold runDuringUpdate at 2. fields_cbn.
      change (updateOperations (new_future a).2) with (updateOperations a).
      apply pending_ok_snoc.
      * apply (pending_ok_kept a); [done|].
        transitivity (new_future a).2; kept_step.
      * split; [done|]. split.
        -- unfold attached_views. by unchanged.
        -- unchanged. cbn. lia.
  - destruct (add_view_now_good w v cb a (updateOperations a) I P Hna Hlt Hnq)
      as [I' P'].
    split; [done|]. revert P'. unchanged. done.
Qed.

Lemma removeView_good v a : Good a -> Good (removeView v a).
Proof.
  intros G. unfold removeView.
  destruct v as [v|]; [|apply (Good_calm a); [done|calm_step]].
  destruct G as [I P]. destruct (_viewerRealized a).
  - split; [apply (Inv_kept a); [done|kept_step]|].
    unfold runDuringUpdate. fields_cbn. apply pending_ok_snoc; [|done].
    apply (pending_ok_kept a); [done|]. kept_step.
  - destruct (remove_good v a (updateOperations a) I P) as [I' P'].
    split; [done|]. revert P'. unchanged. done.
Qed.

Lemma realize_good a : Good a -> Good (realize a).
Proof.
  intros G. cbv beta delta [realize].
  destruct (_viewerRealized a) eqn:Hr; [done|].
  assert (G1 : Good match viewer_windows a with
                    | [] => (addWindow (Some main_window_traits) a).2
                    | _ :: _ => a
                    end)
    by (destruct (viewer_windows a); [by apply addWindow_good|done]).
  revert G1. generalize (match viewer_windows a with
                    | [] => (addWindow (Some main_window_traits) a).2
                    | _ :: _ => a
                    end).
  intros b Gb. cbv zeta.
  apply (Good_calm b); [done|]. walk calm_step.
Qed.

Lemma frame_good k inp a : Good a -> Good (frame k inp a).2.
Proof.
  intros G.
  assert (G0 : Good (frame_begin inp a)).
  { unfold frame_begin.
    apply (Good_calm (if _viewerRealized a then a else realize a)).
    - destruct (_viewerRealized a); [done|by apply realize_good].
    - calm_step. }
  cbv beta delta [frame]. cbv zeta.
  revert G0. generalize (frame_begin inp a). intros b Gb.
  destruct (advance inp); [|done].
  assert (Gm : Good (frame_update b)).
  { unfold frame_update. cbv zeta.
    apply (Good_calm (viewer_update
             (emit EvHandleEvents
                match
                  updateFunction (emit EvEcsUpdate (emit EvMapNodeUpdate b))
                with
                | Some cb =>
                    emit (EvUserUpdate cb)
                      (emit EvEcsUpdate (emit EvMapNodeUpdate b))
                | None => emit EvEcsUpdate (emit EvMapNodeUpdate b)
                end))); [|calm_step].
    apply viewer_update_good. apply (Good_calm b); [done|].
    destruct (updateFunction _); walk calm_step. }
  revert Gm. generalize (frame_update b). intros m Gm.
  destruct (_viewerDirty m); cbn [snd].
  - apply (Good_calm m); [done|]. walk calm_step.
  - apply (Good_calm m); [done|]. walk calm_step.
Qed.

Lemma step_good k c a : Good a -> call_ok a c = true -> Good (step k c a).
Proof.
  intros G Hok. destruct c; cbn [step]; try discriminate.
  - apply (Good_calm a); [done|calm_step].
  - by apply addWindow_good.
  - by apply addView_good.
  - by apply removeView_good.
  - by apply realize_good.
  - by apply frame_good.
Qed.

Lemma steps_good k cs a : Good a -> run_ok k a cs = true -> Good (steps k cs a).
Proof.
  unfold steps. revert a. induction cs as [|c cs IH]; intros a G Hok; [done|].
  simpl in *. apply andb_prop in Hok as [Hc Hcs].
  apply IH; [by apply step_good|done].
Qed.

Lemma Good_new debug api vsync : Good (Application_new debug api vsync).
Proof.
  split; [|apply pending_ok_nil].
  constructor; unfold window_views; cbn.
  - intros w vs H. by rewrite lookup_empty in H.
  - intros w cg H. by rewrite lookup_empty in H.
  - intros w. rewrite lookup_empty. constructor.
  - intros w w' cg H. by rewrite lookup_empty in H.
  - intros w cg H. by rewrite lookup_empty in H.
  - intros rg o H. by rewrite lookup_empty in H.
  - intros v [o H]. by rewrite lookup_empty in H.
  - intros w v. rewrite lookup_empty. intros H. by apply elem_of_nil in H.
  - intros v [o H]. by rewrite lookup_empty in H.
Qed.

(** C1 (amended). Take any run of a client that adds windows, makes views,
    adds and removes them and runs frames, and that hands [addView] only
    views that are neither attached nor already waiting in the queue to be
    attached.  After each call the display configuration and the
    command-graph registry are consistent: every view listed under a window
    has its recorded render graph among the children of that window's command
    graph, and every view-bearing child of a registered command graph belongs
    to exactly one entry of the display configuration, the one of its window
    and view. *)
Theorem tables_stay_consistent (k : Z) (debug api vsync : bool)
    (cs : list Call) :
  run_ok k (Application_new debug api vsync) cs = true ->
  consistent (steps k cs (Application_new debug api vsync)).
Proof.
  intros Hok. apply consistent_of_Inv.
  by apply (steps_good k cs _ (Good_new debug api vsync) Hok).
Qed.

(** ** The properties at sample inputs *)

Lemma tables_stay_consistent_witness :
  consistent (steps 1000 sample_run (Application_new false false true)).
Proof.
  apply (tables_stay_consistent 1000 false false true sample_run).
  vm_compute. reflexivity.
Defined.

(** C1 as stated fails: nothing stops a client from adding a view that is
    attached already; the command graph then has a child that carries the
    view but is recorded for no entry of the display configuration. *)
Lemma repeated_addView_breaks_consistency : ~ consistent added_twice.
Proof.
  intros [_ Hb].
  specialize (Hb 9%positive 11%positive 14%positive 13%positive).
  assert (E : commandGraph_children added_twice 11 = [14%positive; 17%positive])
    by (vm_compute; reflexivity).
  rewrite E in Hb.
  assert (H : entries_of added_twice 14 = [(9%positive, 13%positive)]).
  { apply Hb.
    - vm_compute. reflexivity.
    - constructor.
    - vm_compute. reflexivity. }
  vm_compute in H. discriminate H.
Qed.

Lemma addView_future_timing_witness :
  let r := addView (Some 9%positive) (Some 18%positive) None
             realized_with_view in
  (_viewerRealized realized_with_view = false ->
   future_value r.2 r.1 = Some 18%positive) /\
  (_viewerRealized realized_with_view = true ->
   future_value r.2 r.1 = None /\
   forall cs, forallb not_draining cs = true ->
     future_value (steps 1000 cs r.2) r.1 = None /\
     forall inp, advance inp = true ->
       future_value (frame 1000 inp (steps 1000 cs r.2)).2 r.1
       = Some 18%positive).
Proof.
  apply (addView_future_timing 1000 realized_with_view 9 18 100 None).
  vm_compute. reflexivity.
Defined.

Lemma dirty_frame_rebuilds_once_witness :
  let mid := frame_update (frame_begin sample_input window_requested) in
  let b := (frame 1000 sample_input window_requested).2 in
  (frame 1000 sample_input window_requested).1 = true /\
  (exists evs, trace b = evs ++ trace window_requested /\
               count EvRecreateViewer evs = 1%nat /\
               count EvRecordAndSubmit evs = 0%nat /\
               count EvPresent evs = 0%nat) /\
  _viewerDirty b = false /\
  eventHandlers b = eventHandlers mid ++ [Some (CloseHandler (next_id mid))] /\
  handlers_kept window_requested b /\
  (forall inp', exists evs',
      trace (frame 1000 inp' b).2 = evs' ++ trace b /\
      count EvRecreateViewer evs' = 0%nat).
Proof.
  apply (dirty_frame_rebuilds_once 1000 sample_input window_requested).
  - reflexivity.
  - right. vm_compute. reflexivity.
Defined.

Lemma precondition_violation_is_harmless_witness :
  tables_unchanged with_cameraless_view
    (step 1000 (AddView (Some 9%positive) (Some 17%positive) None)
       with_cameraless_view) /\
  futures (addView (Some 9%positive) (Some 17%positive) None
             with_cameraless_view).2
    !! (addView (Some 9%positive) (Some 17%positive) None
          with_cameraless_view).1 = Some None.
Proof.
  apply (precondition_violation_is_harmless 1000 with_cameraless_view
           (AddView (Some 9%positive) (Some 17%positive) None)).
  vm_compute. reflexivity.
Defined.

Lemma addView_without_command_graph_witness :
  let r := addView (Some 50%positive) (Some 8%positive) (Some 77%positive)
             unrealized_with_view in
  future_value r.2 r.1 = Some 8%positive /\
  trace r.2 = EvOnCreate 77 None :: trace unrealized_with_view /\
  tables_unchanged unrealized_with_view r.2.
Proof.
  apply (addView_without_command_graph unrealized_with_view 50 8 100 77).
  - vm_compute. reflexivity.
  - vm_compute. reflexivity.
  - vm_compute. reflexivity.
Defined.

(** * Further properties *)

(** ** The window of a view *)

Lemma getWindow_attached a v : getWindow v a = None -> ~ attached a v.
Proof.
  unfold getWindow. intros H (w & vs & E & Hv).
  apply fmap_None in H.
  pose proof (find_none _ _ H (w, vs)) as Hf. cbn in Hf.
  rewrite bool_decide_eq_false in Hf. apply Hf; [|done].
  apply list_elem_of_In, elem_of_map_to_list, E.
Qed.

(** X1. [getWindow] answers with a window that lists the view, and answers
    with the null window exactly when no window of the display configuration
    lists the view. *)
Theorem getWindow_lists_the_view (a : Application) (v : View) :
  (forall w, getWindow v a = Some w -> v ∈ window_views a w) /\
  (getWindow v a = None <-> ~ attached a v).
Proof.
  split.
  - intros w H. apply getWindow_Some in H as (vs & E & Hv).
    unfold window_views. by rewrite E.
  - split; [apply getWindow_attached|apply getWindow_None].
Qed.

Lemma window_views_attached a w v : v ∈ window_views a w -> attached a v.
Proof.
  unfold window_views. intros H.
  destruct (displayConfiguration a !! w) as [vs|] eqn:E.
  - by exists w, vs.
  - by apply elem_of_nil in H.
Qed.

Lemma getWindow_unique a v w :
  Inv a -> v ∈ window_views a w -> getWindow v a = Some w.
Proof.
  intros I Hv. destruct (getWindow v a) as [w'|] eqn:E.
  - apply getWindow_Some in E as (vs & E & Hv').
    f_equal. apply (Inv_one_window a w' w v I); [|done].
    unfold window_views. by rewrite E.
  - destruct (getWindow_attached a v E). by apply (window_views_attached a w).
Qed.

(** X2. Take a client that only adds windows, makes views, adds and removes
    views, realizes and runs frames, and that never hands [addView] a view
    that is attached or is waiting in the queue to be attached.  In every
    state such a client reaches from a new application, no window lists a
    view twice and no view is listed under two windows, so that [getWindow]
    answers with a window exactly when that window lists the view. *)
Theorem getWindow_of_reachable_state (k : Z) (debug api vsync : bool)
    (cs : list Call) (v : View) (w : Window) :
  run_ok k (Application_new debug api vsync) cs = true ->
  let a := steps k cs (Application_new debug api vsync) in
  NoDup (window_views a w) /\
  (forall w', v ∈ window_views a w -> v ∈ window_views a w' -> w = w') /\
  (getWindow v a = Some w <-> v ∈ window_views a w).
Proof.
  intros Hok a.
  destruct (steps_good k cs _ (Good_new debug api vsync) Hok) as [I _].
  fold a in I. split; [apply (inv_nodup a I)|]. split.
  - intros w'. apply (Inv_one_window a w w' v I).
  - split; [|by apply getWindow_unique].
    intros H. apply getWindow_Some in H as (vs & E & Hv).
    unfold window_views. by rewrite E.
Qed.

Lemma getWindow_of_reachable_state_witness :
  let a := steps 1000 sample_run (Application_new false false true) in
  NoDup (window_views a 9%positive) /\
  (forall w', 21%positive ∈ window_views a 9%positive ->
              21%positive ∈ window_views a w' -> 9%positive = w') /\
  (getWindow 21%positive a = Some 9%positive
   <-> 21%positive ∈ window_views a 9%positive).
Proof.
  apply (getWindow_of_reachable_state 1000 false false true sample_run
           21%positive 9%positive).
  vm_compute. reflexivity.
Defined.

(** ** Flags and queue outside the frame loop *)

Global Instance unrealized_kept_preorder : PreOrder unrealized_kept.
Proof.
  split.
  - intros a. by split.
  - intros a b c [R1 K1] [R2 K2]. split; [congruence|].
    intros Hr. destruct (K1 Hr) as [D1 Q1].
    destruct K2 as [D2 Q2]; [congruence|]. split; congruence.
Qed.

Lemma unrealized_kept_of_preserves l a b :
  preserves l a b -> touched l FRealized = false ->
  touched l FDirty = false -> touched l FUpdateOperations = false ->
  unrealized_kept a b.
Proof.
  intros H Hr Hd Hq. split; [apply (H FRealized Hr)|]. intros _.
  split; [apply (H FDirty Hd)|apply (H FUpdateOperations Hq)].
Qed.

Create HintDb unrealized discriminated.

#[export] Hint Extern 5 (unrealized_kept _ _) =>
  (eapply unrealized_kept_of_preserves;
   [solve [eauto 2 with pres]|reflexivity..]) : unrealized.

Ltac unrealized_step := solve [eauto 2 with unrealized].

(** Raising the dirty flag of a realized viewer. *)
Lemma set_viewerDirty_unrealized_kept x a :
  _viewerRealized a = true -> unrealized_kept a (set_viewerDirty x a).
Proof. intros Hr. split; [reflexivity|]. intros Hf. congruence. Qed.
#[export] Hint Extern 1 (unrealized_kept _ (set_viewerDirty _ _)) =>
  (simple eapply set_viewerDirty_unrealized_kept; eassumption) : unrealized.

Lemma add_window_unrealized_kept traits f a :
  unrealized_kept a (add_window traits f a).
Proof. cbv beta delta [add_window]. walk unrealized_step. Qed.

(** A call other than [realize()] and [frame()] made before realization
    leaves the dirty flag and the queue as they are. *)
Lemma step_before_realization k c a :
  realizes c = false -> _viewerRealized a = false ->
  _viewerDirty (step k c a) = _viewerDirty a /\
  updateOperations (step k c a) = updateOperations a.
Proof.
  intros Hc Hr.
  destruct c as [cam kids|t|w v cb|v|v|w rg| |inp]; cbn [step]; try discriminate.
  - split; unchanged; reflexivity.
  - unfold addWindow. destruct t as [t|]; [|split; unchanged; reflexivity].
    cbv zeta. change (_viewerRealized (new_future a).2) with (_viewerRealized a).
    rewrite Hr. cbn [snd].
    destruct (add_window_unrealized_kept t (new_future a).1 (new_future a).2)
      as [_ H].
    destruct H as [Hd Hq]; [exact Hr|]. rewrite Hd, Hq. split; reflexivity.
  - unfold addView. destruct w as [w|]; [|split; unchanged; reflexivity].
    destruct v as [v|]; [|split; unchanged; reflexivity].
    destruct (view_camera a v); [|split; unchanged; reflexivity].
    rewrite Hr. split; unchanged; reflexivity.
  - unfold removeView. destruct v as [v|]; [|split; unchanged; reflexivity].
    rewrite Hr. split; unchanged; reflexivity.
  - unfold refreshView. rewrite Hr. split; unchanged; reflexivity.
  - unfold addPreRenderGraph. rewrite Hr. split; unchanged; reflexivity.
Qed.

(** A call other than [frame()] never touches the dirty flag. *)
Lemma step_dirty k c a :
  match c with Frame _ => False | _ => True end ->
  _viewerDirty (step k c a) = _viewerDirty a.
Proof.
  intros Hc. destruct (_viewerRealized a) eqn:Hr.
  - destruct c as [cam kids|t|w v cb|v|v|w rg| |inp]; cbn [step];
      try contradiction.
    + unchanged; reflexivity.
    + unfold addWindow. destruct t as [t|]; [|unchanged; reflexivity].
      cbv zeta.
      change (_viewerRealized (new_future a).2) with (_viewerRealized a).
      rewrite Hr. cbn [snd]. unchanged. reflexivity.
    + unchanged. reflexivity.
    + unchanged. reflexivity.
    + unchanged. reflexivity.
    + unchanged. reflexivity.
    + unfold realize. by rewrite Hr.
  - destruct c as [cam kids|t|w v cb|v|v|w rg| |inp];
      try contradiction;
      try (by apply step_before_realization).
    cbn [step]. cbv beta delta [realize]. rewrite Hr. cbv zeta. unchanged.
    destruct (viewer_windows a); [|reflexivity].
    by apply (step_before_realization k (AddWindow (Some main_window_traits))).
Qed.

Lemma frame_clears_dirty k inp a :
  _viewerDirty a = false -> _viewerDirty (frame k inp a).2 = false.
Proof.
  intros Hd.
  assert (H0 : _viewerDirty (frame_begin inp a) = false).
  { unfold frame_begin. unchanged.
    destruct (_viewerRealized a); [exact Hd|].
    exact (eq_trans (step_dirty k Realize a I) Hd). }
  cbv beta delta [frame]. cbv zeta.
  revert H0. generalize (frame_begin inp a). intros b H0.
  destruct (advance inp); [|exact H0].
  generalize (frame_update b). intros m.
  destruct (_viewerDirty m) eqn:Hm; cbn [snd].
  - unchanged. reflexivity.
  - unchanged. exact Hm.
Qed.

(** X3. The dirty flag is private to [frame()]: whatever calls a client
    makes on an application whose flag is down, nulls and wrong arguments
    included, the flag is down again when each call returns, [frame()]
    included. *)
Theorem dirty_flag_is_down_between_calls (k : Z) (cs : list Call)
    (a : Application) :
  _viewerDirty a = false -> _viewerDirty (steps k cs a) = false.
Proof.
  unfold steps. revert a. induction cs as [|c cs IH]; intros a Hd; [exact Hd|].
  simpl. apply IH.
  destruct c as [cam kids|t|w v cb|v|v|w rg| |inp];
    try (rewrite step_dirty; [exact Hd|exact I]).
  by apply frame_clears_dirty.
Qed.

Lemma dirty_flag_is_down_between_calls_witness :
  _viewerDirty (steps 1000 sample_run (Application_new true false true))
  = false.
Proof.
  apply (dirty_flag_is_down_between_calls 1000 sample_run
           (Application_new true false true)).
  reflexivity.
Defined.

(** X4. Nothing is queued before realization: as long as no call has run
    [realize()] or [frame()], the queue of deferred operations is the one
    the calls started from, whatever [addWindow], [addView], [removeView],
    [refreshView] and [addPreRenderGraph] calls were made. *)
Theorem nothing_queued_before_realization (k : Z) (cs : list Call)
    (a : Application) :
  _viewerRealized (steps k cs a) = false ->
  updateOperations (steps k cs a) = updateOperations a.
Proof.
  unfold steps. revert a. induction cs as [|c cs IH]; intros a Hr; [done|].
  simpl in *.
  pose proof Hr as Hr'. fold (steps k cs (step k c a)) in Hr'.
  rewrite steps_realized, step_realized in Hr'.
  apply orb_false_elim in Hr' as [Hr' _].
  apply orb_false_elim in Hr' as [Ha Hc].
  rewrite (IH _ Hr). by apply step_before_realization.
Qed.

Lemma nothing_queued_before_realization_witness :
  updateOperations
    (steps 1000
       [AddWindow (Some main_window_traits); CreateView (Some 100%positive) [];
        AddView (Some 9%positive) (Some 17%positive) None;
        RemoveView (Some 13%positive); RefreshView (Some 17%positive)]
       (Application_new false false true))
  = updateOperations (Application_new false false true).
Proof.
  apply (nothing_queued_before_realization 1000
           [AddWindow (Some main_window_traits);
            CreateView (Some 100%positive) [];
            AddView (Some 9%positive) (Some 17%positive) None;
            RemoveView (Some 13%positive); RefreshView (Some 17%positive)]
           (Application_new false false true)).
  vm_compute. reflexivity.
Defined.

(** ** Statistics of frames that end early *)

(** X5. A [frame()] that ends before the statistics step — the viewer has no
    next frame, or the viewer is rebuilt — leaves the statistics of the last
    completed frame in place. *)
Theorem early_frame_keeps_statistics (k : Z) (inp : FrameInput)
    (a : Application) :
  reaches_statistics inp a = false ->
  stats (frame k inp a).2 = stats a.
Proof.
  unfold reaches_statistics. intros H.
  assert (H0 : stats (frame_begin inp a) = stats a) by (unchanged; reflexivity).
  cbv beta delta [frame]. cbv zeta.
  revert H H0. generalize (frame_begin inp a). intros b H H0.
  destruct (advance inp); [|exact H0].
  assert (H1 : stats (frame_update b) = stats b) by (unchanged; reflexivity).
  revert H H1. generalize (frame_update b). intros m H H1.
  destruct (_viewerDirty m); [|discriminate].
  cbn [snd]. unchanged. congruence.
Qed.

Lemma early_frame_keeps_statistics_witness :
  stats (frame 1000 stalled_input
           (frame 1000 sample_input (Application_new false false true)).2).2
  = stats (frame 1000 sample_input (Application_new false false true)).2.
Proof.
  apply (early_frame_keeps_statistics 1000 stalled_input
           (frame 1000 sample_input (Application_new false false true)).2).
  vm_compute. reflexivity.
Defined.

(** ** [refreshView] *)

Lemma consistent_same a b :
  displayConfiguration b = displayConfiguration a ->
  _viewData b = _viewData a ->
  _commandGraphByWindow b = _commandGraphByWindow a ->
  commandGraphChildren b = commandGraphChildren a ->
  renderGraphs b = renderGraphs a ->
  views b = views a ->
  consistent a -> consistent b.
Proof.
  intros E1 E2 E3 E4 E5 E6.
  unfold consistent, entries_of, entries, commandGraph_children,
    renderGraph_view.
  by rewrite E1, E2, E3, E4, E5, E6.
Qed.

(** An empty bookkeeping entry for a view that had none does not disturb
    the agreement of the tables. *)
Lemma consistent_empty_entry a v :
  _viewData a !! v = None -> consistent a ->
  consistent (set_viewData
                (<[v := {| parentRenderGraph := None |}]> (_viewData a)) a).
Proof.
  intros Hv [Ha Hb]. split.
  - intros w vs u Hw Hu. fields_cbn.
    destruct (Ha w vs u Hw Hu) as (rg & cg & Hvd & Hcg & Hin).
    exists rg, cg. split; [|done].
    rewrite lookup_insert_ne; [done|]. intros ->. congruence.
  - intros w cg rg u Hcg Hin Hrv.
    rewrite <- (Hb w cg rg u Hcg Hin Hrv).
    unfold entries_of. fields_cbn. apply list_filter_iff. intros [w' u'].
    cbn [snd]. destruct (decide (v = u')) as [<-|Hne].
    + rewrite lookup_insert_eq, Hv. split; discriminate.
    + by rewrite lookup_insert_ne.
Qed.

(** X6. [refresh] keeps the display configuration and the command-graph
    registry consistent, whatever view it is given: a null view, a view that
    is attached, or a view it has no bookkeeping for (for which the table
    access leaves an empty entry behind). *)
Theorem refresh_keeps_consistency (a : Application) (view : option View) :
  consistent a -> consistent (refresh view a).
Proof.
  intros C. destruct view as [v|]; cbn [refresh].
  - cbv zeta. destruct (_viewData a !! v) as [vd|] eqn:Hv;
      cbn [from_option id].
    + rewrite insert_id by exact Hv.
      apply (consistent_same a); [| | | | | |exact C];
        destruct (parentRenderGraph vd); reflexivity.
    + cbn [parentRenderGraph].
      apply (consistent_same
               (set_viewData
                  (<[v := {| parentRenderGraph := None |}]> (_viewData a)) a));
        try reflexivity.
      by apply consistent_empty_entry.
  - by apply (consistent_same a).
Qed.

Lemma refresh_keeps_consistency_witness :
  consistent
    (refresh (Some 13%positive)
       (steps 1000 [AddWindow (Some main_window_traits)]
          (Application_new false false true))).
Proof.
  apply (refresh_keeps_consistency
           (steps 1000 [AddWindow (Some main_window_traits)]
              (Application_new false false true)) (Some 13%positive)).
  apply consistent_of_Inv.
  apply (steps_good 1000 [AddWindow (Some main_window_traits)] _
           (Good_new false false true)).
  vm_compute. reflexivity.
Defined.

(** X7. Refreshing a view that a window lists, in a state where the tables
    are consistent, waits for the device and then rebuilds the graphics
    pipelines of the render graph recorded for the view in the view
    bookkeeping, which is a child of the command graph of the view's window;
    the display configuration, the registry, the view bookkeeping and the
    children of the command graphs stay as they are. *)
Theorem refresh_of_attached_view (a : Application) (w : Window) (v : View) :
  consistent a -> v ∈ window_views a w ->
  exists rg cg,
    _viewData a !! v = Some {| parentRenderGraph := Some rg |} /\
    _commandGraphByWindow a !! w = Some cg /\
    rg ∈ commandGraph_children a cg /\
    trace (refresh (Some v) a)
    = EvUpdateGraphicsPipelines rg :: EvDeviceWaitIdle :: trace a /\
    displayConfiguration (refresh (Some v) a) = displayConfiguration a /\
    _commandGraphByWindow (refresh (Some v) a) = _commandGraphByWindow a /\
    _viewData (refresh (Some v) a) = _viewData a /\
    commandGraphChildren (refresh (Some v) a) = commandGraphChildren a.
Proof.
  intros [Ha _] Hv. unfold window_views in Hv.
  destruct (displayConfiguration a !! w) as [vs|] eqn:Hw;
    [|by apply elem_of_nil in Hv].
  destruct (Ha w vs v Hw Hv) as (rg & cg & Hvd & Hcg & Hin).
  exists rg, cg. split; [done|]. split; [done|]. split; [done|].
  cbn [refresh]. cbv zeta. rewrite Hvd. cbn [from_option id parentRenderGraph].
  rewrite insert_id by exact Hvd. repeat split.
Qed.

Lemma refresh_of_attached_view_witness :
  let a := steps 1000 [AddWindow (Some main_window_traits)]
             (Application_new false false true) in
  exists rg cg,
    _viewData a !! 13%positive = Some {| parentRenderGraph := Some rg |} /\
    _commandGraphByWindow a !! 9%positive = Some cg /\
    rg ∈ commandGraph_children a cg /\
    trace (refresh (Some 13%positive) a)
    = EvUpdateGraphicsPipelines rg :: EvDeviceWaitIdle :: trace a /\
    displayConfiguration (refresh (Some 13%positive) a)
    = displayConfiguration a /\
    _commandGraphByWindow (refresh (Some 13%positive) a)
    = _commandGraphByWindow a /\
    _viewData (refresh (Some 13%positive) a) = _viewData a /\
    commandGraphChildren (refresh (Some 13%positive) a)
    = commandGraphChildren a.
Proof.
  apply (refresh_of_attached_view
           (steps 1000 [AddWindow (Some main_window_traits)]
              (Application_new false false true)) 9%positive 13%positive).
  - apply consistent_of_Inv.
    apply (steps_good 1000 [AddWindow (Some main_window_traits)] _
             (Good_new false false true)).
    vm_compute. reflexivity.
  - vm_compute. left.
Defined.

(** X8. Refreshing a view that is not attached and has no bookkeeping entry
    fails the check on the render graph, but the table access before the
    check has already made an entry with a null render graph; a later
    [removeView] of that view stops at its first check and leaves the entry
    where it is. *)
Theorem refresh_of_unattached_view_leaves_entry (a : Application) (v : View) :
  ~ attached a v -> _viewData a !! v = None ->
  let b := refresh (Some v) a in
  _viewData b = <[v := {| parentRenderGraph := None |}]> (_viewData a) /\
  trace b = EvSoftAssert :: trace a /\
  displayConfiguration b = displayConfiguration a /\
  commandGraphChildren b = commandGraphChildren a /\
  _viewData (remove v b) !! v = Some {| parentRenderGraph := None |}.
Proof.
  intros Hn Hv b.
  assert (Eb : b = soft_assert_failed
                     (set_viewData
                        (<[v := {| parentRenderGraph := None |}]> (_viewData a))
                        a)).
  { subst b. cbn [refresh]. cbv zeta. by rewrite Hv. }
  assert (Hvd : _viewData b
                = <[v := {| parentRenderGraph := None |}]> (_viewData a))
    by (by rewrite Eb).
  assert (Hdc : displayConfiguration b = displayConfiguration a)
    by (by rewrite Eb).
  split; [exact Hvd|]. split; [by rewrite Eb|]. split; [exact Hdc|].
  split; [by rewrite Eb|].
  assert (Hnb : ~ attached b v).
  { intros (w & vs & Hw & Hin). apply Hn. exists w, vs. by rewrite <- Hdc. }
  destruct (remove_unattached v b Hnb) as (_ & _ & E & _).
  rewrite E, Hvd. apply lookup_insert_eq.
Qed.

Lemma refresh_of_unattached_view_leaves_entry_witness :
  let b := refresh (Some 8%positive) unrealized_with_view in
  _viewData b
  = <[8%positive := {| parentRenderGraph := None |}]>
      (_viewData unrealized_with_view) /\
  trace b = EvSoftAssert :: trace unrealized_with_view /\
  displayConfiguration b = displayConfiguration unrealized_with_view /\
  commandGraphChildren b = commandGraphChildren unrealized_with_view /\
  _viewData (remove 8%positive b) !! 8%positive
  = Some {| parentRenderGraph := None |}.
Proof.
  apply (refresh_of_unattached_view_leaves_entry unrealized_with_view
           8%positive).
  - intros (w & vs & Hw & _). vm_compute in Hw. discriminate Hw.
  - vm_compute. reflexivity.
Defined.

(** ** [addPreRenderGraph] *)

(** X9. Take a client that only adds windows, makes views, adds and removes
    views, realizes and runs frames, and that never hands [addView] a view
    that is attached or is waiting in the queue to be attached.  In every
    state such a client reaches from a new application, the lambda of
    [addPreRenderGraph] accepts a render graph exactly for the windows that
    list at least one view.  For such a window the render graph becomes the first child of the
    window's command graph, in front of the children that were there, and no
    other table changes; for a window that lists no view (not registered, or
    all its views removed) a check fails and nothing changes. *)
Theorem addPreRenderGraph_needs_a_view (k : Z) (debug api vsync : bool)
    (cs : list Call) (w : Window) (rg : RenderGraph) :
  run_ok k (Application_new debug api vsync) cs = true ->
  let a := steps k cs (Application_new debug api vsync) in
  let b := add_pre_render_graph w rg a in
  (window_views a w = [] ->
   b = soft_assert_failed a) /\
  (window_views a w <> [] ->
   exists cg,
     getCommandGraph w a = Some cg /\
     commandGraph_children b cg = rg :: commandGraph_children a cg /\
     (forall cg', cg' <> cg ->
                  commandGraph_children b cg' = commandGraph_children a cg') /\
     displayConfiguration b = displayConfiguration a /\
     _viewData b = _viewData a /\
     _commandGraphByWindow b = _commandGraphByWindow a /\
     trace b
     = match renderGraph_view a rg with
       | Some u => [EvActivateRenderGraph rg w u]
       | None => []
       end ++ trace a).
Proof.
  intros Hok a b.
  destruct (steps_good k cs _ (Good_new debug api vsync) Hok) as [I _].
  fold a in I. subst b. unfold add_pre_render_graph, getCommandGraph.
  destruct (_commandGraphByWindow a !! w) as [cg|] eqn:Hcg.
  - pose proof (Forall2_length _ _ _ (inv_link a I w cg Hcg)) as Hlen.
    unfold commandGraph_children in Hlen.
    destruct (default [] (commandGraphChildren a !! cg)) as [|c kids] eqn:Hk.
    + split; [done|]. intros Hne. destruct (window_views a w); done.
    + split; [intros E; by rewrite E in Hlen|]. intros _.
      exists cg. split; [done|].
      unfold commandGraph_children. unchanged. fields_cbn.
      split; [by rewrite lookup_insert_eq, Hk|].
      split; [intros cg' Hne; by rewrite lookup_insert_ne|].
      split; [unchanged; reflexivity|]. split; [unchanged; reflexivity|].
      split; [unchanged; reflexivity|].
      unfold activateRenderGraph.
      change (renderGraph_view
                (set_commandGraphChildren
                   (<[cg:=rg :: c :: kids]> (commandGraphChildren a)) a) rg)
        with (renderGraph_view a rg).
      by destruct (renderGraph_view a rg).
  - split; [done|]. intros Hne. exfalso. apply Hne. unfold window_views.
    destruct (displayConfiguration a !! w) as [vs|] eqn:Hw; [|done].
    destruct (inv_dom a I w vs Hw) as [cg' Hcg']. congruence.
Qed.

Lemma addPreRenderGraph_needs_a_view_witness :
  let a := steps 1000 sample_run (Application_new false false true) in
  let b := add_pre_render_graph 9%positive 50%positive a in
  (window_views a 9%positive = [] ->
   b = soft_assert_failed a) /\
  (window_views a 9%positive <> [] ->
   exists cg,
     getCommandGraph 9%positive a = Some cg /\
     commandGraph_children b cg = 50%positive :: commandGraph_children a cg /\
     (forall cg', cg' <> cg ->
                  commandGraph_children b cg' = commandGraph_children a cg') /\
     displayConfiguration b = displayConfiguration a /\
     _viewData b = _viewData a /\
     _commandGraphByWindow b = _commandGraphByWindow a /\
     trace b
     = match renderGraph_view a 50%positive with
       | Some u => [EvActivateRenderGraph 50%positive 9%positive u]
       | None => []
       end ++ trace a).
Proof.
  apply (addPreRenderGraph_needs_a_view 1000 false false true sample_run
           9%positive 50%positive).
  vm_compute. reflexivity.
Defined.

(** ** The two ways of adding a view *)

(** X10. The two paths of adding a view treat a window without a command
    graph differently.  The path taken after realization attaches the scene
    root to a view without children before it looks for the command graph,
    so the view is changed although nothing is added to any table; the path
    taken before realization looks first and leaves the view alone.  Both
    resolve the future with the view. *)
Theorem scene_root_is_attached_before_the_lookup (a : Application)
    (w : Window) (v : View) (cb : option Callback) (f : Future) (o : ViewObj) :
  _commandGraphByWindow a !! w = None ->
  views a !! v = Some o -> children o = [] ->
  let b := addViewAfterViewerIsRealized w v cb f a in
  let c := add_view_now w v cb a in
  views b = <[v := {| camera := camera o; children := [root];
                      manipulator := manipulator o |}]> (views a) /\
  same_tables a b /\
  eventHandlers b = eventHandlers a /\
  future_value b f = Some v /\
  views c.2 = views a /\
  same_tables a c.2 /\
  future_value c.2 c.1 = Some v.
Proof.
  intros Hw Hv Hk b c.
  assert (Ha : attach_scene v (deviceWaitIdle a)
               = set_views
                   (<[v := {| camera := camera o; children := [root];
                              manipulator := manipulator o |}]> (views a))
                   (deviceWaitIdle a)).
  { unfold attach_scene.
    change (views (deviceWaitIdle a)) with (views a). by rewrite Hv, Hk. }
  assert (Eb : b = resolve f v
                     (call_on_create cb None
                        (attach_scene v (deviceWaitIdle a)))).
  { subst b. cbv beta delta [addViewAfterViewerIsRealized].
    unfold getCommandGraph. cbv zeta. unchanged. by rewrite Hw. }
  split; [rewrite Eb; unchanged; by rewrite Ha|].
  split; [by apply addViewAfterViewerIsRealized_same|].
  split; [rewrite Eb; unchanged; reflexivity|].
  split; [rewrite Eb; apply future_value_resolve|].
  subst c. cbv beta delta [add_view_now]. rewrite Hw. cbv zeta. cbn [fst snd].
  split; [unchanged; reflexivity|].
  split; [repeat split; unchanged; reflexivity|].
  unfold call_on_create, future_value, resolve.
  destruct cb; unfold emit; fields_cbn; by rewrite lookup_insert_eq.
Qed.

Lemma scene_root_is_attached_before_the_lookup_witness :
  let b := addViewAfterViewerIsRealized 50%positive 8%positive None 60%positive
             unrealized_with_view in
  let c := add_view_now 50%positive 8%positive None unrealized_with_view in
  views b = <[8%positive := {| camera := Some 100%positive; children := [root];
                               manipulator := None |}]>
              (views unrealized_with_view) /\
  same_tables unrealized_with_view b /\
  eventHandlers b = eventHandlers unrealized_with_view /\
  future_value b 60%positive = Some 8%positive /\
  views c.2 = views unrealized_with_view /\
  same_tables unrealized_with_view c.2 /\
  future_value c.2 c.1 = Some 8%positive.
Proof.
  apply (scene_root_is_attached_before_the_lookup unrealized_with_view
           50%positive 8%positive None 60%positive
           {| camera := Some 100%positive; children := [];
              manipulator := None |}).
  - vm_compute. reflexivity.
  - vm_compute. reflexivity.
  - reflexivity.
Defined.

(** ** Adding a view and removing it again *)

Lemma remove_attached a w cg v rg :
  getWindow v a = Some w ->
  _commandGraphByWindow a !! w = Some cg ->
  _viewData a !! v = Some {| parentRenderGraph := Some rg |} ->
  detach_tables w cg v (Some rg) a (remove v a).
Proof.
  intros Hw Hcg Hvd. cbv beta delta [remove]. cbv zeta.
  change (getWindow v (deviceWaitIdle a)) with (getWindow v a).
  rewrite Hw. unfold getCommandGraph.
  change (_commandGraphByWindow (deviceWaitIdle a))
    with (_commandGraphByWindow a).
  change (_viewData (deviceWaitIdle a)) with (_viewData a).
  rewrite Hcg, Hvd.
  unfold detach_tables, window_views. repeat split; read_tables; reflexivity.
Qed.

Lemma filter_not_elem {A} `{EqDecision A} (x : A) (l : list A) :
  x ∉ l -> filter (fun y => y <> x) l = l.
Proof.
  induction l as [|y l IH]; intros Hx; [reflexivity|].
  apply not_elem_of_cons in Hx as [Hne Hx].
  rewrite filter_cons_True by congruence. by rewrite IH.
Qed.

Lemma filter_drops_last {A} `{EqDecision A} (x : A) (l : list A) :
  x ∉ l -> filter (fun y => y <> x) (l ++ [x]) = l.
Proof.
  intros Hx. rewrite filter_app, filter_not_elem by exact Hx.
  rewrite filter_cons_False by (intros H; by apply H).
  rewrite filter_nil. apply app_nil_r.
Qed.

Lemma filter_Some_drops_last {A} `{EqDecision A} (x : A) (l : list A) :
  x ∉ l -> filter (fun y => Some y <> Some x) (l ++ [x]) = l.
Proof.
  intros Hx. rewrite <- (filter_drops_last x l Hx) at 2.
  apply list_filter_iff. intros y. split; intros H E; apply H; congruence.
Qed.

(** Attaching a view that is not attached and detaching it again. *)
Lemma attach_detach_tables a m w cg v :
  Inv a -> Inv m ->
  attach_tables w cg v (next_id a) a m ->
  _commandGraphByWindow a !! w = Some cg ->
  v ∉ attached_views a ->
  let b := remove v m in
  (forall w', window_views b w' = window_views a w') /\
  (forall cg', commandGraph_children b cg' = commandGraph_children a cg') /\
  _viewData b = _viewData a /\
  _commandGraphByWindow b = _commandGraphByWindow a.
Proof.
  intros I Im (A1 & A2 & A3 & A4 & A5) Hcg Hna b.
  assert (Hvw : v ∉ window_views a w).
  { intros H. apply Hna, attached_views_elem. by exists w. }
  assert (Hmw : window_views m w = window_views a w ++ [v])
    by (by rewrite (window_views_insert a m w _ w A3), decide_True).
  assert (Hmc : commandGraph_children m cg
                = commandGraph_children a cg ++ [next_id a])
    by (by rewrite (commandGraph_children_insert a m cg _ cg A4), decide_True).
  assert (Hm : v ∈ window_views m w).
  { rewrite Hmw. apply elem_of_app. right. constructor. }
  assert (Hrg : next_id a ∉ commandGraph_children a cg).
  { intros H.
    destruct (Forall2_linked_elem_r _ _ _ _ _ (inv_link a I w cg Hcg) H)
      as (u & _ & [_ R]).
    pose proof (inv_fresh_rg a I _ _ R). lia. }
  assert (Hvd : _viewData a !! v = None).
  { destruct (_viewData a !! v) as [vd|] eqn:E; [|done].
    destruct (inv_vd a I v) as [w' Hw']; [by eexists|].
    destruct Hna. apply attached_views_elem. by exists w'. }
  destruct (remove_attached m w cg v (next_id a)) as (D1 & D2 & D3 & D4 & D5).
  { by apply getWindow_unique. }
  { by rewrite A1. }
  { rewrite A2. apply lookup_insert_eq. }
  fold b in D1, D2, D3, D4, D5.
  split; [|split; [|split]].
  - intros w'. rewrite (window_views_insert m b w _ w' D3), Hmw.
    rewrite (window_views_insert a m w _ w' A3).
    destruct (decide (w = w')) as [<-|]; [|done].
    by apply filter_drops_last.
  - intros cg'.
    rewrite (commandGraph_children_alter m b cg _ cg' eq_refl D4), Hmc.
    rewrite (commandGraph_children_insert a m cg _ cg' A4).
    destruct (decide (cg = cg')) as [<-|]; [|done].
    by apply filter_Some_drops_last.
  - rewrite D2, A2. by apply delete_insert_id.
  - by rewrite D1, A1.
Qed.

(** X11. Take a client that only adds windows, makes views, adds and
    removes views, realizes and runs frames, and that never hands [addView]
    a view that is attached or is waiting in the queue to be attached.  In
    every state such a client reaches from a new application before
    realization, adding a view that has a camera and is not attached and
    then removing it is a round trip on the tables: every window lists the views it listed
    before, every command graph has the children it had before, and the view
    bookkeeping and the command-graph registry are as they were, whether or
    not the window given to [addView] has a command graph. *)
Theorem addView_then_removeView_restores_tables (k : Z)
    (debug api vsync : bool) (cs : list Call) (w : Window) (v : View)
    (cam : Camera) (cb : option Callback) :
  run_ok k (Application_new debug api vsync) cs = true ->
  let a := steps k cs (Application_new debug api vsync) in
  _viewerRealized a = false ->
  view_camera a v = Some cam ->
  v ∉ attached_views a ->
  let b := removeView (Some v) (addView (Some w) (Some v) cb a).2 in
  (forall w', window_views b w' = window_views a w') /\
  (forall cg', commandGraph_children b cg' = commandGraph_children a cg') /\
  _viewData b = _viewData a /\
  _commandGraphByWindow b = _commandGraphByWindow a.
Proof.
  intros Hok a Hr Hc Hna b.
  destruct (steps_good k cs _ (Good_new debug api vsync) Hok) as [I P].
  fold a in I, P. subst b. unfold addView. rewrite Hc, Hr.
  unfold removeView.
  assert (Hrm : _viewerRealized (add_view_now w v cb a).2 = false)
    by (unchanged; exact Hr).
  rewrite Hrm.
  assert (Hlt : (v < next_id a)%positive).
  { apply (inv_fresh_view a I). unfold view_camera in Hc.
    destruct (views a !! v); [done|discriminate]. }
  destruct (_commandGraphByWindow a !! w) as [cg|] eqn:Hcg.
  - destruct (add_view_now_attach w v cb a cg Hcg) as [T Hn].
    apply (attach_detach_tables a _ w cg v); try done.
    apply (Inv_attach a _ w cg v (next_id a));
      first [done | apply add_view_now_alloc | lia].
  - pose proof (add_view_now_same w v cb a Hcg) as (S1 & S2 & S3 & S4 & S5).
    destruct (remove_unattached v (add_view_now w v cb a).2)
      as (U1 & U2 & U3 & U4 & _).
    { rewrite attached_iff. unfold attached_views. by rewrite S3. }
    split; [|split; [|split]].
    + intros w'. unfold window_views. by rewrite U1, S3.
    + intros cg'. unfold commandGraph_children. by rewrite U4, S4.
    + by rewrite U3, S2.
    + by rewrite U2, S1.
Qed.

Lemma addView_then_removeView_restores_tables_witness :
  let a := steps 1000
             [AddWindow (Some main_window_traits);
              CreateView (Some 100%positive) []]
             (Application_new false false true) in
  let b := removeView (Some 17%positive)
             (addView (Some 9%positive) (Some 17%positive) None a).2 in
  (forall w', window_views b w' = window_views a w') /\
  (forall cg', commandGraph_children b cg' = commandGraph_children a cg') /\
  _viewData b = _viewData a /\
  _commandGraphByWindow b = _commandGraphByWindow a.
Proof.
  apply (addView_then_removeView_restores_tables 1000 false false true
           [AddWindow (Some main_window_traits);
            CreateView (Some 100%positive) []]
           9%positive 17%positive 100%positive None).
  - vm_compute. reflexivity.
  - vm_compute. reflexivity.
  - vm_compute. reflexivity.
  - apply (bool_decide_unpack _). vm_compute. exact I.
Defined.

(** ** What [add_window] builds *)

Lemma create_Window_windowObjs t a :
  windowObjs (create_Window t a).2
  = <[next_id a :=
        {| width := width t; height := height t; debugLayer := debugLayer t;
           apiDumpLayer := apiDumpLayer t;
           presentModeImmediate := presentModeImmediate t;
           barycentric := barycentric t;
           device := Some (default (Pos.succ (next_id a)) (device t)) |}]>
      (windowObjs a).
Proof.
  unfold create_Window. cbv zeta. cbn [fst snd]. unfold emit. fields_cbn.
  destruct (device t); reflexivity.
Qed.

Lemma add_window_shape traits f a :
  exists cg v rg,
    let w := next_id a in
    let b := add_window traits f a in
    _commandGraphByWindow b = <[w := cg]> (_commandGraphByWindow a) /\
    displayConfiguration b
    = <[w := window_views a w ++ [v]]> (displayConfiguration a) /\
    commandGraphChildren b = <[cg := [rg]]> (commandGraphChildren a) /\
    _viewData b = <[v := {| parentRenderGraph := Some rg |}]> (_viewData a) /\
    renderGraphs b
    = <[rg := {| rg_window := w; rg_children := [v] |}]> (renderGraphs a) /\
    viewer_windows b = viewer_windows a ++ [w] /\
    windowObjs b = windowObjs (create_Window (window_traits traits a) a).2 /\
    futures b !! f = Some (Some w) /\
    _viewerDirty b = _viewerRealized a || _viewerDirty a /\
    (next_id a < cg)%positive /\ (next_id a < v)%positive /\
    (next_id a < rg)%positive /\
    (cg < next_id b)%positive /\ (v < next_id b)%positive /\
    (rg < next_id b)%positive.
Proof.
  change (holds (fun b => exists cg v rg,
    let w := next_id a in
    _commandGraphByWindow b = <[w := cg]> (_commandGraphByWindow a) /\
    displayConfiguration b
    = <[w := window_views a w ++ [v]]> (displayConfiguration a) /\
    commandGraphChildren b = <[cg := [rg]]> (commandGraphChildren a) /\
    _viewData b = <[v := {| parentRenderGraph := Some rg |}]> (_viewData a) /\
    renderGraphs b
    = <[rg := {| rg_window := w; rg_children := [v] |}]> (renderGraphs a) /\
    viewer_windows b = viewer_windows a ++ [w] /\
    windowObjs b = windowObjs (create_Window (window_traits traits a) a).2 /\
    futures b !! f = Some (Some w) /\
    _viewerDirty b = _viewerRealized a || _viewerDirty a /\
    (next_id a < cg)%positive /\ (next_id a < v)%positive /\
    (next_id a < rg)%positive /\
    (cg < next_id b)%positive /\ (v < next_id b)%positive /\
    (rg < next_id b)%positive) (add_window traits f a)).
  cbv beta delta [add_window].
  name_let a1. name_let res. name_let traits'. name_let window.
  name_let a2. name_let cg. name_let a3. name_let a4. name_let a5.
  name_let cam. name_let a6. name_let view. name_let a7. name_let a8.
  name_let a9. name_let a10. name_let a11. name_let a12. name_let a13.
  destruct (create_Window_id traits' a1) as [Hw Hw2].
  fold window a2 in Hw, Hw2.
  assert (Hwa : window = next_id a) by reflexivity.
  assert (Hcg : cg = next_id a2) by reflexivity.
  assert (Hn3 : next_id a3 = Pos.succ (next_id a2)) by reflexivity.
  assert (Hview : view = next_id a6) by reflexivity.
  assert (Hn7 : next_id a7 = Pos.succ (next_id a6)) by reflexivity.
  assert (Hcam : view_camera a7 view = Some cam).
  { unfold view_camera, a7, create_View. cbn [snd]. fields_cbn.
    fold view. by rewrite lookup_insert_eq. }
  assert (Hvw9 : viewer_windows a9 = viewer_windows a).
  { unfold a9. fields_cbn. unfold a8. unchanged. unfold a7. unchanged.
    unfold a6. unchanged. unfold a5, a4. fields_cbn. unfold a3. unchanged.
    unfold a2. unchanged. reflexivity. }
  assert (Hvw13 : viewer_windows a13 = viewer_windows a ++ [window]).
  { unfold a13. destruct (_viewerRealized a12); fields_cbn;
      unfold a12; unchanged; unfold a11; unchanged; unfold a10; fields_cbn;
      by rewrite Hvw9. }
  assert (Hwo : windowObjs a13
                = windowObjs (create_Window (window_traits traits a) a).2).
  { unfold a13. destruct (_viewerRealized a12); fields_cbn;
      unfold a12; unchanged; unfold a11; unchanged; unfold a10, a9; fields_cbn;
      unfold a8; unchanged; unfold a7; unchanged; unfold a6; unchanged;
      unfold a5, a4; fields_cbn; unfold a3; unchanged;
      unfold a2, traits', a1; by rewrite !create_Window_windowObjs. }
  assert (Hfut : futures a13 !! f = Some (Some window)).
  { unfold a13. destruct (_viewerRealized a12); fields_cbn;
      unfold a12, resolve, res; fields_cbn; apply lookup_insert_eq. }
  assert (Hr12 : _viewerRealized a12 = _viewerRealized a).
  { unfold a12. unchanged. unfold a11. unchanged. unfold a10, a9. fields_cbn.
    unfold a8. unchanged. unfold a7. unchanged. unfold a6. unchanged.
    unfold a5, a4. fields_cbn. unfold a3. unchanged. unfold a2. unchanged.
    reflexivity. }
  assert (Hd12 : _viewerDirty a12 = _viewerDirty a).
  { unfold a12. unchanged. unfold a11. unchanged. unfold a10, a9. fields_cbn.
    unfold a8. unchanged. unfold a7. unchanged. unfold a6. unchanged.
    unfold a5, a4. fields_cbn. unfold a3. unchanged. unfold a2. unchanged.
    reflexivity. }
  assert (Hd13 : _viewerDirty a13 = _viewerRealized a || _viewerDirty a).
  { unfold a13. rewrite <- Hr12, <- Hd12.
    destruct (_viewerRealized a12); reflexivity. }
  (* the steps *)
  assert (K1 : kept a a1) by (unfold a1; kept_step).
  assert (K2 : kept a1 a2) by (unfold a2; kept_step).
  assert (K3 : kept a2 a3) by (unfold a3; kept_step).
  assert (W : window_tables window cg a3 a5)
    by (unfold a5, a4; by repeat split).
  assert (A5 : alloc a3 a5)
    by (transitivity a4; [unfold a4|unfold a5]; alloc_step).
  assert (K6 : kept a5 a6) by (unfold a6; kept_step).
  assert (K7 : kept a6 a7) by (unfold a7; kept_step).
  assert (A8 : alloc a7 a8) by (unfold a8; apply add_first_view_alloc).
  assert (K9 : kept a8 a9) by (unfold a9; kept_step).
  assert (K10 : kept a9 a10) by (unfold a10; kept_step).
  assert (K11 : kept a10 a11) by (unfold a11; kept_step).
  assert (K12 : kept a11 a12) by (unfold a12; kept_step).
  assert (K13 : kept a12 a13)
    by (unfold a13; destruct (_viewerRealized a12); [kept_step|reflexivity]).
  assert (Hcg7 : _commandGraphByWindow a7 !! window = Some cg).
  { destruct K7 as [(E7 & _) _], K6 as [(E6 & _) _], W as (E5 & _).
    by rewrite E7, E6, E5, lookup_insert_eq. }
  destruct (add_first_view_attach window view a7 cg cam Hcg7 Hcam)
    as (rg & T & Hrg1 & Hrg2).
  fold a8 in T, Hrg2.
  clearbody a1 window a2 cg a3 a4 a5 cam a6 view a7 a8 a9 a10 a11 a12 a13.
  clear a4 traits' res.
  assert (K03 : kept a a3) by (transitivity a1; [done|by transitivity a2]).
  assert (K57 : kept a5 a7) by (by transitivity a6).
  assert (K813 : kept a8 a13).
  { transitivity a9; [done|]. transitivity a10; [done|].
    transitivity a11; [done|]. by transitivity a12. }
  assert (N03 : next_le a a3) by apply K03.
  assert (N35 : next_le a3 a5) by apply A5.
  assert (N57 : next_le a5 a7) by apply K57.
  assert (N813 : next_le a8 a13) by apply K813.
  assert (N12 : next_le a1 a2) by apply K2.
  assert (N01 : next_le a a1) by apply K1.
  assert (N56 : next_le a5 a6) by apply K6.
  unfold next_le in *.
  destruct K03 as [(C1 & C2 & C3 & C4 & C5) _].
  destruct W as (W1 & W2 & W3 & W4 & W5).
  destruct K57 as [(D1 & D2 & D3 & D4 & D5) _].
  destruct T as (T1 & T2 & T3 & T4 & T5).
  destruct K813 as [(F1 & F2 & F3 & F4 & F5) _].
  assert (Hfinal : forall x, kept a13 x ->
            viewer_windows x = viewer_windows a13 ->
            windowObjs x = windowObjs a13 ->
            futures x = futures a13 ->
            _viewerDirty x = _viewerDirty a13 ->
            next_id a13 = next_id x -> holds (fun b => exists cg v rg,
    let w := next_id a in
    _commandGraphByWindow b = <[w := cg]> (_commandGraphByWindow a) /\
    displayConfiguration b
    = <[w := window_views a w ++ [v]]> (displayConfiguration a) /\
    commandGraphChildren b = <[cg := [rg]]> (commandGraphChildren a) /\
    _viewData b = <[v := {| parentRenderGraph := Some rg |}]> (_viewData a) /\
    renderGraphs b
    = <[rg := {| rg_window := w; rg_children := [v] |}]> (renderGraphs a) /\
    viewer_windows b = viewer_windows a ++ [w] /\
    windowObjs b = windowObjs (create_Window (window_traits traits a) a).2 /\
    futures b !! f = Some (Some w) /\
    _viewerDirty b = _viewerRealized a || _viewerDirty a /\
    (next_id a < cg)%positive /\ (next_id a < v)%positive /\
    (next_id a < rg)%positive /\
    (cg < next_id b)%positive /\ (v < next_id b)%positive /\
    (rg < next_id b)%positive) x).
  { intros x [(G1 & G2 & G3 & G4 & G5) _] Gvw Gwo Gf Gd Gn.
    exists cg, view, rg. cbv zeta. rewrite <- Hwa.
    split; [by rewrite G1, F1, T1, D1, W1, C1|].
    split.
    { rewrite G3, F3, T3. unfold window_views. by rewrite D3, W3, C3. }
    split.
    { rewrite G4, F4, T4. unfold commandGraph_children.
      rewrite D4, W4, lookup_insert_eq. cbn. rewrite insert_insert_eq.
      by rewrite C4. }
    split; [by rewrite G2, F2, T2, D2, W2, C2|].
    split; [by rewrite G5, F5, T5, D5, W5, C5|].
    split; [by rewrite Gvw|]. split; [by rewrite Gwo|].
    split; [by rewrite Gf|]. split; [by rewrite Gd|].
    rewrite <- Gn. repeat split; lia. }
  destruct (_debuglayer a13).
  - apply Hfinal; try reflexivity. kept_step.
  - apply Hfinal; try reflexivity.
Qed.

(** X12. Before realization, in every state a client reaches by adding
    windows, adding and removing views and running frames, [addWindow] with
    non-null traits does all its work within the call: the future it
    returns is resolved with a new window; the window is appended to the
    viewer's windows and registered with a command graph of its own; the
    window lists exactly one view, whose render graph is the only child of
    that command graph, and [getWindow] finds the window from the view; the
    other windows keep their views and command graphs, and neither the dirty
    flag nor the queue is touched. *)
Theorem addWindow_before_realization (k : Z) (debug api vsync : bool)
    (cs : list Call) (traits : WindowTraits) :
  run_ok k (Application_new debug api vsync) cs = true ->
  let a := steps k cs (Application_new debug api vsync) in
  _viewerRealized a = false ->
  let r := addWindow (Some traits) a in
  exists w cg v rg,
    future_value r.2 r.1 = Some w /\
    viewer_windows r.2 = viewer_windows a ++ [w] /\
    getCommandGraph w a = None /\
    getCommandGraph w r.2 = Some cg /\
    window_views r.2 w = [v] /\
    commandGraph_children r.2 cg = [rg] /\
    linked r.2 w v rg /\
    getWindow v r.2 = Some w /\
    (forall w', w' <> w ->
       window_views r.2 w' = window_views a w' /\
       getCommandGraph w' r.2 = getCommandGraph w' a) /\
    _viewerDirty r.2 = _viewerDirty a /\
    updateOperations r.2 = updateOperations a.
Proof.
  intros Hok a Hr r.
  pose proof (steps_good k cs _ (Good_new debug api vsync) Hok) as G.
  fold a in G.
  destruct (addWindow_good (Some traits) a G) as [Ir _]. fold r in Ir.
  destruct G as [I _].
  assert (Er : r = ((new_future a).1,
                    add_window traits (new_future a).1 (new_future a).2)).
  { subst r. unfold addWindow. cbv zeta.
    change (_viewerRealized (new_future a).2) with (_viewerRealized a).
    by rewrite Hr. }
  destruct (add_window_shape traits (new_future a).1 (new_future a).2)
    as (cg & v & rg & H).
  assert (Hq : updateOperations
                 (add_window traits (new_future a).1 (new_future a).2)
               = updateOperations a) by (unchanged; reflexivity).
  cbv zeta in H. revert H Ir Hq. rewrite Er. cbn [fst snd].
  generalize (add_window traits (new_future a).1 (new_future a).2).
  intros b. unfold window_views at 1. unchanged.
  change (next_id (new_future a).2) with (Pos.succ (next_id a)).
  set (w := Pos.succ (next_id a)).
  intros (H1 & H2 & H3 & H4 & H5 & H6 & _ & H8 & H9 & _) Ib Hq.
  assert (Hw : _commandGraphByWindow a !! w = None).
  { destruct (_commandGraphByWindow a !! w) as [cg'|] eqn:E; [|done].
    destruct (inv_fresh_cg a I w cg' E). subst w. lia. }
  assert (Hdc : displayConfiguration a !! w = None).
  { destruct (displayConfiguration a !! w) as [vs|] eqn:E; [|done].
    destruct (inv_dom a I w vs E). congruence. }
  rewrite Hdc in H2. cbn [from_option app] in H2.
  assert (Hv : window_views b w = [v])
    by (unfold window_views; by rewrite H2, lookup_insert_eq).
  exists w, cg, v, rg.
  split; [unfold future_value; by rewrite H8|].
  split; [exact H6|]. split; [exact Hw|].
  split; [unfold getCommandGraph; by rewrite H1, lookup_insert_eq|].
  split; [exact Hv|].
  split; [unfold commandGraph_children; by rewrite H3, lookup_insert_eq|].
  split; [split; [by rewrite H4, lookup_insert_eq
                 |by rewrite H5, lookup_insert_eq]|].
  split; [apply getWindow_unique; [exact Ib|rewrite Hv; constructor]|].
  split.
  { intros w' Hne. unfold window_views, getCommandGraph.
    by rewrite H1, H2, !lookup_insert_ne. }
  rewrite H9, Hr. split; [reflexivity|exact Hq].
Qed.

Lemma addWindow_before_realization_witness :
  let a := steps 1000 [AddWindow (Some main_window_traits)]
             (Application_new false false true) in
  let r := addWindow (Some main_window_traits) a in
  exists w cg v rg,
    future_value r.2 r.1 = Some w /\
    viewer_windows r.2 = viewer_windows a ++ [w] /\
    getCommandGraph w a = None /\
    getCommandGraph w r.2 = Some cg /\
    window_views r.2 w = [v] /\
    commandGraph_children r.2 cg = [rg] /\
    linked r.2 w v rg /\
    getWindow v r.2 = Some w /\
    (forall w', w' <> w ->
       window_views r.2 w' = window_views a w' /\
       getCommandGraph w' r.2 = getCommandGraph w' a) /\
    _viewerDirty r.2 = _viewerDirty a /\
    updateOperations r.2 = updateOperations a.
Proof.
  apply (addWindow_before_realization 1000 false false true
           [AddWindow (Some main_window_traits)] main_window_traits).
  - vm_compute. reflexivity.
  - vm_compute. reflexivity.
Defined.

(** ** A window added after realization *)

(** The state at the dirty check of a frame whose queue ends with an
    [add_window] lambda. *)
Lemma frame_update_adds_window x q traits f :
  updateOperations x = q ++ [OpAddWindow traits f] ->
  _viewerRealized x = true ->
  exists m, frame_update x = emit EvRuntimeUpdate (add_window traits f m) /\
            _viewerRealized m = true.
Proof.
  intros Hq Hr. unfold frame_update. cbv zeta.
  set (y := emit EvHandleEvents _).
  assert (Hy : updateOperations y = q ++ [OpAddWindow traits f]).
  { subst y. unchanged. destruct (updateFunction x); unchanged; exact Hq. }
  assert (Hry : _viewerRealized y = true).
  { subst y. unchanged. destruct (updateFunction x); unchanged; exact Hr. }
  clearbody y. unfold viewer_update. rewrite Hy, foldl_snoc.
  cbn [run_operation]. eexists. split; [reflexivity|].
  assert (H : preserves
                [FTrace; FViews; FNextId; FRenderGraphs; FCommandGraphChildren;
                 FViewData; FDisplayConfiguration; FEventHandlers; FFutures;
                 FCommandGraphByWindow; FWindowObjs; FMultiThreaded;
                 FViewerWindows; FDirty; FUpdateOperations]
                y (foldl (fun a op => run_operation op a)
                     (set_updateOperations [] y) q))
    by (apply run_operations_preserves; [reflexivity|pres]).
  rewrite (H FRealized eq_refl). exact Hry.
Qed.

(** A window of the display configuration is a window of the rebuilt
    viewer. *)
Lemma rebuilt_viewer_window mid w cg vs f :
  displayConfiguration mid !! w = Some vs ->
  _commandGraphByWindow mid !! w = Some cg ->
  futures mid !! f = Some (Some w) ->
  let b := recreateViewer (set_viewerDirty false mid) in
  future_value b f = Some w /\
  w ∈ viewer_windows b /\
  getCommandGraph w b = Some cg /\
  window_views b w = vs.
Proof.
  intros Hdc Hcg Hf b. subst b.
  split; [unfold future_value; unchanged; by rewrite Hf|].
  split.
  { change (viewer_windows (recreateViewer (set_viewerDirty false mid)))
      with ([] ++ (map_to_list (displayConfiguration mid)).*1).
    cbn [app]. apply list_elem_of_fmap. exists (w, vs).
    split; [reflexivity|]. by apply elem_of_map_to_list. }
  split; [unfold getCommandGraph; unchanged; exact Hcg|].
  unfold window_views. unchanged. by rewrite Hdc.
Qed.

(** X13. After realization [addWindow] only queues its work: the call
    returns an unresolved future and leaves every table alone.  The next
    frame for which the viewer advances runs the queued lambda, which raises
    the dirty flag; that frame therefore rebuilds the viewer exactly once
    instead of recording and presenting, returns true, and leaves the future
    resolved with a window that is among the windows of the new viewer, has a
    command graph and lists a view. *)
Theorem addWindow_after_realization (k : Z) (inp : FrameInput)
    (a : Application) (traits : WindowTraits) :
  _viewerRealized a = true -> advance inp = true ->
  let r := addWindow (Some traits) a in
  let b := (frame k inp r.2).2 in
  future_value r.2 r.1 = None /\
  tables_unchanged a r.2 /\
  (frame k inp r.2).1 = true /\
  (exists evs, trace b = evs ++ trace r.2 /\
               count EvRecreateViewer evs = 1%nat /\
               count EvRecordAndSubmit evs = 0%nat /\
               count EvPresent evs = 0%nat) /\
  _viewerDirty b = false /\
  updateOperations b = [] /\
  exists w cg v,
    future_value b r.1 = Some w /\
    w ∈ viewer_windows b /\
    getCommandGraph w b = Some cg /\
    v ∈ window_views b w.
Proof.
  intros Hr Ha r b.
  assert (Er : r = ((new_future a).1,
                    runDuringUpdate (OpAddWindow traits (new_future a).1)
                      (new_future a).2)).
  { subst r. unfold addWindow. cbv zeta.
    change (_viewerRealized (new_future a).2) with (_viewerRealized a).
    by rewrite Hr. }
  assert (Hr2 : _viewerRealized r.2 = true)
    by (rewrite Er; cbn [snd]; unchanged; exact Hr).
  assert (Hq2 : updateOperations r.2
                = updateOperations a ++ [OpAddWindow traits r.1])
    by (rewrite Er; reflexivity).
  assert (Hf2 : future_value r.2 r.1 = None).
  { rewrite Er. cbn [fst snd]. unfold future_value. unchanged.
    by rewrite new_future_unresolved. }
  assert (Ht2 : tables_unchanged a r.2).
  { rewrite Er. cbn [snd]. unfold tables_unchanged. unchanged. repeat split. }
  split; [exact Hf2|]. split; [exact Ht2|].
  subst b. clear Hf2 Ht2. clearbody r. clear Er.
  destruct r as [f s]. cbn [fst snd] in *.
  assert (Hx : _viewerRealized (frame_begin inp s) = true)
    by apply frame_begin_realized.
  assert (Hqx : updateOperations (frame_begin inp s)
                = updateOperations a ++ [OpAddWindow traits f]).
  { unfold frame_begin. rewrite Hr2. unchanged. exact Hq2. }
  assert (Q0 : quiet_trace s (frame_begin inp s)) by quiet_step.
  assert (K0 : handlers_kept s (frame_begin inp s)) by hand_step.
  assert (E : forall mid, mid = frame_update (frame_begin inp s) ->
                _viewerDirty mid = true ->
                frame k inp s
                = (true, recreateViewer (set_viewerDirty false mid))).
  { intros mid -> Hd. by apply frame_rebuilds_when_dirty. }
  revert Hx Hqx Q0 K0 E. generalize (frame_begin inp s). intros x Hx Hqx Q0 K0.
  destruct (frame_update_adds_window x _ traits f Hqx Hx) as (m & Em & Hm).
  assert (Q1 : quiet_trace x (frame_update x)) by quiet_step.
  assert (K1 : handlers_kept x (frame_update x)) by hand_step.
  assert (Hq : updateOperations (frame_update x) = [])
    by apply frame_update_queue.
  assert (Hrm : _viewerRealized (frame_update x) = true)
    by (unchanged; exact Hx).
  destruct (add_window_shape traits f m) as (cg & v & rg & S).
  cbv zeta in S.
  destruct S as (S1 & S2 & _ & _ & _ & _ & _ & S8 & S9 & _).
  assert (Hd : _viewerDirty (frame_update x) = true).
  { rewrite Em. unchanged. by rewrite S9, Hm. }
  assert (Hdc : displayConfiguration (frame_update x) !! next_id m
                = Some (window_views m (next_id m) ++ [v])).
  { rewrite Em. unchanged. by rewrite S2, lookup_insert_eq. }
  assert (Hcg : _commandGraphByWindow (frame_update x) !! next_id m = Some cg).
  { rewrite Em. unchanged. by rewrite S1, lookup_insert_eq. }
  assert (Hfm : futures (frame_update x) !! f = Some (Some (next_id m))).
  { rewrite Em. unchanged. exact S8. }
  clear Em S1 S2 S8 S9.
  revert Q1 K1 Hq Hrm Hd Hdc Hcg Hfm.
  generalize (frame_update x). intros mid Q1 K1 Hq Hrm Hd Hdc Hcg Hfm E.
  rewrite (E mid eq_refl Hd). cbn [fst snd]. split; [reflexivity|].
  destruct (rebuild_after_update k s mid) as (Hevs & Hdb & _ & _ & _);
    [by transitivity x|by transitivity x|exact Hq|exact Hrm|].
  destruct (rebuilt_viewer_window mid _ _ _ f Hdc Hcg Hfm)
    as (B1 & B2 & B3 & B4).
  split; [exact Hevs|]. split; [exact Hdb|].
  split; [unchanged; exact Hq|].
  exists (next_id m), cg, v.
  split; [exact B1|]. split; [exact B2|]. split; [exact B3|].
  rewrite B4. apply elem_of_app. right. constructor.
Qed.

Lemma addWindow_after_realization_witness :
  let a := (frame 1000 sample_input (Application_new false false true)).2 in
  let r := addWindow (Some main_window_traits) a in
  let b := (frame 1000 sample_input r.2).2 in
  future_value r.2 r.1 = None /\
  tables_unchanged a r.2 /\
  (frame 1000 sample_input r.2).1 = true /\
  (exists evs, trace b = evs ++ trace r.2 /\
               count EvRecreateViewer evs = 1%nat /\
               count EvRecordAndSubmit evs = 0%nat /\
               count EvPresent evs = 0%nat) /\
  _viewerDirty b = false /\
  updateOperations b = [] /\
  exists w cg v,
    future_value b r.1 = Some w /\
    w ∈ viewer_windows b /\
    getCommandGraph w b = Some cg /\
    v ∈ window_views b w.
Proof.
  apply (addWindow_after_realization 1000 sample_input
           (frame 1000 sample_input (Application_new false false true)).2
           main_window_traits).
  - vm_compute. reflexivity.
  - reflexivity.
Defined.

(** ** The viewer's windows *)

Global Instance windows_kept_preorder : PreOrder windows_kept.
Proof.
  split.
  - intros a. unfold windows_kept. repeat split; auto. reflexivity.
  - intros a b c (A1 & A2 & A3 & A4 & A5 & A6 & A7)
                 (B1 & B2 & B3 & B4 & B5 & B6 & B7).
    unfold windows_kept. rewrite B1, B2, B3, B4.
    repeat split; auto.
    + by transitivity b.
    + intros w Hw. destruct (B7 w Hw) as [H|H]; [by apply A7|].
      right. by rewrite <- A1.
Qed.

Lemma windows_kept_of_preserves l a b :
  preserves l a b -> next_le a b ->
  touched l FCommandGraphByWindow = false ->
  touched l FViewerWindows = false ->
  touched l FWindowObjs = false ->
  touched l FRealized = false ->
  touched l FDisplayConfiguration = false ->
  windows_kept a b.
Proof.
  intros H Hn H1 H2 H3 H4 H5. unfold windows_kept.
  rewrite (H FCommandGraphByWindow H1), (H FViewerWindows H2),
    (H FWindowObjs H3), (H FRealized H4).
  pose proof (H FDisplayConfiguration H5) as E. cbn in E. rewrite E.
  repeat split; auto.
Qed.

Create HintDb wins discriminated.

#[export] Hint Extern 5 (windows_kept _ _) =>
  (eapply windows_kept_of_preserves;
   [solve [eauto 2 with pres]|solve [eauto 2 with next]|reflexivity..])
  : wins.

Ltac wins_step := solve [eauto 2 with wins].

(** A step that changes the display configuration at most at one window,
    which has a command graph or was there before. *)
Lemma windows_kept_at l a b w :
  preserves l a b -> next_le a b ->
  touched l FCommandGraphByWindow = false ->
  touched l FViewerWindows = false ->
  touched l FWindowObjs = false ->
  touched l FRealized = false ->
  displayConfiguration b = displayConfiguration a \/
  ((exists vs, displayConfiguration b = <[w := vs]> (displayConfiguration a)) /\
   (is_Some (displayConfiguration a !! w)
    \/ is_Some (_commandGraphByWindow a !! w))) ->
  windows_kept a b.
Proof.
  intros H Hn H1 H2 H3 H4 E. unfold windows_kept.
  rewrite (H FCommandGraphByWindow H1), (H FViewerWindows H2),
    (H FWindowObjs H3), (H FRealized H4).
  destruct E as [E|[[vs E] Hw]]; rewrite E; repeat split; auto.
  - intros w' Hw'. rewrite lookup_insert.
    destruct (decide (w = w')); [by eexists|done].
  - intros w'. rewrite lookup_insert.
    destruct (decide (w = w')) as [<-|]; [|by left]. intros _. tauto.
Qed.

Lemma add_view_now_windows_kept w v cb a :
  windows_kept a (add_view_now w v cb a).2.
Proof.
  eapply (windows_kept_at _ a _ w);
    [apply add_view_now_preserves|next_step|reflexivity..|].
  destruct (_commandGraphByWindow a !! w) as [cg|] eqn:Hcg.
  - destruct (add_view_now_attach w v cb a cg Hcg) as [(_ & _ & E & _) _].
    right. split; [by eexists|]. right. by eexists.
  - destruct (add_view_now_same w v cb a Hcg) as (_ & _ & E & _). by left.
Qed.
#[export] Hint Extern 1 (windows_kept _ (snd (add_view_now _ _ _ _))) =>
  simple eapply add_view_now_windows_kept : wins.

Lemma addViewAfterViewerIsRealized_windows_kept w v cb f a :
  windows_kept a (addViewAfterViewerIsRealized w v cb f a).
Proof.
  eapply (windows_kept_at _ a _ w);
    [apply addViewAfterViewerIsRealized_preserves|next_step|reflexivity..|].
  destruct (_commandGraphByWindow a !! w) as [cg|] eqn:Hcg.
  - destruct (addViewAfterViewerIsRealized_attach w v cb f a cg Hcg)
      as [(_ & _ & E & _) _].
    right. split; [by eexists|]. right. by eexists.
  - destruct (addViewAfterViewerIsRealized_same w v cb f a Hcg)
      as (_ & _ & E & _).
    by left.
Qed.
#[export] Hint Extern 1
  (windows_kept _ (addViewAfterViewerIsRealized _ _ _ _ _)) =>
  simple eapply addViewAfterViewerIsRealized_windows_kept : wins.

Lemma remove_windows_kept v a : windows_kept a (remove v a).
Proof.
  destruct (getWindow v a) as [w|] eqn:Hw.
  - apply getWindow_Some in Hw as Hdc. destruct Hdc as (vs & Hdc & _).
    eapply (windows_kept_at _ a _ w);
      [apply remove_preserves|next_step|reflexivity..|].
    cbv beta delta [remove]. cbv zeta.
    change (getWindow v (deviceWaitIdle a)) with (getWindow v a).
    rewrite Hw.
    destruct (getCommandGraph w (deviceWaitIdle a)); [|by left].
    destruct (_viewData (deviceWaitIdle a) !! v); [|by left].
    right. split; [|left; by eexists]. eexists. fields_cbn. reflexivity.
  - eapply (windows_kept_at _ a _ 1%positive);
      [apply remove_preserves|next_step|reflexivity..|].
    left. cbv beta delta [remove]. cbv zeta.
    change (getWindow v (deviceWaitIdle a)) with (getWindow v a).
    by rewrite Hw.
Qed.
#[export] Hint Extern 1 (windows_kept _ (remove _ _)) =>
  simple eapply remove_windows_kept : wins.

Lemma addView_windows_kept w v cb a : windows_kept a (addView w v cb a).2.
Proof. cbv beta delta [addView]. walk wins_step. Qed.
#[export] Hint Extern 1 (windows_kept _ (snd (addView _ _ _ _))) =>
  simple eapply addView_windows_kept : wins.

Lemma removeView_windows_kept v a : windows_kept a (removeView v a).
Proof. cbv beta delta [removeView]. walk wins_step. Qed.
#[export] Hint Extern 1 (windows_kept _ (removeView _ _)) =>
  simple eapply removeView_windows_kept : wins.

Lemma WindowsInv_kept a b : WindowsInv a -> windows_kept a b -> WindowsInv b.
Proof.
  intros [N R C F D Z] (E1 & E2 & E3 & E4 & Hn & H6 & H7).
  unfold next_le in Hn.
  constructor; rewrite ?E1, ?E2, ?E3, ?E4; try done.
  - intros w. split.
    + intros Hw. destruct (H7 w Hw) as [H|H]; [by apply C|done].
    + intros Hw. apply H6, C, Hw.
  - intros w Hw. pose proof (F w Hw). lia.
Qed.

Lemma WindowsInv_new debug api vsync :
  WindowsInv (Application_new debug api vsync).
Proof.
  constructor; cbn.
  - constructor.
  - intros w. rewrite lookup_empty. split; [intros H|intros [? H]].
    + by apply elem_of_nil in H.
    + discriminate.
  - intros w. by rewrite !lookup_empty.
  - intros w H. by apply elem_of_nil in H.
  - intros w w' H. by apply elem_of_nil in H.
  - discriminate.
Qed.

(** The lambda of [addWindow] puts a new window into the viewer, the
    registry and the display configuration at once, on the device of the
    windows that are there. *)
Lemma add_window_WindowsInv traits f a :
  WindowsInv a -> WindowsInv (add_window traits f a).
Proof.
  intros [N R C F D Z].
  destruct (add_window_shape traits f a) as (cg & v & rg & S).
  cbv zeta in S.
  destruct S as (S1 & S2 & _ & _ & _ & S6 & S7 & _ & _ & Hcg & _ & _ & Hcgb & _).
  assert (Hr : _viewerRealized (add_window traits f a) = _viewerRealized a)
    by (unchanged; reflexivity).
  revert S1 S2 S6 S7 Hcgb Hr. generalize (add_window traits f a).
  intros b S1 S2 S6 S7 Hcgb Hr.
  assert (Hnew : next_id a ∉ viewer_windows a).
  { intros H. pose proof (F _ H). lia. }
  constructor.
  - rewrite S6. apply NoDup_app. split; [done|]. split.
    + intros w Hw Hw'. apply list_elem_of_singleton in Hw' as ->. done.
    + apply NoDup_singleton.
  - intros w. rewrite S6, S1, elem_of_app, list_elem_of_singleton, R.
    rewrite lookup_insert. destruct (decide (next_id a = w)) as [<-|Hne].
    + split; [by eexists|by right].
    + split; [by intros [H|H]|by left].
  - intros w. rewrite S1, S2, !lookup_insert.
    destruct (decide (next_id a = w)); [|apply C].
    split; by eexists.
  - intros w. rewrite S6, elem_of_app, list_elem_of_singleton.
    intros [H| ->]; [pose proof (F w H)|]; lia.
  - assert (Hold : forall w, w ∈ viewer_windows a ->
                     windowObjs b !! w = windowObjs a !! w).
    { intros w Hw. rewrite S7, create_Window_windowObjs.
      apply lookup_insert_ne. intros <-. done. }
    assert (Hw0 : exists d0,
               windowObjs b !! next_id a ≫= device = Some d0 /\
               forall w, w ∈ viewer_windows a ->
                         windowObjs a !! w ≫= device = Some d0).
    { rewrite S7, create_Window_windowObjs, lookup_insert_eq.
      cbn [mbind option_bind device].
      eexists. split; [reflexivity|]. intros w Hw.
      unfold window_traits. cbn [device].
      destruct (viewer_windows a) as [|front l] eqn:E;
        [by apply elem_of_nil in Hw|].
      destruct (D front w) as (d & Hd1 & Hd2);
        [try rewrite E; constructor|try rewrite E; done|].
      rewrite Hd1, Hd2. reflexivity. }
    destruct Hw0 as (d0 & Hd0 & Hall).
    intros w w'. rewrite S6, !elem_of_app, !list_elem_of_singleton.
    intros Hw Hw'. exists d0. split.
    + destruct Hw as [Hw| ->]; [rewrite Hold by done; by apply Hall|done].
    + destruct Hw' as [Hw'| ->]; [rewrite Hold by done; by apply Hall|done].
  - intros _. rewrite S6. by destruct (viewer_windows a).
Qed.

(** The rebuilt viewer gets the windows of the display configuration. *)
Lemma recreateViewer_WindowsInv a : WindowsInv a -> WindowsInv (recreateViewer a).
Proof.
  intros [N R C F D Z].
  assert (Evw : viewer_windows (recreateViewer a)
                = (map_to_list (displayConfiguration a)).*1) by reflexivity.
  assert (Hin : forall w, w ∈ (map_to_list (displayConfiguration a)).*1
                          <-> is_Some (displayConfiguration a !! w)).
  { intros w. rewrite list_elem_of_fmap. split.
    - intros ([w' vs] & -> & H). apply elem_of_map_to_list in H. by eexists.
    - intros [vs H]. exists (w, vs). split; [done|].
      by apply elem_of_map_to_list. }
  assert (Hn : next_le a (recreateViewer a)) by next_step.
  unfold next_le in Hn.
  constructor; rewrite ?Evw.
  - apply NoDup_fst_map_to_list.
  - intros w. rewrite Hin. unchanged. apply C.
  - intros w. unchanged. apply C.
  - intros w. rewrite Hin, C, <- R. intros Hw. pose proof (F w Hw). lia.
  - intros w w'. rewrite !Hin, !C, <- !R. unchanged. apply D.
  - unchanged. intros Hr Hnil. apply (Z Hr).
    destruct (viewer_windows a) as [|w l] eqn:E; [done|].
    assert (Hw : w ∈ (map_to_list (displayConfiguration a)).*1).
    { apply Hin, C, R. rewrite ?E. constructor. }
    rewrite Hnil in Hw. by apply elem_of_nil in Hw.
Qed.

Lemma run_operation_WindowsInv op a :
  WindowsInv a -> WindowsInv (run_operation op a).
Proof.
  intros I. destruct op; cbn [run_operation].
  - by apply add_window_WindowsInv.
  - apply (WindowsInv_kept a); [done|wins_step].
  - apply (WindowsInv_kept a); [done|wins_step].
  - apply (WindowsInv_kept a); [done|wins_step].
  - apply (WindowsInv_kept a); [done|wins_step].
Qed.

Lemma viewer_update_WindowsInv a : WindowsInv a -> WindowsInv (viewer_update a).
Proof.
  intros I. unfold viewer_update.
  assert (I0 : WindowsInv (set_updateOperations [] a))
    by (apply (WindowsInv_kept a); [done|wins_step]).
  revert I0. generalize (set_updateOperations [] a).
  induction (updateOperations a) as [|op ops IH]; intros b Ib; [done|].
  simpl. by apply IH, run_operation_WindowsInv.
Qed.

Lemma addWindow_WindowsInv traits a :
  WindowsInv a -> WindowsInv (addWindow traits a).2.
Proof.
  intros I. unfold addWindow. destruct traits as [t|].
  - cbv zeta.
    assert (I0 : WindowsInv (new_future a).2)
      by (apply (WindowsInv_kept a); [done|wins_step]).
    destruct (_viewerRealized (new_future a).2); cbn [snd].
    + apply (WindowsInv_kept (new_future a).2); [done|wins_step].
    + by apply add_window_WindowsInv.
  - apply (WindowsInv_kept a); [done|walk wins_step].
Qed.

Lemma set_viewerRealized_WindowsInv a :
  WindowsInv a -> viewer_windows a <> [] ->
  WindowsInv (set_viewerRealized true a).
Proof. intros [N R C F D Z] Hne. by constructor. Qed.

Lemma realize_WindowsInv a : WindowsInv a -> WindowsInv (realize a).
Proof.
  intros I. cbv beta delta [realize].
  destruct (_viewerRealized a) eqn:Hr; [done|].
  assert (I1 : WindowsInv match viewer_windows a with
                          | [] => (addWindow (Some main_window_traits) a).2
                          | _ :: _ => a
                          end
               /\ viewer_windows match viewer_windows a with
                                 | [] => (addWindow (Some main_window_traits) a).2
                                 | _ :: _ => a
                                 end <> []).
  { destruct (viewer_windows a) eqn:E; [|by rewrite E].
    split; [by apply addWindow_WindowsInv|].
    unfold addWindow. cbv zeta.
    change (_viewerRealized (new_future a).2) with (_viewerRealized a).
    rewrite Hr. cbn [snd].
    destruct (add_window_shape main_window_traits (new_future a).1
                (new_future a).2) as (cg & v & rg & S).
    cbv zeta in S. destruct S as (_ & _ & _ & _ & _ & S6 & _).
    rewrite S6. by destruct (viewer_windows (new_future a).2). }
  revert I1. generalize (match viewer_windows a with
                         | [] => (addWindow (Some main_window_traits) a).2
                         | _ :: _ => a
                         end).
  intros b [Ib Hb]. cbv zeta.
  apply set_viewerRealized_WindowsInv.
  - apply (WindowsInv_kept b); [done|wins_step].
  - unchanged. exact Hb.
Qed.

Lemma frame_WindowsInv k inp a : WindowsInv a -> WindowsInv (frame k inp a).2.
Proof.
  intros I.
  assert (I0 : WindowsInv (frame_begin inp a)).
  { unfold frame_begin.
    apply (WindowsInv_kept (if _viewerRealized a then a else realize a)).
    - destruct (_viewerRealized a); [done|by apply realize_WindowsInv].
    - wins_step. }
  cbv beta delta [frame]. cbv zeta.
  revert I0. generalize (frame_begin inp a). intros b Ib.
  destruct (advance inp); [|done].
  assert (Im : WindowsInv (frame_update b)).
  { unfold frame_update. cbv zeta.
    apply (WindowsInv_kept (viewer_update
             (emit EvHandleEvents
                match
                  updateFunction (emit EvEcsUpdate (emit EvMapNodeUpdate b))
                with
                | Some cb =>
                    emit (EvUserUpdate cb)
                      (emit EvEcsUpdate (emit EvMapNodeUpdate b))
                | None => emit EvEcsUpdate (emit EvMapNodeUpdate b)
                end))); [|wins_step].
    apply viewer_update_WindowsInv. apply (WindowsInv_kept b); [done|].
    destruct (updateFunction _); walk wins_step. }
  revert Im. generalize (frame_update b). intros m Im.
  destruct (_viewerDirty m); cbn [snd].
  - apply recreateViewer_WindowsInv.
    apply (WindowsInv_kept m); [done|wins_step].
  - apply (WindowsInv_kept m); [done|]. walk wins_step.
Qed.

Lemma step_WindowsInv k c a : WindowsInv a -> WindowsInv (step k c a).
Proof.
  intros I. destruct c; cbn [step].
  - apply (WindowsInv_kept a); [done|wins_step].
  - by apply addWindow_WindowsInv.
  - apply (WindowsInv_kept a); [done|wins_step].
  - apply (WindowsInv_kept a); [done|wins_step].
  - apply (WindowsInv_kept a); [done|wins_step].
  - apply (WindowsInv_kept a); [done|wins_step].
  - by apply realize_WindowsInv.
  - by apply frame_WindowsInv.
Qed.

Lemma steps_WindowsInv k cs a : WindowsInv a -> WindowsInv (steps k cs a).
Proof.
  unfold steps. revert a. induction cs as [|c cs IH]; intros a I; [done|].
  simpl. by apply IH, step_WindowsInv.
Qed.

(** X14. Whatever calls a client makes on a new application, in whatever
    order and with whatever arguments, the viewer and the registry agree
    after each call: the viewer holds no window twice; its windows are
    exactly the windows that have a command graph, and these are exactly the
    windows of the display configuration, so that the viewer made by a
    rebuild has the same windows as the one it replaces; all windows of the
    viewer are on one device; and once the viewer is realized it has at least
    one window. *)
Theorem viewer_windows_are_the_registered_windows (k : Z)
    (debug api vsync : bool) (cs : list Call) :
  let a := steps k cs (Application_new debug api vsync) in
  NoDup (viewer_windows a) /\
  (forall w, w ∈ viewer_windows a <-> is_Some (getCommandGraph w a)) /\
  (forall w, is_Some (displayConfiguration a !! w)
             <-> is_Some (getCommandGraph w a)) /\
  (forall w w', w ∈ viewer_windows a -> w' ∈ viewer_windows a ->
     exists d, windowObjs a !! w ≫= device = Some d /\
               windowObjs a !! w' ≫= device = Some d) /\
  (_viewerRealized a = true -> viewer_windows a <> []).
Proof.
  intros a.
  destruct (steps_WindowsInv k cs _ (WindowsInv_new debug api vsync))
    as [N R C F D Z].
  fold a in N, R, C, F, D, Z. unfold getCommandGraph. done.
Qed.

(** ** The phases of a frame *)

Global Instance operation_trace_preorder : PreOrder operation_trace.
Proof.
  split.
  - intros a. by exists [].
  - intros a b c (e1 & E1 & Q1) (e2 & E2 & Q2). exists (e2 ++ e1). split.
    + by rewrite E2, E1, app_assoc.
    + rewrite forallb_app, Q1, Q2. done.
Qed.

Lemma operation_trace_of_preserves l a b :
  preserves l a b -> touched l FTrace = false -> operation_trace a b.
Proof. intros H Ht. exists []. split; [apply (H FTrace Ht)|done]. Qed.

Create HintDb optrace discriminated.

#[export] Hint Extern 5 (operation_trace _ _) =>
  (eapply operation_trace_of_preserves;
   [solve [eauto 2 with pres]|reflexivity]) : optrace.

Ltac optrace_step := solve [eauto 2 with optrace].

Lemma emit_operation_trace e a :
  from_operation e = true -> operation_trace a (emit e a).
Proof. intros He. exists [e]. split; [done|]. cbn. by rewrite He. Qed.
#[export] Hint Extern 1 (operation_trace _ (emit _ _)) =>
  (simple eapply emit_operation_trace; reflexivity) : optrace.

Lemma soft_assert_failed_operation_trace a :
  operation_trace a (soft_assert_failed a).
Proof. by apply emit_operation_trace. Qed.
#[export] Hint Extern 1 (operation_trace _ (soft_assert_failed _)) =>
  simple eapply soft_assert_failed_operation_trace : optrace.

Lemma deviceWaitIdle_operation_trace a :
  operation_trace a (deviceWaitIdle a).
Proof. by apply emit_operation_trace. Qed.
#[export] Hint Extern 1 (operation_trace _ (deviceWaitIdle _)) =>
  simple eapply deviceWaitIdle_operation_trace : optrace.

Lemma activateRenderGraph_operation_trace rg w a :
  operation_trace a (activateRenderGraph rg w a).
Proof. cbv beta delta [activateRenderGraph]. walk optrace_step. Qed.
#[export] Hint Extern 1 (operation_trace _ (activateRenderGraph _ _ _)) =>
  simple eapply activateRenderGraph_operation_trace : optrace.

Lemma call_on_create_operation_trace cb cg a :
  operation_trace a (call_on_create cb cg a).
Proof. cbv beta delta [call_on_create]. walk optrace_step. Qed.
#[export] Hint Extern 1 (operation_trace _ (call_on_create _ _ _)) =>
  simple eapply call_on_create_operation_trace : optrace.

Lemma create_Window_operation_trace traits a :
  operation_trace a (create_Window traits a).2.
Proof. cbv beta delta [create_Window]. walk optrace_step. Qed.
#[export] Hint Extern 1 (operation_trace _ (snd (create_Window _ _))) =>
  simple eapply create_Window_operation_trace : optrace.

Lemma addViewAfterViewerIsRealized_operation_trace w v cb f a :
  operation_trace a (addViewAfterViewerIsRealized w v cb f a).
Proof. cbv beta delta [addViewAfterViewerIsRealized]. walk optrace_step. Qed.
#[export] Hint Extern 1 (operation_trace _ (addViewAfterViewerIsRealized _ _ _ _ _)) =>
  simple eapply addViewAfterViewerIsRealized_operation_trace : optrace.

Lemma add_view_now_operation_trace w v cb a :
  operation_trace a (add_view_now w v cb a).2.
Proof. cbv beta delta [add_view_now]. walk optrace_step. Qed.
#[export] Hint Extern 1 (operation_trace _ (snd (add_view_now _ _ _ _))) =>
  simple eapply add_view_now_operation_trace : optrace.

Lemma addView_operation_trace w v cb a :
  operation_trace a (addView w v cb a).2.
Proof. cbv beta delta [addView]. walk optrace_step. Qed.
#[export] Hint Extern 1 (operation_trace _ (snd (addView _ _ _ _))) =>
  simple eapply addView_operation_trace : optrace.

Lemma add_first_view_operation_trace w v a :
  operation_trace a (add_first_view w v a).
Proof. cbv beta delta [add_first_view]. walk optrace_step. Qed.
#[export] Hint Extern 1 (operation_trace _ (add_first_view _ _ _)) =>
  simple eapply add_first_view_operation_trace : optrace.

Lemma add_window_operation_trace traits f a :
  operation_trace a (add_window traits f a).
Proof. cbv beta delta [add_window]. walk optrace_step. Qed.
#[export] Hint Extern 1 (operation_trace _ (add_window _ _ _)) =>
  simple eapply add_window_operation_trace : optrace.

Lemma remove_operation_trace v a :
  operation_trace a (remove v a).
Proof. cbv beta delta [remove]. walk optrace_step. Qed.
#[export] Hint Extern 1 (operation_trace _ (remove _ _)) =>
  simple eapply remove_operation_trace : optrace.

Lemma refresh_operation_trace v a :
  operation_trace a (refresh v a).
Proof. cbv beta delta [refresh]. walk optrace_step. Qed.
#[export] Hint Extern 1 (operation_trace _ (refresh _ _)) =>
  simple eapply refresh_operation_trace : optrace.

Lemma add_pre_render_graph_operation_trace w rg a :
  operation_trace a (add_pre_render_graph w rg a).
Proof. cbv beta delta [add_pre_render_graph]. walk optrace_step. Qed.
#[export] Hint Extern 1 (operation_trace _ (add_pre_render_graph _ _ _)) =>
  simple eapply add_pre_render_graph_operation_trace : optrace.

Lemma run_operation_operation_trace op a :
  operation_trace a (run_operation op a).
Proof. destruct op; cbn [run_operation]; optrace_step. Qed.

Lemma viewer_update_operation_trace a : operation_trace a (viewer_update a).
Proof.
  unfold viewer_update.
  etransitivity;
    [|apply (run_operations_rel operation_trace),
        run_operation_operation_trace].
  optrace_step.
Qed.

(** What [frame()] records up to the dirty check. *)
Lemma frame_update_trace x :
  exists ops,
    trace (frame_update x)
    = [EvRuntimeUpdate] ++ ops ++ [EvHandleEvents] ++ user_update_events x
      ++ [EvEcsUpdate; EvMapNodeUpdate] ++ trace x /\
    forallb from_operation ops = true.
Proof.
  unfold frame_update. cbv zeta.
  set (y := emit EvHandleEvents _).
  assert (Hy : trace y = [EvHandleEvents] ++ user_update_events x
                         ++ [EvEcsUpdate; EvMapNodeUpdate] ++ trace x).
  { subst y. unfold user_update_events.
    change (updateFunction (emit EvEcsUpdate (emit EvMapNodeUpdate x)))
      with (updateFunction x).
    destruct (updateFunction x); reflexivity. }
  clearbody y.
  destruct (viewer_update_operation_trace y) as (ops & E & Hops).
  exists ops. split; [|exact Hops].
  unfold emit at 1. fields_cbn. rewrite E, Hy. reflexivity.
Qed.

(** X15. The phases of a frame come in a fixed order.  [frame()] first
    realizes the viewer if that has not happened, then asks it for the next
    frame; if there is none, it returns false at once.  Otherwise the map and
    the entity systems are updated, then the user's update callback runs,
    then events are handled, and only then the queued structural operations
    run, none of which records a frame, presents or rebuilds the viewer;
    after them come the runtime update and then either recording and
    presentation, with the verdict of [active()] as the result, or a single
    rebuild of the viewer, with the result true. *)
Theorem frame_phases (k : Z) (inp : FrameInput) (a : Application) :
  (advance inp = false ->
   frame k inp a = (false, emit (EvAdvanceToNextFrame false) (realize a))) /\
  (advance inp = true ->
   exists ops last,
     trace (frame k inp a).2
     = last ++ [EvRuntimeUpdate] ++ ops ++ [EvHandleEvents]
       ++ user_update_events a
       ++ [EvEcsUpdate; EvMapNodeUpdate; EvAdvanceToNextFrame true]
       ++ trace (realize a) /\
     forallb from_operation ops = true /\
     ((last = [EvPresent; EvRecordAndSubmit] /\
       (frame k inp a).1 = active inp) \/
      ((exists cgs,
          last = [EvCompile; EvAssignRecordAndSubmit cgs; EvEcsInitialize;
                  EvDeviceWaitIdle; EvRecreateViewer]) /\
       (frame k inp a).1 = true))).
Proof.
  assert (Eb : frame_begin inp a
               = emit (EvAdvanceToNextFrame (advance inp)) (realize a)).
  { unfold frame_begin, realize. by destruct (_viewerRealized a). }
  assert (Eu : user_update_events (frame_begin inp a) = user_update_events a).
  { unfold user_update_events. unchanged. reflexivity. }
  split; intros Ha.
  - cbv beta delta [frame]. cbv zeta. by rewrite Ha, Eb, Ha.
  - destruct (frame_update_trace (frame_begin inp a)) as (ops & E & Hops).
    rewrite Eu in E. rewrite Eb in E at 2. rewrite Ha in E.
    change (trace (emit (EvAdvanceToNextFrame true) (realize a)))
      with ([EvAdvanceToNextFrame true] ++ trace (realize a)) in E.
    cbv beta delta [frame]. cbv zeta. rewrite Ha.
    revert E. generalize (frame_update (frame_begin inp a)). intros m E.
    exists ops. destruct (_viewerDirty m); cbn [fst snd].
    + exists [EvCompile;
              EvAssignRecordAndSubmit
                (map_to_list
                   (_commandGraphByWindow (set_viewerDirty false m))).*2;
              EvEcsInitialize; EvDeviceWaitIdle; EvRecreateViewer].
      split; [|split; [exact Hops|]].
      * rewrite recreateViewer_trace. fields_cbn. rewrite E. reflexivity.
      * right. split; [by eexists|reflexivity].
    + exists [EvPresent; EvRecordAndSubmit]. split; [|split; [exact Hops|]].
      * unfold emit. fields_cbn. rewrite E. reflexivity.
      * left. by split.
Qed.

(** ** Close handlers *)

Global Instance close_kept_preorder : PreOrder close_kept.
Proof.
  split; unfold close_kept; [intros a|intros a b c]; congruence.
Qed.

Lemma close_kept_of_preserves l a b :
  preserves l a b -> touched l FEventHandlers = false -> close_kept a b.
Proof.
  intros H Ht. unfold close_kept, close_handlers.
  by rewrite (H FEventHandlers Ht).
Qed.

Create HintDb close discriminated.

#[export] Hint Extern 5 (close_kept _ _) =>
  (eapply close_kept_of_preserves;
   [solve [eauto 2 with pres]|reflexivity]) : close.

Ltac close_step := solve [eauto 2 with close].

Lemma filter_close_of_others (l : list (option Handler)) :
  filter (fun h => is_CloseHandler h = true)
         (filter (fun h => is_MapManipulator h = false) l)
  = filter (fun h => is_CloseHandler h = true) l.
Proof.
  induction l as [|h l IH]; [reflexivity|].
  rewrite (filter_cons (fun h => is_MapManipulator h = false)).
  rewrite (filter_cons (fun h => is_CloseHandler h = true) h l).
  destruct (decide (is_MapManipulator h = false)) as [E|E].
  - rewrite filter_cons, IH. reflexivity.
  - rewrite IH. destruct (decide (is_CloseHandler h = true)) as [C|C]; [|done].
    destruct h as [[?|?|?]|]; cbn in *; congruence.
Qed.

Lemma filter_close_of_manipulators a :
  filter (fun h => is_CloseHandler h = true) (manipulators_in_order a) = [].
Proof.
  unfold manipulators_in_order.
  induction (map_to_list (displayConfiguration a)) as [|[w vs] l IH];
    [reflexivity|].
  cbn [flat_map]. rewrite filter_app, IH, app_nil_r. cbn [snd].
  induction (rev vs) as [|v r IHr]; [reflexivity|].
  cbn [map]. rewrite filter_cons, IHr. unfold view_manipulator.
  by destruct (views a !! v ≫= manipulator).
Qed.

(** [addManipulator] takes out and puts back map manipulators only. *)
Lemma addManipulator_close_kept w v a : close_kept a (addManipulator w v a).
Proof.
  unfold close_kept, close_handlers, addManipulator. cbv zeta. fields_cbn.
  rewrite filter_app, filter_close_of_others, filter_close_of_manipulators.
  apply app_nil_r.
Qed.
#[export] Hint Extern 1 (close_kept _ (addManipulator _ _ _)) =>
  simple eapply addManipulator_close_kept : close.

Lemma addViewAfterViewerIsRealized_close_kept w v cb f a :
  close_kept a (addViewAfterViewerIsRealized w v cb f a).
Proof. cbv beta delta [addViewAfterViewerIsRealized]. walk close_step. Qed.
#[export] Hint Extern 1 (close_kept _ (addViewAfterViewerIsRealized _ _ _ _ _)) =>
  simple eapply addViewAfterViewerIsRealized_close_kept : close.

Lemma add_first_view_close_kept w v a :
  close_kept a (add_first_view w v a).
Proof. cbv beta delta [add_first_view]. walk close_step. Qed.
#[export] Hint Extern 1 (close_kept _ (add_first_view _ _ _)) =>
  simple eapply add_first_view_close_kept : close.

Lemma add_window_close_kept traits f a :
  close_kept a (add_window traits f a).
Proof. cbv beta delta [add_window]. walk close_step. Qed.
#[export] Hint Extern 1 (close_kept _ (add_window _ _ _)) =>
  simple eapply add_window_close_kept : close.

Lemma addWindow_close_kept traits a :
  close_kept a (addWindow traits a).2.
Proof. cbv beta delta [addWindow]. walk close_step. Qed.
#[export] Hint Extern 1 (close_kept _ (snd (addWindow _ _))) =>
  simple eapply addWindow_close_kept : close.

Lemma run_operation_close_kept op a : close_kept a (run_operation op a).
Proof. destruct op; cbn [run_operation]; close_step. Qed.

Lemma viewer_update_close_kept a : close_kept a (viewer_update a).
Proof.
  unfold viewer_update.
  etransitivity;
    [|apply (run_operations_rel close_kept), run_operation_close_kept].
  close_step.
Qed.
#[export] Hint Extern 1 (close_kept _ (viewer_update _)) =>
  simple eapply viewer_update_close_kept : close.

Lemma frame_update_close_kept a : close_kept a (frame_update a).
Proof. cbv beta delta [frame_update]. walk close_step. Qed.

Lemma setupViewer_close_handlers a :
  close_handlers (setupViewer a)
  = close_handlers a ++ [Some (CloseHandler (next_id a))].
Proof.
  unfold close_handlers.
  change (eventHandlers (setupViewer a))
    with (eventHandlers a ++ [Some (CloseHandler (next_id a))]).
  by rewrite filter_app.
Qed.

Lemma recreateViewer_close_handlers a :
  close_handlers (recreateViewer a)
  = close_handlers a ++ [Some (CloseHandler (next_id a))].
Proof.
  unfold close_handlers. rewrite recreateViewer_handlers.
  by rewrite filter_app.
Qed.

Lemma counted_kept a b :
  close_handlers_counted a -> close_kept a b -> quiet_trace a b ->
  _viewerRealized b = _viewerRealized a -> close_handlers_counted b.
Proof.
  unfold close_handlers_counted. intros P C (evs & E & Q) R.
  rewrite C, R, E, count_app, (quiet_count _ evs) by done. exact P.
Qed.

Lemma realize_counted a :
  close_handlers_counted a -> close_handlers_counted (realize a).
Proof.
  intros P. cbv beta delta [realize].
  destruct (_viewerRealized a) eqn:Hr; [done|].
  assert (P1 : close_handlers_counted
                 match viewer_windows a with
                 | [] => (addWindow (Some main_window_traits) a).2
                 | _ :: _ => a
                 end
               /\ _viewerRealized
                    match viewer_windows a with
                    | [] => (addWindow (Some main_window_traits) a).2
                    | _ :: _ => a
                    end = false).
  { destruct (viewer_windows a); [|done]. split; [|unchanged; exact Hr].
    apply (counted_kept a); [done|close_step|quiet_step|].
    unchanged. reflexivity. }
  revert P1. generalize (match viewer_windows a with
                         | [] => (addWindow (Some main_window_traits) a).2
                         | _ :: _ => a
                         end).
  intros b [Pb Hb]. cbv zeta. unfold close_handlers_counted in *.
  change (close_handlers (set_viewerRealized true (setupViewer b)))
    with (close_handlers (setupViewer b)).
  rewrite setupViewer_close_handlers, length_app, Pb, Hb.
  destruct (setupViewer_quiet_trace b) as (evs & E & Q).
  change (trace (set_viewerRealized true (setupViewer b)))
    with (trace (setupViewer b)).
  rewrite E, count_app, (quiet_count _ evs) by done.
  cbn. lia.
Qed.

Lemma frame_counted k inp a :
  close_handlers_counted a -> close_handlers_counted (frame k inp a).2.
Proof.
  intros P.
  assert (P0 : close_handlers_counted (frame_begin inp a)).
  { unfold frame_begin.
    apply (counted_kept (if _viewerRealized a then a else realize a)).
    - destruct (_viewerRealized a); [done|by apply realize_counted].
    - close_step.
    - quiet_step.
    - reflexivity. }
  cbv beta delta [frame]. cbv zeta.
  revert P0. generalize (frame_begin inp a). intros b Pb.
  destruct (advance inp); [|done].
  assert (Pm : close_handlers_counted (frame_update b)).
  { apply (counted_kept b); [done|apply frame_update_close_kept|quiet_step|].
    unchanged. reflexivity. }
  revert Pm. generalize (frame_update b). intros m Pm.
  unfold close_handlers_counted in *.
  destruct (_viewerDirty m); cbn [snd].
  - rewrite recreateViewer_close_handlers, recreateViewer_trace, length_app.
    unchanged.
    change (close_handlers (set_viewerDirty false m)) with (close_handlers m).
    rewrite Pm. fields_cbn. rewrite count_app. cbn. lia.
  - exact Pm.
Qed.

Lemma step_counted k c a :
  close_handlers_counted a -> close_handlers_counted (step k c a).
Proof.
  intros P. destruct c; cbn [step].
  - apply (counted_kept a); [done|close_step|quiet_step|].
    unchanged. reflexivity.
  - apply (counted_kept a); [done|close_step|quiet_step|].
    unchanged. reflexivity.
  - apply (counted_kept a); [done|close_step|quiet_step|].
    unchanged. reflexivity.
  - apply (counted_kept a); [done|close_step| |unchanged; reflexivity].
    cbv beta delta [removeView]. walk quiet_step.
  - apply (counted_kept a); [done|close_step| |unchanged; reflexivity].
    cbv beta delta [refreshView]. walk quiet_step.
  - apply (counted_kept a); [done|close_step| |unchanged; reflexivity].
    cbv beta delta [addPreRenderGraph]. walk quiet_step.
  - by apply realize_counted.
  - by apply frame_counted.
Qed.

(** X16. Close handlers pile up.  Each run of [setupViewer] installs a new
    close handler, and the rebuild re-installs all handlers of the old viewer
    before it runs [setupViewer]; nothing ever takes a close handler out.
    So, whatever calls a client makes on a new application, the viewer has
    one close handler once it is realized plus one for each rebuild that has
    happened. *)
Theorem close_handlers_pile_up (k : Z) (debug api vsync : bool)
    (cs : list Call) :
  let a := steps k cs (Application_new debug api vsync) in
  length (close_handlers a)
  = ((if _viewerRealized a then 1 else 0)
     + count EvRecreateViewer (trace a))%nat.
Proof.
  cbv zeta. unfold steps.
  assert (P : close_handlers_counted (Application_new debug api vsync))
    by reflexivity.
  revert P. generalize (Application_new debug api vsync).
  induction cs as [|c cs IH]; intros a P; [exact P|].
  simpl. by apply IH, step_counted.
Qed.

(** ** [realize] *)

(** X17. [realize()] on a viewer that is not realized makes a window only if
    the viewer has none.  With a window present it changes no table, no
    window and not the viewer's windows.  Without one it opens the main
    window, 1920 by 1080, with the debug and API-dump layers as the
    application was configured, immediate presentation when vsync is off and
    the barycentric feature on, registers a command graph for it and makes
    it the viewer's only window.  Either way the viewer ends up
    realized, a close handler is the last handler installed, and a second
    [realize()] changes nothing. *)
Theorem realize_makes_the_main_window (a : Application) :
  _viewerRealized a = false ->
  let b := realize a in
  _viewerRealized b = true /\
  realize b = b /\
  (exists hs n, eventHandlers b = hs ++ [Some (CloseHandler n)]) /\
  (viewer_windows a <> [] ->
   viewer_windows b = viewer_windows a /\ same_tables a b /\
   windowObjs b = windowObjs a) /\
  (viewer_windows a = [] ->
   exists w o,
     viewer_windows b = [w] /\
     is_Some (getCommandGraph w b) /\
     windowObjs b !! w = Some o /\
     width o = 1920%Z /\ height o = 1080%Z /\
     debugLayer o = _debuglayer a /\ apiDumpLayer o = _apilayer a /\
     (_vsync a = false -> presentModeImmediate o = true) /\
     barycentric o = true).
Proof.
  intros Hr b.
  assert (Hb : _viewerRealized b = true) by apply realize_realized.
  split; [exact Hb|]. split; [unfold realize at 1; by rewrite Hb|].
  subst b. cbv beta delta [realize]. rewrite Hr.
  destruct (viewer_windows a) as [|w0 l] eqn:Hvw.
  - cbv zeta. split; [by eexists _, _|]. split; [done|]. intros _.
    unfold addWindow. cbv zeta.
    change (_viewerRealized (new_future a).2) with (_viewerRealized a).
    rewrite Hr. cbn [snd].
    destruct (add_window_shape main_window_traits (new_future a).1
                (new_future a).2) as (cg & v & rg & S).
    cbv zeta in S.
    destruct S as (S1 & _ & _ & _ & _ & S6 & S7 & _).
    revert S1 S6 S7.
    generalize (add_window main_window_traits (new_future a).1
                  (new_future a).2).
    intros c S1 S6 S7. unfold getCommandGraph. unchanged.
    rewrite S1, S6, S7, create_Window_windowObjs. unchanged. rewrite Hvw.
    eexists _, _. split; [reflexivity|].
    split; [rewrite lookup_insert_eq; by eexists|].
    split; [apply lookup_insert_eq|].
    cbn. repeat split. by intros ->.
  - cbv zeta. split; [by eexists _, _|]. split; [|done]. intros _.
    split; [unchanged; exact Hvw|].
    split; [repeat split; unchanged; reflexivity|unchanged; reflexivity].
Qed.

Lemma realize_makes_the_main_window_witness :
  let a := Application_new true false false in
  let b := realize a in
  _viewerRealized b = true /\
  realize b = b /\
  (exists hs n, eventHandlers b = hs ++ [Some (CloseHandler n)]) /\
  (viewer_windows a <> [] ->
   viewer_windows b = viewer_windows a /\ same_tables a b /\
   windowObjs b = windowObjs a) /\
  (viewer_windows a = [] ->
   exists w o,
     viewer_windows b = [w] /\
     is_Some (getCommandGraph w b) /\
     windowObjs b !! w = Some o /\
     width o = 1920%Z /\ height o = 1080%Z /\
     debugLayer o = _debuglayer a /\ apiDumpLayer o = _apilayer a /\
     (_vsync a = false -> presentModeImmediate o = true) /\
     barycentric o = true).
Proof.
  apply (realize_makes_the_main_window (Application_new true false false)).
  reflexivity.
Defined.

(** ** Adding a view after realization *)

Lemma manipulators_in_order_attached a w u :
  u ∈ window_views a w -> view_manipulator a u ∈ manipulators_in_order a.
Proof.
  unfold window_views, manipulators_in_order. intros Hu.
  destruct (displayConfiguration a !! w) as [vs|] eqn:E;
    [|by apply elem_of_nil in Hu].
  apply list_elem_of_In, in_flat_map. exists (w, vs). split.
  - by apply list_elem_of_In, elem_of_map_to_list.
  - apply in_map, in_rev. rewrite rev_involutive. by apply list_elem_of_In.
Qed.

Lemma call_on_create_trace cb cg a :
  trace (call_on_create cb cg a) = on_create_events cb cg ++ trace a.
Proof. by destruct cb. Qed.

(** X18. What the lambda queued by [addView] does for a window that has a
    command graph and a view that exists.  It waits for the device, gives
    the view the scene root if the view has no children, makes a render
    graph for the view and appends it to the window's command graph,
    compiles it at once, records it as the view's render graph, appends the
    view to the window's list, stores a new manipulator on the view and
    installs it, calls [on_create] with the command graph and resolves the
    future with the view. *)
Theorem addViewAfterViewerIsRealized_on_a_registered_window (a : Application)
    (w : Window) (v : View) (cb : option Callback) (f : Future)
    (cg : CommandGraph) (o : ViewObj) :
  _commandGraphByWindow a !! w = Some cg ->
  views a !! v = Some o ->
  let b := addViewAfterViewerIsRealized w v cb f a in
  exists rg m,
    attach_tables w cg v rg a b /\
    trace b
    = on_create_events cb (Some cg)
      ++ [EvActivateRenderGraph rg w v; EvDeviceWaitIdle] ++ trace a /\
    future_value b f = Some v /\
    views b !! v
    = Some {| camera := camera o;
              children := match children o with
                          | [] => [root]
                          | _ :: _ => children o
                          end;
              manipulator := Some m |} /\
    Some (MapManipulator m) ∈ eventHandlers b.
Proof.
  intros Hcg Hv b.
  destruct (addViewAfterViewerIsRealized_attach w v cb f a cg Hcg) as [T _].
  fold b in T. exists (next_id a).
  set (s := attach_scene v (deviceWaitIdle a)).
  assert (Hs : views s !! v
               = Some {| camera := camera o;
                         children := match children o with
                                     | [] => [root]
                                     | _ :: _ => children o
                                     end;
                         manipulator := manipulator o |}).
  { subst s. unfold attach_scene.
    change (views (deviceWaitIdle a)) with (views a). rewrite Hv.
    destruct o as [c [|k ks] m]; cbn [children camera manipulator].
    - fields_cbn. apply lookup_insert_eq.
    - exact Hv. }
  assert (Ts : trace s = EvDeviceWaitIdle :: trace a)
    by (subst s; unchanged; reflexivity).
  assert (Ns : next_id s = next_id a) by (subst s; unchanged; reflexivity).
  assert (Eb : b = resolve f v
                     (call_on_create cb (Some cg)
                        (addManipulator w v
                           (remember_view w v (next_id a)
                              (activateRenderGraph (next_id a) w
                                 (commandGraph_addChild cg (next_id a)
                                    (create_RenderGraph w v s).2)))))).
  { subst b. cbv beta delta [addViewAfterViewerIsRealized].
    unfold getCommandGraph. cbv zeta. unchanged. rewrite Hcg. fold s.
    change (create_RenderGraph w v s).1 with (next_id s). by rewrite Ns. }
  set (x2 := commandGraph_addChild cg (next_id a) (create_RenderGraph w v s).2)
    in Eb.
  assert (Ea : activateRenderGraph (next_id a) w x2
               = emit (EvActivateRenderGraph (next_id a) w v) x2).
  { unfold activateRenderGraph, renderGraph_view.
    assert (R : renderGraphs x2 !! next_id a
                = Some {| rg_window := w; rg_children := [v] |}).
    { subst x2. unchanged. unfold create_RenderGraph, fresh. cbn [fst snd].
      fields_cbn. rewrite Ns. apply lookup_insert_eq. }
    assert (V : views x2 !! v = views s !! v)
      by (subst x2; unchanged; reflexivity).
    rewrite R. cbn [rg_children]. rewrite V, Hs. reflexivity. }
  rewrite Ea in Eb.
  assert (T2 : trace x2 = trace s) by (subst x2; unchanged; reflexivity).
  assert (V2 : views x2 = views s) by (subst x2; unchanged; reflexivity).
  clearbody x2.
  set (x4 := remember_view w v (next_id a)
               (emit (EvActivateRenderGraph (next_id a) w v) x2)) in Eb.
  assert (T4 : trace x4 = EvActivateRenderGraph (next_id a) w v :: trace s)
    by (subst x4; unchanged; by rewrite <- T2).
  assert (V4 : views x4 = views s) by (subst x4; unchanged; exact V2).
  assert (D4 : v ∈ window_views x4 w).
  { subst x4. unfold window_views, remember_view. fields_cbn.
    rewrite lookup_insert_eq. cbn. apply elem_of_app. right. constructor. }
  clearbody x4. exists (next_id x4).
  set (x5 := addManipulator w v x4) in Eb.
  assert (T5 : trace x5 = trace x4) by (subst x5; unchanged; reflexivity).
  assert (V5 : views x5 !! v
               = Some {| camera := camera o;
                         children := match children o with
                                     | [] => [root]
                                     | _ :: _ => children o
                                     end;
                         manipulator := Some (next_id x4) |}).
  { subst x5. unfold addManipulator. cbn [fresh fst snd]. fields_cbn.
    by rewrite lookup_alter_eq, V4, Hs. }
  assert (H5 : Some (MapManipulator (next_id x4)) ∈ eventHandlers x5).
  { assert (D5 : v ∈ window_views x5 w) by (unfold window_views; exact D4).
    pose proof (manipulators_in_order_attached x5 w v D5) as Hin.
    unfold view_manipulator in Hin. rewrite V5 in Hin.
    cbn [mbind option_bind manipulator fmap option_fmap option_map] in Hin.
    subst x5. unfold addManipulator at 1. cbn [fresh fst snd]. fields_cbn.
    apply elem_of_app. right. exact Hin. }
  clearbody x5.
  split; [exact T|].
  split.
  { rewrite Eb. unchanged. rewrite call_on_create_trace, T5, T4, Ts.
    reflexivity. }
  split; [rewrite Eb; apply future_value_resolve|].
  split; [rewrite Eb; unchanged; exact V5|].
  rewrite Eb. unchanged. exact H5.
Qed.

Lemma addViewAfterViewerIsRealized_on_a_registered_window_witness :
  let b := addViewAfterViewerIsRealized 9%positive 18%positive
             (Some 70%positive) 60%positive realized_with_view in
  exists rg m,
    attach_tables 9%positive 11%positive 18%positive rg realized_with_view b /\
    trace b
    = on_create_events (Some 70%positive) (Some 11%positive)
      ++ [EvActivateRenderGraph rg 9%positive 18%positive; EvDeviceWaitIdle]
      ++ trace realized_with_view /\
    future_value b 60%positive = Some 18%positive /\
    views b !! 18%positive
    = Some {| camera := Some 100%positive;
              children := [root];
              manipulator := Some m |} /\
    Some (MapManipulator m) ∈ eventHandlers b.
Proof.
  apply (addViewAfterViewerIsRealized_on_a_registered_window
           realized_with_view 9%positive 18%positive (Some 70%positive)
           60%positive 11%positive
           {| camera := Some 100%positive; children := [];
              manipulator := None |}).
  - vm_compute. reflexivity.
  - vm_compute. reflexivity.
Defined.

(** ** The command graphs handed to the viewer *)

(** X19. In every state a client reaches by adding windows, adding and
    removing views and running frames, [setupViewer] hands the viewer each
    registered command graph exactly once: the command graphs it assigns are
    those of the viewer's windows, without repetition, one per window. *)
Theorem setupViewer_binds_every_command_graph (k : Z)
    (debug api vsync : bool) (cs : list Call) :
  run_ok k (Application_new debug api vsync) cs = true ->
  let a := steps k cs (Application_new debug api vsync) in
  exists cgs,
    trace (setupViewer a)
    = [EvCompile; EvAssignRecordAndSubmit cgs; EvEcsInitialize] ++ trace a /\
    NoDup cgs /\
    (forall cg, cg ∈ cgs <->
                exists w, w ∈ viewer_windows a /\
                          getCommandGraph w a = Some cg) /\
    length cgs = length (viewer_windows a).
Proof.
  intros Hok a.
  destruct (steps_good k cs _ (Good_new debug api vsync) Hok) as [I _].
  destruct (steps_WindowsInv k cs _ (WindowsInv_new debug api vsync))
    as [N R _ _ _ _].
  fold a in I, N, R.
  exists (map_to_list (_commandGraphByWindow a)).*2.
  split; [reflexivity|]. split; [|split].
  - apply NoDup_fmap_2_strong; [|apply NoDup_map_to_list].
    intros [w cg] [w' cg'] H H' E. cbn in E. subst cg'.
    apply elem_of_map_to_list in H, H'.
    by rewrite (inv_inj a I w w' cg H H').
  - intros cg. rewrite list_elem_of_fmap. unfold getCommandGraph. split.
    + intros ([w cg'] & -> & H). apply elem_of_map_to_list in H.
      exists w. split; [|done]. apply R. by eexists.
    + intros (w & _ & H). exists (w, cg). split; [done|].
      by apply elem_of_map_to_list.
  - rewrite length_fmap, <- (length_fmap fst).
    apply Permutation_length, NoDup_Permutation;
      [apply NoDup_fst_map_to_list|done|].
    intros w. rewrite R, list_elem_of_fmap. split.
    + intros ([w' cg] & -> & H). apply elem_of_map_to_list in H. by eexists.
    + intros [cg H]. exists (w, cg). split; [done|].
      by apply elem_of_map_to_list.
Qed.

Lemma setupViewer_binds_every_command_graph_witness :
  let a := steps 1000 sample_run (Application_new false false true) in
  exists cgs,
    trace (setupViewer a)
    = [EvCompile; EvAssignRecordAndSubmit cgs; EvEcsInitialize] ++ trace a /\
    NoDup cgs /\
    (forall cg, cg ∈ cgs <->
                exists w, w ∈ viewer_windows a /\
                          getCommandGraph w a = Some cg) /\
    length cgs = length (viewer_windows a).
Proof.
  apply (setupViewer_binds_every_command_graph 1000 false false true
           sample_run).
  vm_compute. reflexivity.
Defined.

(** ** Adding a view twice *)

(** X20. [addView] does not check whether the view is attached already, and
    [removeView] takes out only the render graph recorded last.  Take a
    client that only adds windows, makes views, adds and removes views,
    realizes and runs frames, and that never hands [addView] a view that is
    attached or is waiting in the queue to be attached, and a state that it
    reaches from a new application before realization.  If the client now
    adds a view that has a camera and is not attached twice to a window with
    a command graph and removes it once, the window's list and the view bookkeeping are as
    they were before the two calls, but the render graph made by the first
    call stays behind as a child of the command graph and still carries the
    view. *)
Theorem second_addView_leaves_a_render_graph_behind (k : Z)
    (debug api vsync : bool) (cs : list Call) (w : Window) (v : View)
    (cam : Camera) (cg : CommandGraph) (cb1 cb2 : option Callback) :
  run_ok k (Application_new debug api vsync) cs = true ->
  let a := steps k cs (Application_new debug api vsync) in
  _viewerRealized a = false ->
  view_camera a v = Some cam ->
  v ∉ attached_views a ->
  getCommandGraph w a = Some cg ->
  let b := removeView (Some v)
             (addView (Some w) (Some v) cb2
                (addView (Some w) (Some v) cb1 a).2).2 in
  (forall w', window_views b w' = window_views a w') /\
  _viewData b = _viewData a /\
  exists rg,
    commandGraph_children b cg = commandGraph_children a cg ++ [rg] /\
    renderGraph_view b rg = Some v.
Proof.
  intros Hok a Hr Hc Hna Hcg b.
  destruct (steps_good k cs _ (Good_new debug api vsync) Hok) as [I _].
  fold a in I. unfold getCommandGraph in Hcg.
  set (m1 := (add_view_now w v cb1 a).2).
  set (m2 := (add_view_now w v cb2 m1).2).
  assert (R1 : _viewerRealized m1 = false) by (subst m1; unchanged; exact Hr).
  assert (R2 : _viewerRealized m2 = false) by (subst m2; unchanged; exact R1).
  assert (C1 : view_camera m1 v = Some cam).
  { unfold view_camera in *. subst m1.
    cbv beta delta [add_view_now]. rewrite Hcg. cbv zeta. cbn [snd].
    unchanged. unfold attach_scene.
    destruct (views a !! v) as [o|] eqn:E; [|discriminate].
    destruct (children o); [|by rewrite E].
    fields_cbn. by rewrite lookup_insert_eq. }
  assert (Eb : b = remove v m2).
  { subst b. unfold addView at 2. rewrite Hc, Hr. fold m1.
    unfold addView. rewrite C1, R1. fold m2.
    unfold removeView. by rewrite R2. }
  destruct (add_view_now_attach w v cb1 a cg Hcg)
    as [(A1 & A2 & A3 & A4 & A5) N1].
  fold m1 in A1, A2, A3, A4, A5, N1.
  assert (Hcg1 : _commandGraphByWindow m1 !! w = Some cg) by (by rewrite A1).
  destruct (add_view_now_attach w v cb2 m1 cg Hcg1)
    as [(B1 & B2 & B3 & B4 & B5) N2].
  fold m2 in B1, B2, B3, B4, B5, N2.
  assert (V2 : is_Some (views m2 !! v)).
  { unfold view_camera in C1.
    assert (is_Some (views m1 !! v))
      by (destruct (views m1 !! v); [done|discriminate]).
    subst m2. cbv beta delta [add_view_now]. rewrite Hcg1. cbv zeta.
    cbn [snd]. unchanged. unfold attach_scene.
    destruct (views m1 !! v) as [o|] eqn:E; [|done].
    destruct (children o); [|by rewrite E].
    fields_cbn. by rewrite lookup_insert_eq. }
  assert (Vb : views (remove v m2) = views m2) by (unchanged; reflexivity).
  clearbody m1 m2.
  assert (Hvw : v ∉ window_views a w).
  { intros H. apply Hna, attached_views_elem. by exists w. }
  assert (W1 : window_views m1 w = window_views a w ++ [v])
    by (by rewrite (window_views_insert a m1 w _ w A3), decide_True).
  assert (W2 : window_views m2 w = (window_views a w ++ [v]) ++ [v])
    by (by rewrite (window_views_insert m1 m2 w _ w B3), decide_True, W1).
  assert (K1 : commandGraph_children m1 cg
               = commandGraph_children a cg ++ [next_id a])
    by (by rewrite (commandGraph_children_insert a m1 cg _ cg A4), decide_True).
  assert (K2 : commandGraph_children m2 cg
               = (commandGraph_children a cg ++ [next_id a]) ++ [next_id m1]).
  { by rewrite (commandGraph_children_insert m1 m2 cg _ cg B4), decide_True,
      K1. }
  assert (Hother : forall w', w' <> w ->
                     window_views m2 w' = window_views a w').
  { intros w' Hne.
    rewrite (window_views_insert m1 m2 w _ w' B3), decide_False by done.
    by rewrite (window_views_insert a m1 w _ w' A3), decide_False. }
  assert (Hgw : getWindow v m2 = Some w).
  { destruct (getWindow v m2) as [w'|] eqn:E.
    - apply getWindow_Some in E as (vs & E & Hin). f_equal.
      destruct (decide (w' = w)) as [|Hne]; [done|].
      destruct Hna. apply attached_views_elem. exists w'.
      rewrite <- (Hother w' Hne). unfold window_views. by rewrite E.
    - destruct (getWindow_attached m2 v E).
      apply (window_views_attached m2 w). rewrite W2.
      apply elem_of_app. right. constructor. }
  assert (Hrg : next_id a ∉ commandGraph_children a cg).
  { intros H.
    destruct (Forall2_linked_elem_r _ _ _ _ _ (inv_link a I w cg Hcg) H)
      as (u & _ & [_ R]).
    pose proof (inv_fresh_rg a I _ _ R). lia. }
  assert (Hvd : _viewData a !! v = None).
  { destruct (_viewData a !! v) as [vd|] eqn:E; [|done].
    destruct (inv_vd a I v) as [w' Hw']; [by eexists|].
    destruct Hna. apply attached_views_elem. by exists w'. }
  destruct (remove_attached m2 w cg v (next_id m1)) as (D1 & D2 & D3 & D4 & D5).
  { exact Hgw. }
  { by rewrite B1. }
  { rewrite B2. apply lookup_insert_eq. }
  rewrite Eb. split; [|split].
  - intros w'. rewrite (window_views_insert m2 _ w _ w' D3).
    destruct (decide (w = w')) as [<-|Hne]; [|apply Hother; congruence].
    rewrite W2, !filter_app, filter_not_elem by exact Hvw.
    rewrite !filter_cons_False by (intros H; by apply H).
    rewrite filter_nil. by rewrite !app_nil_r.
  - rewrite D2, B2, delete_insert_eq, A2. by apply delete_insert_id.
  - exists (next_id a). split.
    + rewrite (commandGraph_children_alter m2 _ cg _ cg eq_refl D4),
        decide_True by done.
      rewrite K2. apply filter_Some_drops_last.
      intros H. apply elem_of_app in H as [H|H].
      * destruct (Forall2_linked_elem_r _ _ _ _ _ (inv_link a I w cg Hcg) H)
          as (u & _ & [_ R]).
        pose proof (inv_fresh_rg a I _ _ R). lia.
      * apply list_elem_of_singleton in H. lia.
    + unfold renderGraph_view. rewrite Vb, D5, B5.
      rewrite lookup_insert_ne by lia.
      rewrite A5, lookup_insert_eq. cbn [rg_children].
      by destruct V2 as [o2 ->].
Qed.

Lemma second_addView_leaves_a_render_graph_behind_witness :
  let a := steps 1000
             [AddWindow (Some main_window_traits);
              CreateView (Some 100%positive) []]
             (Application_new false false true) in
  let b := removeView (Some 17%positive)
             (addView (Some 9%positive) (Some 17%positive) None
                (addView (Some 9%positive) (Some 17%positive) None a).2).2 in
  (forall w', window_views b w' = window_views a w') /\
  _viewData b = _viewData a /\
  exists rg,
    commandGraph_children b 11%positive
    = commandGraph_children a 11%positive ++ [rg] /\
    renderGraph_view b rg = Some 17%positive.
Proof.
  apply (second_addView_leaves_a_render_graph_behind 1000 false false true
           [AddWindow (Some main_window_traits);
            CreateView (Some 100%positive) []]
           9%positive 17%positive 100%positive 11%positive None None).
  - vm_compute. reflexivity.
  - vm_compute. reflexivity.
  - vm_compute. reflexivity.
  - apply (bool_decide_unpack _). vm_compute. exact I.
  - vm_compute. reflexivity.
Defined.

(** ** Removing a view *)

(** X21. Take a client that only adds windows, makes views, adds and
    removes views, realizes and runs frames, and that never hands [addView]
    a view that is attached or is waiting in the queue to be attached.  In
    every state such a client reaches from a new application, the lambda of
    [removeView] does the following for a view that a window lists.  It
    waits for the device; the view
    leaves the window's list, the other views of the window keep their
    order, and no other window's list changes; the view's render graph
    leaves the window's command graph, which is left with one child per
    remaining view; the view's bookkeeping entry is erased.  The view object
    and the installed handlers are not touched. *)
Theorem remove_detaches_the_view (k : Z) (debug api vsync : bool)
    (cs : list Call) (w : Window) (v : View) :
  run_ok k (Application_new debug api vsync) cs = true ->
  let a := steps k cs (Application_new debug api vsync) in
  v ∈ window_views a w ->
  let b := remove v a in
  exists cg rg,
    getCommandGraph w a = Some cg /\
    linked a w v rg /\
    window_views b w = filter (fun u => u <> v) (window_views a w) /\
    (forall w', w' <> w -> window_views b w' = window_views a w') /\
    (v ∉ attached_views b) /\
    commandGraph_children b cg
    = filter (fun c => c <> rg) (commandGraph_children a cg) /\
    (rg ∉ commandGraph_children b cg) /\
    length (commandGraph_children b cg) = length (window_views b w) /\
    _viewData b = delete v (_viewData a) /\
    trace b = EvDeviceWaitIdle :: trace a /\
    views b = views a /\
    eventHandlers b = eventHandlers a.
Proof.
  intros Hok a Hv b.
  destruct (steps_good k cs _ (Good_new debug api vsync) Hok) as [I _].
  fold a in I.
  assert (Hdc : is_Some (displayConfiguration a !! w)).
  { unfold window_views in Hv.
    destruct (displayConfiguration a !! w); [done|by apply elem_of_nil in Hv]. }
  destruct Hdc as [vs Hdc].
  destruct (inv_dom a I w vs Hdc) as [cg Hcg].
  destruct (Forall2_linked_elem _ _ _ _ _ (inv_link a I w cg Hcg) Hv)
    as (rg & Hrg & L).
  pose proof (remove_attached a w cg v rg (getWindow_unique a v w I Hv) Hcg
                (proj1 L)) as D.
  pose proof (Inv_detach a _ w cg v rg I D (remove_alloc v a) Hcg Hv (proj1 L))
    as Ib.
  assert (Ht : trace (remove v a) = EvDeviceWaitIdle :: trace a).
  { cbv beta delta [remove]. cbv zeta.
    change (getWindow v (deviceWaitIdle a)) with (getWindow v a).
    rewrite (getWindow_unique a v w I Hv). unfold getCommandGraph.
    change (_commandGraphByWindow (deviceWaitIdle a))
      with (_commandGraphByWindow a).
    change (_viewData (deviceWaitIdle a)) with (_viewData a).
    by rewrite Hcg, (proj1 L). }
  assert (Hvs : views (remove v a) = views a) by (unchanged; reflexivity).
  assert (Hh : eventHandlers (remove v a) = eventHandlers a)
    by (unchanged; reflexivity).
  fold b in D, Ib, Ht, Hvs, Hh. clearbody b.
  destruct D as (D1 & D2 & D3 & D4 & D5).
  assert (Hw : window_views b w = filter (fun u => u <> v) (window_views a w))
    by (by rewrite (window_views_insert a b w _ w D3), decide_True).
  assert (Hw' : forall w', w' <> w -> window_views b w' = window_views a w').
  { intros w' Hne.
    by rewrite (window_views_insert a b w _ w' D3), decide_False. }
  assert (Hc : commandGraph_children b cg
               = filter (fun c => c <> rg) (commandGraph_children a cg)).
  { rewrite (commandGraph_children_alter a b cg _ cg eq_refl D4),
      decide_True by done.
    apply list_filter_iff. intros c. split; intros H E; apply H; congruence. }
  exists cg, rg. split; [exact Hcg|]. split; [exact L|].
  split; [exact Hw|]. split; [exact Hw'|].
  split.
  { rewrite attached_views_elem. intros [w' Hin].
    destruct (decide (w' = w)) as [->|Hne].
    - rewrite Hw in Hin. apply list_elem_of_filter in Hin as [Hne _]. done.
    - rewrite (Hw' w' Hne) in Hin. apply Hne.
      by apply (Inv_one_window a w' w v I). }
  split; [exact Hc|].
  split.
  { rewrite Hc. intros Hin. apply list_elem_of_filter in Hin as [Hne _]. done. }
  split.
  { symmetry. apply (Forall2_length (linked b w)), (inv_link b Ib).
    by rewrite D1. }
  done.
Qed.

Lemma remove_detaches_the_view_witness :
  let a := steps 1000 sample_run (Application_new false false true) in
  let b := remove 21%positive a in
  exists cg rg,
    getCommandGraph 9%positive a = Some cg /\
    linked a 9%positive 21%positive rg /\
    window_views b 9%positive
    = filter (fun u => u <> 21%positive) (window_views a 9%positive) /\
    (forall w', w' <> 9%positive -> window_views b w' = window_views a w') /\
    (21%positive ∉ attached_views b) /\
    commandGraph_children b cg
    = filter (fun c => c <> rg) (commandGraph_children a cg) /\
    (rg ∉ commandGraph_children b cg) /\
    length (commandGraph_children b cg) = length (window_views b 9%positive) /\
    _viewData b = delete 21%positive (_viewData a) /\
    trace b = EvDeviceWaitIdle :: trace a /\
    views b = views a /\
    eventHandlers b = eventHandlers a.
Proof.
  apply (remove_detaches_the_view 1000 false false true sample_run
           9%positive 21%positive).
  - vm_compute. reflexivity.
  - apply (bool_decide_unpack _). vm_compute. exact I.
Defined.

(** ** Manipulators against attached views *)

Lemma attached_views_length_insert a b w vs :
  displayConfiguration b = <[w := vs]> (displayConfiguration a) ->
  (length (attached_views b) + length (window_views a w)
   = length (attached_views a) + length vs)%nat.
Proof.
  intros E. unfold attached_views, window_views. rewrite E.
  generalize (displayConfiguration a). intros m.
  assert (P1 : map_to_list (<[w := vs]> m)
               ≡ₚ (w, vs) :: map_to_list (delete w m)).
  { rewrite <- insert_delete_eq. apply map_to_list_insert, lookup_delete_eq. }
  rewrite (Permutation_length (Permutation_flat_map snd P1)).
  cbn [flat_map snd]. rewrite length_app.
  destruct (m !! w) as [vs0|] eqn:Hw; cbn [from_option id].
  - pose proof (map_to_list_delete m w vs0 Hw) as P2.
    rewrite <- (Permutation_length (Permutation_flat_map snd P2)).
    cbn [flat_map snd]. rewrite length_app. lia.
  - rewrite (delete_id m w Hw). cbn. lia.
Qed.

Lemma filter_length_drops {A} `{EqDecision A} (x : A) (l : list A) :
  x ∈ l -> (length (filter (fun y => y <> x) l) < length l)%nat.
Proof.
  induction l as [|y l IH]; intros Hx; [by apply elem_of_nil in Hx|].
  pose proof (length_filter (fun y => y <> x) l) as Hl.
  rewrite filter_cons. destruct (decide (y <> x)) as [Hne|He]; cbn.
  - apply elem_of_cons in Hx as [->|Hx]; [done|]. specialize (IH Hx). lia.
  - lia.
Qed.

(** C3 (what the code does).  The handler list is rebuilt from the display
    configuration by [addManipulator] only; neither [removeView] nor the
    [addView] taken before realization runs it.  So, in every state reached
    from a new application by a client that adds windows, makes views, adds
    and removes views, realizes and runs frames, and that hands [addView]
    only views that are neither attached nor waiting in the queue: removing
    an attached view leaves every handler installed, the view's manipulator
    included, while one view less is attached; and adding a view before
    realization attaches one view more and installs nothing.  Either way the
    number of map manipulators installed cannot equal the number of attached
    views both before and after. *)
Theorem manipulators_do_not_follow_the_views (k : Z)
    (debug api vsync : bool) (cs : list Call) :
  run_ok k (Application_new debug api vsync) cs = true ->
  let a := steps k cs (Application_new debug api vsync) in
  (forall w v, v ∈ window_views a w ->
     let b := remove v a in
     (v ∉ attached_views b) /\
     eventHandlers b = eventHandlers a /\
     (length (attached_views b) < length (attached_views a))%nat /\
     ~ (length (manipulator_entries a) = length (attached_views a) /\
        length (manipulator_entries b) = length (attached_views b))) /\
  (forall w v cam cb cg,
     _viewerRealized a = false ->
     view_camera a v = Some cam ->
     getCommandGraph w a = Some cg ->
     let b := (addView (Some w) (Some v) cb a).2 in
     v ∈ window_views b w /\
     eventHandlers b = eventHandlers a /\
     length (attached_views b) = S (length (attached_views a)) /\
     ~ (length (manipulator_entries a) = length (attached_views a) /\
        length (manipulator_entries b) = length (attached_views b))).
Proof.
  intros Hok a.
  destruct (steps_good k cs _ (Good_new debug api vsync) Hok) as [I _].
  fold a in I. split.
  - intros w v Hv b.
    assert (Hdc : is_Some (displayConfiguration a !! w)).
    { unfold window_views in Hv.
      destruct (displayConfiguration a !! w);
        [done|by apply elem_of_nil in Hv]. }
    destruct Hdc as [vs Hdc].
    destruct (inv_dom a I w vs Hdc) as [cg Hcg].
    destruct (Forall2_linked_elem _ _ _ _ _ (inv_link a I w cg Hcg) Hv)
      as (rg & _ & L).
    pose proof (remove_attached a w cg v rg (getWindow_unique a v w I Hv) Hcg
                  (proj1 L)) as (_ & _ & D3 & _).
    assert (Hh : eventHandlers (remove v a) = eventHandlers a)
      by (unchanged; reflexivity).
    fold b in D3, Hh. clearbody b.
    assert (Hlen : (length (attached_views b) < length (attached_views a))%nat).
    { pose proof (attached_views_length_insert a b w _ D3) as E.
      pose proof (filter_length_drops v (window_views a w) Hv). lia. }
    assert (Hm : manipulator_entries b = manipulator_entries a)
      by (unfold manipulator_entries; by rewrite Hh).
    split; [|split; [exact Hh|split; [exact Hlen|rewrite Hm; lia]]].
    rewrite attached_views_elem. intros [w' Hin].
    rewrite (window_views_insert a b w _ w' D3) in Hin.
    destruct (decide (w = w')) as [<-|Hne].
    + apply list_elem_of_filter in Hin as [Hne _]. done.
    + apply Hne. by apply (Inv_one_window a w w' v I).
  - intros w v cam cb cg Hr Hc Hcg b. unfold getCommandGraph in Hcg.
    assert (Eb : b = (add_view_now w v cb a).2)
      by (subst b; unfold addView; by rewrite Hc, Hr).
    destruct (add_view_now_attach w v cb a cg Hcg) as [(_ & _ & A3 & _) _].
    assert (Hh : eventHandlers (add_view_now w v cb a).2 = eventHandlers a)
      by (unchanged; reflexivity).
    rewrite <- Eb in A3, Hh. clearbody b.
    assert (Hlen : length (attached_views b) = S (length (attached_views a))).
    { pose proof (attached_views_length_insert a b w _ A3) as E.
      rewrite length_app in E. cbn in E. lia. }
    assert (Hm : manipulator_entries b = manipulator_entries a)
      by (unfold manipulator_entries; by rewrite Hh).
    split; [|split; [exact Hh|split; [exact Hlen|rewrite Hm; lia]]].
    rewrite (window_views_insert a b w _ w A3), decide_True by done.
    apply elem_of_app. right. constructor.
Qed.

Lemma manipulators_do_not_follow_the_views_witness :
  let a := steps 1000
             [Frame sample_input; CreateView (Some 100%positive) [];
              AddView (Some 9%positive) (Some 18%positive) None;
              Frame sample_input]
             (Application_new false false true) in
  (forall w v, v ∈ window_views a w ->
     let b := remove v a in
     (v ∉ attached_views b) /\
     eventHandlers b = eventHandlers a /\
     (length (attached_views b) < length (attached_views a))%nat /\
     ~ (length (manipulator_entries a) = length (attached_views a) /\
        length (manipulator_entries b) = length (attached_views b))) /\
  (forall w v cam cb cg,
     _viewerRealized a = false ->
     view_camera a v = Some cam ->
     getCommandGraph w a = Some cg ->
     let b := (addView (Some w) (Some v) cb a).2 in
     v ∈ window_views b w /\
     eventHandlers b = eventHandlers a /\
     length (attached_views b) = S (length (attached_views a)) /\
     ~ (length (manipulator_entries a) = length (attached_views a) /\
        length (manipulator_entries b) = length (attached_views b))).
Proof.
  apply (manipulators_do_not_follow_the_views 1000 false false true
           [Frame sample_input; CreateView (Some 100%positive) [];
            AddView (Some 9%positive) (Some 18%positive) None;
            Frame sample_input]).
  vm_compute. reflexivity.
Defined.

(** The claim of C3 fails on a run of public calls: a realized application,
    a second view added and attached by the next frame, the view removed
    again by the frame after the [removeView] call.  One view is attached;
    two map manipulators are installed, the one of the removed view among
    them. *)
Lemma manipulator_of_removed_view_stays :
  attached_views cycled_application = [13%positive] /\
  manipulator_entries cycled_application
  = [Some (MapManipulator 21); Some (MapManipulator 16)] /\
  length (manipulator_entries cycled_application)
  <> length (attached_views cycled_application).
Proof.
  split; [vm_compute; reflexivity|].
  split; [vm_compute; reflexivity|].
  vm_compute. discriminate.
Qed.
